(** * SIEM pipeline: risk engine, WAF detection engine and SOAR engine

    Shallow embedding of
      - [risk-engine/main.py]: [calculate_risk], [decide_action], [assess_risk]
        and the PL/pgSQL trigger [update_ip_rep];
      - [admin-console/backend/main.py]: the three statements that write the
        [ip_reputation] table besides the trigger;
      - [waf/main.py]: [OWASP_PATTERNS], [SUSPICIOUS_USER_AGENTS],
        [detect_owasp], [check_rate_limit], [is_ip_blocked], [block_ip],
        [waf_middleware], [admin_block_ip], [admin_unblock_ip];
      - [soar/main.py]: [execute_action], [execute_soar], [create_incident],
        [rollback].

    Conventions.
      - A Python [float] is read as the exact rational it denotes ([Q]); the
        module [Binary64] re-runs the scoring arithmetic on IEEE binary64
        for the concrete inputs where the difference could matter.
      - A Python [dict] read with [.get] is a [gmap string pyval]; a missing
        key and a key bound to [None] are kept apart, as [dict.get] does.
      - A raised exception is the [Raise] branch of [result].
      - [ip_reputation], the one table written by upsert on its key, is a
        [gmap] from the address; the other tables are lists of rows in
        insertion order, a row's id being its position.
      - The Redis instance shared by the WAF and the SOAR engine is a
        [gmap] from keys to entries ([Redis.store]).
      - A request of the SOAR engine to an admin endpoint of the WAF passes
        [waf_middleware] before it reaches its handler, like every request
        to the WAF ([Soar.post]).
      - Python's [re.search] is modelled by [PyRe.search], a parser and a
        backtracking matcher for the pattern syntax the WAF uses. *)

From Stdlib Require Import QArith Qminmax ZArith Lia Lqa Ascii String.
From Stdlib Require Import Floats DecimalString DecimalZ DecimalPos.
From stdpp Require Import gmap strings list pretty.

Local Open Scope Z_scope.

(** ** Python values, exceptions *)

Inductive pyval : Type :=
  | PNone
  | PNum (q : Q)
  | PStr (s : string).

Abbreviation dict := (gmap string pyval).

Inductive exn : Type :=
  | TypeError
  | IntegerOutOfRange
  | ReError
  | ConnectError (message : string)
  | HTTPException (status : Z) (detail : string).

Inductive result (A : Type) : Type :=
  | Ok (a : A)
  | Raise (e : exn).
Arguments Ok {A} a.
Arguments Raise {A} e.

(** Sequencing: the first exception raised aborts the rest. *)
#[global] Instance result_bind : MBind result :=
  fun A B (k : A -> result B) (r : result A) =>
    match r with
    | Ok a => k a
    | Raise e => Raise e
    end.

(** [except HTTPException: raise] / [except Exception as e: raise
    HTTPException(500, prefix + str(e))]; the detail keeps the prefix and
    leaves out the text of [e]. *)
Definition reraise_as_500 {A} (prefix : string) (r : result A) : result A :=
  match r with
  | Ok a => Ok a
  | Raise (HTTPException st detail) => Raise (HTTPException st detail)
  | Raise _ => Raise (HTTPException 500 prefix)
  end.

(** [d.get(key, default)] *)
Definition dict_get (d : dict) (key : string) (default : pyval) : pyval :=
  match d !! key with
  | Some v => v
  | None => default
  end.

(** The truth value of a dict: non-empty. *)
Definition dict_truthy (d : dict) : bool :=
  negb (bool_decide (d = ∅)).

(** [v * c] for a float constant [c]: defined on numbers only. *)
Definition py_mul (v : pyval) (c : Q) : result Q :=
  match v with
  | PNum q => Ok (q * c)%Q
  | _ => Raise TypeError
  end.

(** [a >= b] on floats. *)
Definition Qgeb (a b : Q) : bool := Qle_bool b a.

(** Python's [min(a, b)]: [b] when [b < a], else [a]. *)
Definition py_min (a b : Q) : Q :=
  if Qle_bool a b then a else b.

(** Python's [max(xs, default=d)]: the first maximal element. *)
Definition py_max2 (a b : Q) : Q :=
  if Qle_bool b a then a else b.

Definition py_max_default (xs : list Q) (default : Q) : Q :=
  match xs with
  | [] => default
  | x :: rest => foldl py_max2 x rest
  end.

(** ** The PostgreSQL schema shared by the services

    Only the columns the modelled statements read or write are kept.  Rows of
    the tables that are only inserted into and scanned are kept in insertion
    order; [gen_random_uuid()] is modelled by the position of the row, which
    gives the two properties the code relies on: ids are unique and an id
    handed out stays valid (no modelled statement deletes a row). *)

Module Schema.

Definition uuid := Z.
Definition timestamp := Z.
Bind Scope Z_scope with uuid timestamp.

Record raw_request : Type := {
  rr_timestamp : timestamp;
  client_ip : string;
  is_blocked : bool;
  is_suspicious : bool
}.

Record ip_reputation_row : Type := {
  first_seen : timestamp;
  last_seen : timestamp;
  total_requests : Z;
  blocked_requests : Z;
  suspicious_requests : Z;
  reputation_score : Q;
  trust_level : string;
  is_whitelisted : bool;
  is_blacklisted : bool;
  blacklist_reason : option string;
  blacklist_expires_at : option timestamp
}.

Record ml_prediction : Type := {
  mp_request_id : uuid;
  predicted_at : timestamp;
  anomaly_score : pyval;
  attack_type : pyval;
  attack_probability : pyval
}.

Record owasp_detection : Type := {
  od_request_id : uuid;
  owasp_category : string;
  severity : pyval
}.

Record risk_assessment : Type := {
  ra_request_id : uuid;
  assessed_at : timestamp;
  risk_score : Q;
  risk_level : string;
  ml_score_weight : Q;
  owasp_score_weight : Q;
  behavioral_score_weight : Q;
  recommended_action : string;
  automation_level : string
}.

Record soar_action : Type := {
  risk_assessment_id : option uuid;
  executed_at : option timestamp;
  action_type : string;
  action_status : string;
  target_ip : string;
  duration_minutes : Z;
  execution_result : string;
  rollback_at : option timestamp;
  rollback_reason : option string
}.

Record incident : Type := {
  incident_type : string;
  inc_severity : string;
  status : string;
  source_ip : string;
  total_requests_involved : Z;
  blocked_requests_count : Z
}.

Record db : Type := {
  raw_requests : list raw_request;
  ip_reputation : gmap string ip_reputation_row;
  ml_predictions : list ml_prediction;
  owasp_detections : list owasp_detection;
  risk_assessments : list risk_assessment;
  soar_actions : list soar_action;
  incidents : list incident
}.

Definition empty_db : db :=
  {| raw_requests := []; ip_reputation := ∅; ml_predictions := [];
     owasp_detections := []; risk_assessments := []; soar_actions := [];
     incidents := [] |}.

(** [SELECT ... WHERE id = $1] on a table kept in insertion order. *)
Definition select_by_id {A} (table : list A) (id : uuid) : option A :=
  if id <? 0 then None else table !! Z.to_nat id.

(** [INSERT ... RETURNING id] *)
Definition insert_returning {A} (table : list A) (row : A) : list A * uuid :=
  (table ++ [row], Z.of_nat (length table)).

(** PostgreSQL [integer] addition: 32 bits, out of range is an error. *)
Definition int4_min : Z := -2147483648.
Definition int4_max : Z := 2147483647.

Definition int4_add (a b : Z) : result Z :=
  let c := a + b in
  if (int4_min <=? c) && (c <=? int4_max) then Ok c
  else Raise IntegerOutOfRange.

(** A text a [VARCHAR(n)] column stores as it is: at most [n] characters
    (a text of at most [n] bytes has no more) and no NUL character.
    PostgreSQL raises on a longer text, unless the excess is spaces, and on
    a NUL character. *)
Definition fits_varchar (n : nat) (s : string) : bool :=
  (String.length s <=? n)%nat &&
  forallb (fun c => negb (Ascii.eqb c Ascii.zero)) (list_ascii_of_string s).

End Schema.

(** ** risk-engine/main.py *)

Module RiskEngine.

(** [WEIGHTS] *)
Definition WEIGHTS_ml : Q := 0.40.
Definition WEIGHTS_owasp : Q := 0.30.
Definition WEIGHTS_behavioral : Q := 0.20.
Definition WEIGHTS_contextual : Q := 0.10.

(** [severity_map.get(v, 0.3)] for
    [severity_map = {"CRITICAL": 1.0, "HIGH": 0.8, "MEDIUM": 0.5, "LOW": 0.3}]. *)
Definition severity_map_get (v : pyval) : Q :=
  match v with
  | PStr s =>
      if String.eqb s "CRITICAL" then 1.0
      else if String.eqb s "HIGH" then 0.8
      else if String.eqb s "MEDIUM" then 0.5
      else if String.eqb s "LOW" then 0.3
      else 0.3
  | _ => 0.3
  end%Q.

(** The three local variables of [calculate_risk], in the order the
    function computes them. *)
Definition ml_score (ml_data : dict) : result Q :=
  if dict_truthy ml_data then
    a ← py_mul (dict_get ml_data "anomaly_score" (PNum 0.0)) 0.6;
    p ← py_mul (dict_get ml_data "attack_probability" (PNum 0.0)) 0.4;
    Ok (a + p)%Q
  else Ok 0.0%Q.

Definition owasp_score (owasp_data : list dict) : Q :=
  py_max_default
    (map (fun d => severity_map_get (dict_get d "severity" (PStr "LOW")))
         owasp_data)
    0.0%Q.

Definition behavioral_score (behavioral : dict) : result Q :=
  let blocked_ratio := dict_get behavioral "blocked_ratio" (PNum 0.0) in
  doubled ← py_mul blocked_ratio 2.0;
  Ok (py_min doubled 1.0).

Definition calculate_risk (ml_data : dict) (owasp_data : list dict)
    (behavioral : dict) : result Q :=
  ml ← ml_score ml_data;
  let owasp := owasp_score owasp_data in
  beh ← behavioral_score behavioral;
  Ok (py_min
        (ml * WEIGHTS_ml + owasp * WEIGHTS_owasp + beh * WEIGHTS_behavioral)
        1.0)%Q.

(** The module constants read from the environment at import time, and
    [AUTOMATION_LEVEL], re-read by [decide_action] at every call. *)
Record config : Type := {
  RISK_THRESHOLD_BLOCK : Q;
  RISK_THRESHOLD_CAPTCHA : Q;
  AUTOMATION_LEVEL : string
}.

Definition default_config : config :=
  {| RISK_THRESHOLD_BLOCK := 0.9;
     RISK_THRESHOLD_CAPTCHA := 0.7;
     AUTOMATION_LEVEL := "semi-auto" |}.

Record decision : Type := {
  action : string;
  level : string;
  requires_validation : bool
}.

Definition decide_action (cfg : config) (risk_score : Q) : decision :=
  let '(action, level) :=
    if Qgeb risk_score (RISK_THRESHOLD_BLOCK cfg) then ("BLOCK_IP", "CRITICAL")
    else if Qgeb risk_score (RISK_THRESHOLD_CAPTCHA cfg) then ("CAPTCHA", "HIGH")
    else if Qgeb risk_score 0.5 then ("RATE_LIMIT", "MEDIUM")
    else ("ALERT_ONLY", "LOW") in
  let requires_validation :=
    if String.eqb (AUTOMATION_LEVEL cfg) "manual" then true
    else if String.eqb (AUTOMATION_LEVEL cfg) "semi-auto" then Qgeb risk_score 0.8
    else if String.eqb (AUTOMATION_LEVEL cfg) "auto" then Qgeb risk_score 0.95
    else if String.eqb (AUTOMATION_LEVEL cfg) "strict" then false
    else true in
  {| action := action; level := level;
     requires_validation := requires_validation |}.

(** *** The trigger [update_ip_rep] (AFTER INSERT ON raw_requests) *)

Import Schema.

(** [CASE WHEN b THEN 1 ELSE 0 END] *)
Definition case_flag (b : bool) : Z := if b then 1 else 0.

(** [x::float / NULLIF(y, 0)]: NULL when [y] is 0.  The quotient is kept
    exact.  For the two comparisons made with it this loses nothing: [x]
    and [y] are 32-bit integers, so a quotient other than 1/2 (or 1/5) is
    more than 2^-34 away from it, far more than the rounding of the
    division and of the literal 0.2 can move either side. *)
Definition float_div_nullif (x y : Z) : option Q :=
  if y =? 0 then None else Some (inject_Z x / inject_Z y)%Q.

(** [r > c]; a comparison with NULL is not true. *)
Definition sql_gt (r : option Q) (c : Q) : bool :=
  match r with
  | Some q => negb (Qle_bool q c)
  | None => false
  end.

(** [CASE WHEN r > 0.5 THEN 0.1 WHEN r > 0.2 THEN 0.3 ELSE 0.7 END] *)
Definition reputation_case (r : option Q) : Q :=
  (if sql_gt r 0.5 then 0.1 else if sql_gt r 0.2 then 0.3 else 0.7)%Q.

Definition update_ip_rep (now : timestamp) (NEW : raw_request)
    (table : gmap string ip_reputation_row)
    : result (gmap string ip_reputation_row) :=
  let excluded_blocked := case_flag (is_blocked NEW) in
  let excluded_suspicious := case_flag (is_suspicious NEW) in
  match table !! client_ip NEW with
  | None =>
      Ok (<[client_ip NEW :=
             {| first_seen := now;
                last_seen := rr_timestamp NEW;
                total_requests := 1;
                blocked_requests := excluded_blocked;
                suspicious_requests := excluded_suspicious;
                reputation_score := 0.5;
                trust_level := "NEUTRAL";
                is_whitelisted := false;
                is_blacklisted := false;
                blacklist_reason := None;
                blacklist_expires_at := None |}]> table)
  | Some old =>
      total ← int4_add (total_requests old) 1;
      blocked ← int4_add (blocked_requests old) excluded_blocked;
      suspicious ← int4_add (suspicious_requests old) excluded_suspicious;
      Ok (<[client_ip NEW :=
             {| first_seen := first_seen old;
                last_seen := rr_timestamp NEW;
                total_requests := total;
                blocked_requests := blocked;
                suspicious_requests := suspicious;
                reputation_score :=
                  reputation_case (float_div_nullif blocked total);
                trust_level := trust_level old;
                is_whitelisted := is_whitelisted old;
                is_blacklisted := is_blacklisted old;
                blacklist_reason := blacklist_reason old;
                blacklist_expires_at := blacklist_expires_at old |}]> table)
  end.

(** [INSERT INTO raw_requests]: the row is stored and the trigger fires;
    an error in the trigger aborts the statement. *)
Definition insert_raw_request (now : timestamp) (NEW : raw_request)
    (d : db) : result (db * uuid) :=
  let '(rows, id) := insert_returning (raw_requests d) NEW in
  rep ← update_ip_rep now NEW (ip_reputation d);
  Ok ({| raw_requests := rows;
         ip_reputation := rep;
         ml_predictions := ml_predictions d;
         owasp_detections := owasp_detections d;
         risk_assessments := risk_assessments d;
         soar_actions := soar_actions d;
         incidents := incidents d |}, id).

(** *** [POST /api/assess] *)

(** [... WHERE request_id=$1 ORDER BY predicted_at DESC LIMIT 1] *)
Definition latest_prediction (request_id : uuid)
    (rows : list ml_prediction) : option ml_prediction :=
  foldl (fun best p =>
           if mp_request_id p =? request_id then
             match best with
             | None => Some p
             | Some b => if predicted_at b <? predicted_at p then Some p
                         else Some b
             end
           else best)
        None rows.

(** [dict(ml)] for a row of that query. *)
Definition ml_dict (p : ml_prediction) : dict :=
  <["anomaly_score" := anomaly_score p]>
    (<["attack_type" := attack_type p]>
       (<["attack_probability" := attack_probability p]> ∅)).

(** [dict(d)] for a row of
    [SELECT owasp_category, severity FROM owasp_detections]. *)
Definition owasp_dict (o : owasp_detection) : dict :=
  <["owasp_category" := PStr (owasp_category o)]>
    (<["severity" := severity o]> ∅).

Record assess_response : Type := {
  success : bool;
  assessment_id : uuid;
  resp_risk_score : Q;
  resp_risk_level : string;
  resp_recommended_action : string;
  resp_requires_validation : bool;
  resp_client_ip : string
}.

Definition assess_risk (cfg : config) (now : timestamp) (d : db)
    (request_id : uuid) : result (db * assess_response) :=
  reraise_as_500 "Risk error"
    (let ml := latest_prediction request_id (ml_predictions d) in
     let owasp :=
       filter (fun o => od_request_id o = request_id) (owasp_detections d) in
     match select_by_id (raw_requests d) request_id with
     | None => Raise (HTTPException 404 "Request not found")
     | Some rr =>
         let ip_rep := ip_reputation d !! client_ip rr in
         let ml_data := match ml with Some p => ml_dict p | None => ∅ end in
         let owasp_data := map owasp_dict owasp in
         let behavioral : dict :=
           match ip_rep with
           | Some rep =>
               <["blocked_ratio" :=
                   PNum (inject_Z (blocked_requests rep) /
                         inject_Z (Z.max (total_requests rep) 1))%Q]>
                 (<["reputation_score" := PNum (reputation_score rep)]> ∅)
           | None => ∅
           end in
         score ← calculate_risk ml_data owasp_data behavioral;
         let decision := decide_action cfg score in
         let '(rows, id) :=
           insert_returning (risk_assessments d)
             {| ra_request_id := request_id;
                assessed_at := now;
                risk_score := score;
                risk_level := level decision;
                ml_score_weight := WEIGHTS_ml;
                owasp_score_weight := WEIGHTS_owasp;
                behavioral_score_weight := WEIGHTS_behavioral;
                recommended_action := action decision;
                automation_level := AUTOMATION_LEVEL cfg |} in
         Ok ({| raw_requests := raw_requests d;
                ip_reputation := ip_reputation d;
                ml_predictions := ml_predictions d;
                owasp_detections := owasp_detections d;
                risk_assessments := rows;
                soar_actions := soar_actions d;
                incidents := incidents d |},
             {| success := true;
                assessment_id := id;
                resp_risk_score := score;
                resp_risk_level := level decision;
                resp_recommended_action := action decision;
                resp_requires_validation := requires_validation decision;
                resp_client_ip := client_ip rr |})
     end).

End RiskEngine.

(** ** The scoring arithmetic on IEEE binary64

    [calculate_risk] once more, on the numbers Python computes with, for
    inputs that are all present and numeric: the anomaly score, the attack
    probability, the largest severity score and the blocked ratio. *)

Module Binary64.
#[local] Set Warnings "-inexact-float".
Local Open Scope float_scope.

(** Python's [min(a, b)] *)
Definition py_min (a b : float) : float :=
  if PrimFloat.ltb b a then b else a.

Definition calculate_risk (anomaly_score attack_probability owasp_score
    blocked_ratio : float) : float :=
  let ml_score := anomaly_score * 0.6 + attack_probability * 0.4 in
  let behavioral_score := py_min (blocked_ratio * 2.0) 1.0 in
  py_min (ml_score * 0.40 + owasp_score * 0.30 + behavioral_score * 0.20) 1.0.

(** [risk_score >= RISK_THRESHOLD_BLOCK] and [>= RISK_THRESHOLD_CAPTCHA],
    with the default thresholds. *)
Definition reaches_block (risk_score : float) : bool :=
  PrimFloat.leb 0.9 risk_score.
Definition reaches_captcha (risk_score : float) : bool :=
  PrimFloat.leb 0.7 risk_score.

End Binary64.

(** ** Python's [re.search], for the syntax [OWASP_PATTERNS] uses

    Text is ASCII: a character is a byte below 128 (for other characters
    Python's [lower], [\s] and [\w] follow Unicode tables that are not
    modelled).  The supported pattern syntax is: literals, [.], [$], [\b],
    [\s], [\d], [\w], escaped punctuation, classes [[...]] and [[^...]]
    without ranges, groups, [|], and the greedy quantifiers [*], [+], [?].
    Anything else makes [compile] fail, as a malformed pattern makes
    [re.compile] raise.  Only whether a match exists is modelled, so the
    order in which alternatives and repetitions are tried is immaterial. *)

Module PyRe.

Inductive class_item : Type :=
  | CChar (c : ascii)
  | CDigit
  | CSpace
  | CWord.

Inductive regex : Type :=
  | Eps
  | Chr (c : ascii)
  | Any
  | Class (negated : bool) (items : list class_item)
  | Boundary
  | EndOfString
  | Seq (r1 r2 : regex)
  | Alt (r1 r2 : regex)
  | Star (r : regex).

(** [ord(c)] *)
Definition ord (c : ascii) : N := N_of_ascii c.

Definition between (lo hi : N) (c : ascii) : bool :=
  ((lo <=? ord c) && (ord c <=? hi))%N.

Definition is_upper : ascii -> bool := between 65 90.
Definition is_lower : ascii -> bool := between 97 122.
Definition is_digit : ascii -> bool := between 48 57.

(** [\s]: tab, newline, vertical tab, form feed, carriage return, the four
    separators 28..31, and space. *)
Definition is_space (c : ascii) : bool :=
  between 9 13 c || between 28 32 c.

(** [\w] *)
Definition is_word (c : ascii) : bool :=
  is_upper c || is_lower c || is_digit c || (ord c =? 95)%N.

Definition ascii_lower (c : ascii) : ascii :=
  if is_upper c then ascii_of_N (ord c + 32) else c.

(** [str.lower()] *)
Definition lower (s : string) : string :=
  string_of_list_ascii (map ascii_lower (list_ascii_of_string s)).

Definition newline : ascii := ascii_of_N 10.

(** Matching one character under [re.IGNORECASE]. *)
Definition same_letter (c x : ascii) : bool :=
  Ascii.eqb (ascii_lower c) (ascii_lower x).

Definition item_matches (x : ascii) (i : class_item) : bool :=
  match i with
  | CChar c => same_letter c x
  | CDigit => is_digit x
  | CSpace => is_space x
  | CWord => is_word x
  end.

Definition is_word_opt (c : option ascii) : bool :=
  match c with
  | Some x => is_word x
  | None => false
  end.

(** [matches r prev s k]: [r] matches a prefix of [s], the character before
    [s] being [prev], and [k] accepts what follows.  A repetition gives up
    an iteration that consumes nothing. *)
Fixpoint matches (r : regex) (prev : option ascii) (s : list ascii)
    (k : option ascii -> list ascii -> bool) {struct r} : bool :=
  match r with
  | Eps => k prev s
  | Chr c =>
      match s with
      | x :: s' => if same_letter c x then k (Some x) s' else false
      | [] => false
      end
  | Any =>
      match s with
      | x :: s' => if negb (Ascii.eqb x newline) then k (Some x) s' else false
      | [] => false
      end
  | Class negated items =>
      match s with
      | x :: s' =>
          if xorb negated (existsb (item_matches x) items)
          then k (Some x) s' else false
      | [] => false
      end
  | Boundary =>
      if xorb (is_word_opt prev) (is_word_opt (head s)) then k prev s
      else false
  | EndOfString =>
      match s with
      | [] => k prev s
      | [x] => if Ascii.eqb x newline then k prev s else false
      | _ => false
      end
  | Seq r1 r2 => matches r1 prev s (fun p s' => matches r2 p s' k)
  | Alt r1 r2 => if matches r1 prev s k then true else matches r2 prev s k
  | Star r' =>
      (fix star (fuel : nat) (prev : option ascii) (s : list ascii) : bool :=
         if k prev s then true
         else
           match fuel with
           | O => false
           | S fuel' =>
               matches r' prev s
                 (fun p s' =>
                    if (length s' <? length s)%nat then star fuel' p s'
                    else false)
           end) (length s) prev s
  end.

(** [re.search]: a match starting at some position. *)
Fixpoint search_from (r : regex) (prev : option ascii) (s : list ascii)
    : bool :=
  matches r prev s (fun _ _ => true) ||
  match s with
  | [] => false
  | x :: s' => search_from r (Some x) s'
  end.

(** *** The pattern parser *)

Definition is_alnum (c : ascii) : bool :=
  is_upper c || is_lower c || is_digit c.

Definition is_quantifier (c : ascii) : bool :=
  (ord c =? 42)%N || (ord c =? 43)%N || (ord c =? 63)%N.

(** An escape [\c] outside a class. *)
Definition escape (c : ascii) : option regex :=
  if (ord c =? 98)%N then Some Boundary
  else if (ord c =? 115)%N then Some (Class false [CSpace])
  else if (ord c =? 100)%N then Some (Class false [CDigit])
  else if (ord c =? 119)%N then Some (Class false [CWord])
  else if is_alnum c then None
  else Some (Chr c).

(** An escape [\c] inside a class. *)
Definition class_escape (c : ascii) : option class_item :=
  if (ord c =? 115)%N then Some CSpace
  else if (ord c =? 100)%N then Some CDigit
  else if (ord c =? 119)%N then Some CWord
  else if is_alnum c then None
  else Some (CChar c).

(** The items of a class, up to the closing bracket. *)
Fixpoint parse_class (s : list ascii)
    : option (list class_item * list ascii) :=
  match s with
  | [] => None
  | c :: rest =>
      if (ord c =? 93)%N then Some ([], rest)
      else if (ord c =? 45)%N then None
      else if (ord c =? 92)%N then
        match rest with
        | e :: rest' =>
            match class_escape e, parse_class rest' with
            | Some i, Some (items, rest'') => Some (i :: items, rest'')
            | _, _ => None
            end
        | [] => None
        end
      else
        match parse_class rest with
        | Some (items, rest') => Some (CChar c :: items, rest')
        | None => None
        end
  end.

(** A quantifier after an atom; a second quantifier is not supported. *)
Definition parse_quantifier (a : regex) (s : list ascii)
    : option (regex * list ascii) :=
  match s with
  | q :: rest =>
      if is_quantifier q then
        match rest with
        | q' :: _ => if is_quantifier q' then None else
            Some (if (ord q =? 42)%N then Star a
                  else if (ord q =? 43)%N then Seq a (Star a)
                  else Alt a Eps, rest)
        | [] =>
            Some (if (ord q =? 42)%N then Star a
                  else if (ord q =? 43)%N then Seq a (Star a)
                  else Alt a Eps, rest)
        end
      else Some (a, s)
  | [] => Some (a, s)
  end.

Fixpoint parse_alt (fuel : nat) (s : list ascii)
    : option (regex * list ascii) :=
  match fuel with
  | O => None
  | S fuel' =>
      match parse_seq fuel' s with
      | Some (r1, c :: rest) =>
          if (ord c =? 124)%N then
            match parse_alt fuel' rest with
            | Some (r2, rest') => Some (Alt r1 r2, rest')
            | None => None
            end
          else Some (r1, c :: rest)
      | other => other
      end
  end
with parse_seq (fuel : nat) (s : list ascii)
    : option (regex * list ascii) :=
  match fuel with
  | O => None
  | S fuel' =>
      match s with
      | [] => Some (Eps, [])
      | c :: _ =>
          if (ord c =? 41)%N || (ord c =? 124)%N then Some (Eps, s)
          else
            match parse_atom fuel' s with
            | Some (a, rest) =>
                match parse_quantifier a rest with
                | Some (a', rest') =>
                    match parse_seq fuel' rest' with
                    | Some (r, rest'') => Some (Seq a' r, rest'')
                    | None => None
                    end
                | None => None
                end
            | None => None
            end
      end
  end
with parse_atom (fuel : nat) (s : list ascii)
    : option (regex * list ascii) :=
  match fuel with
  | O => None
  | S fuel' =>
      match s with
      | [] => None
      | c :: rest =>
          if (ord c =? 40)%N then
            match parse_alt fuel' rest with
            | Some (r, c' :: rest') =>
                if (ord c' =? 41)%N then Some (r, rest') else None
            | _ => None
            end
          else if (ord c =? 91)%N then
            match rest with
            | c' :: rest' =>
                if (ord c' =? 94)%N then
                  match parse_class rest' with
                  | Some (i :: items, rest'') =>
                      Some (Class true (i :: items), rest'')
                  | _ => None
                  end
                else
                  match parse_class rest with
                  | Some (i :: items, rest'') =>
                      Some (Class false (i :: items), rest'')
                  | _ => None
                  end
            | [] => None
            end
          else if (ord c =? 92)%N then
            match rest with
            | e :: rest' =>
                match escape e with
                | Some r => Some (r, rest')
                | None => None
                end
            | [] => None
            end
          else if (ord c =? 46)%N then Some (Any, rest)
          else if (ord c =? 36)%N then Some (EndOfString, rest)
          else if is_quantifier c || (ord c =? 94)%N || (ord c =? 123)%N
          then None
          else Some (Chr c, rest)
      end
  end.

(** [re.compile(pattern, re.IGNORECASE)]; [None] stands for [re.error]. *)
Definition compile (pattern : string) : option regex :=
  let s := list_ascii_of_string pattern in
  match parse_alt (3 * length s + 3) s with
  | Some (r, []) => Some r
  | _ => None
  end.

(** [re.search(pattern, content, re.IGNORECASE)], as a truth value. *)
Definition search (pattern content : string) : result bool :=
  match compile pattern with
  | Some r => Ok (search_from r None (list_ascii_of_string content))
  | None => Raise ReError
  end.

End PyRe.

(** ** The Redis instance shared by the WAF and the SOAR engine

    Both services connect to the same [REDIS_URL].  An entry keeps the
    time-to-live it was written with; the passing of time is not modelled,
    so an entry stays until it is deleted or overwritten.  A service whose
    connection attempts all failed at start-up runs with [redis_client]
    unset, which the code tests before every use.  The keys modelled are
    those of the WAF and of the SOAR engine; the statistics the ingestion
    service keeps under keys of its own ([stats:...]) are left out. *)

Module Redis.

Record entry : Type := {
  value : string;
  ttl_seconds : Z
}.

Definition store := gmap string entry.

(** [SETEX key seconds value], for an expiry Redis accepts (a positive
    number of seconds); Redis answers any other one with an error. *)
Definition setex (key : string) (seconds : Z) (v : string) (s : store)
    : store :=
  <[key := {| value := v; ttl_seconds := seconds |}]> s.

(** [DEL key] *)
Definition del (key : string) (s : store) : store := delete key s.

End Redis.

(** ** waf/main.py *)

Module Waf.

Record pattern_config : Type := {
  code : string;
  severity : string;
  patterns : list string
}.

(** The one-character string holding a double quote. *)
Definition dquote : string := String (ascii_of_N 34) EmptyString.

(** [OWASP_PATTERNS], in the order of the dict literal (a Python dict
    iterates in insertion order). *)
Definition OWASP_PATTERNS : list (string * pattern_config) :=
  [ ("SQL_INJECTION",
     {| code := "A03:2021"; severity := "CRITICAL";
        patterns :=
          [ "(\bUNION\b.*\bSELECT\b)"; "(\bOR\b\s+\d+\s*=\s*\d+)";
            "(';?\s*DROP\s+TABLE)"; "(1'\s*OR\s*'1'\s*=\s*'1)";
            "(\bEXEC\b.*\bxp_cmdshell\b)";
            "(\bINSERT\b.*\bINTO\b.*\bVALUES\b)";
            "(--\s*$)"; "(/\*.*\*/)"; "(\bSLEEP\s*\(\d+\))" ] |});
    ("XSS",
     {| code := "A03:2021"; severity := "HIGH";
        patterns :=
          [ "(<script[^>]*>)"; "(javascript:)"; "(onerror\s*=)";
            "(onload\s*=)"; "(<iframe)"; "(document\.cookie)";
            "(eval\s*\()"; "(alert\s*\()"; "(String\.fromCharCode)" ] |});
    ("PATH_TRAVERSAL",
     {| code := "A01:2021"; severity := "HIGH";
        patterns :=
          [ "(\.\./|\.\.\\)"; "(%2e%2e[/%5c])"; "(\.\.%2f)";
            "(/etc/passwd)"; "(/etc/shadow)"; "(c:\\windows)" ] |});
    ("COMMAND_INJECTION",
     {| code := "A03:2021"; severity := "CRITICAL";
        patterns :=
          [ "(;\s*cat\s+/etc)"; "(\|\s*ls\s+)"; "(`[^`]+`)";
            "(\$\([^)]+\))"; "(&&\s*whoami)"; "(;\s*id\s*;)" ] |});
    ("XXE",
     {| code := "A05:2021"; severity := "HIGH";
        patterns :=
          [ "(<!ENTITY)"; "(<!DOCTYPE.*SYSTEM)";
            "(SYSTEM\s+['\" ++ dquote ++ "]file)" ] |});
    ("SSRF",
     {| code := "A10:2021"; severity := "HIGH";
        patterns :=
          [ "(file://)"; "(gopher://)"; "(dict://)";
            "(localhost|127\.0\.0\.1|0\.0\.0\.0|169\.254\.)" ] |});
    ("SCANNER",
     {| code := "A05:2021"; severity := "MEDIUM";
        patterns :=
          [ "(sqlmap)"; "(nikto)"; "(nmap)"; "(masscan)"; "(acunetix)" ] |})
  ]%string.

Definition SUSPICIOUS_USER_AGENTS : list string :=
  [ "sqlmap"; "nikto"; "nmap"; "masscan"; "acunetix"; "nessus";
    "openvas"; "dirbuster"; "gobuster"; "hydra"; "medusa" ]%string.

(** The parts of the Starlette request [detect_owasp] reads: [str(request.url)]
    (which includes the query string), [request.url.query] (empty when the
    URL has none) and the User-Agent header, if any. *)
Record request : Type := {
  url : string;
  query : string;
  user_agent : option string
}.

(** A detection dict; the key [ua] is present only in the user-agent one. *)
Record detection : Type := {
  type : string;
  det_code : string;
  det_severity : string;
  confidence : Q;
  ua : option string
}.

(** [needle in haystack] on strings. *)
Fixpoint contains (needle haystack : string) : bool :=
  String.prefix needle haystack ||
  match haystack with
  | EmptyString => false
  | String _ rest => contains needle rest
  end.

(** The inner loop over one category: is there a pattern that matches?
    The loop stops at the first one. *)
Fixpoint first_match (patterns : list string) (content : string)
    : result bool :=
  match patterns with
  | [] => Ok false
  | pattern :: rest =>
      found ← PyRe.search pattern content;
      if (found : bool) then Ok true else first_match rest content
  end.

(** The outer loop over the categories. *)
Fixpoint scan_categories (table : list (string * pattern_config))
    (content : string) : result (list detection) :=
  match table with
  | [] => Ok []
  | (attack_type, config) :: rest =>
      found ← first_match (patterns config) content;
      detections ← scan_categories rest content;
      Ok (if (found : bool) then
            {| type := attack_type; det_code := code config;
               det_severity := severity config; confidence := 0.9;
               ua := None |} :: detections
          else detections)
  end.

(** The loop over [SUSPICIOUS_USER_AGENTS]: the first one contained in the
    lower-cased header. *)
Definition scan_user_agent (lowered_ua : string) : list detection :=
  match List.find (fun sus_ua => contains sus_ua lowered_ua)
                  SUSPICIOUS_USER_AGENTS with
  | Some sus_ua =>
      [ {| type := "SCANNER"; det_code := "A05:2021";
           det_severity := "MEDIUM"; confidence := 0.95;
           ua := Some sus_ua |} ]
  | None => []
  end.

Definition detect_owasp (request : request) (body : string)
    : result (list detection) :=
  let content :=
    PyRe.lower (url request ++ " " ++ query request ++ " " ++ body)%string in
  let lowered_ua :=
    PyRe.lower (match user_agent request with Some h => h | None => "" end) in
  detections ← scan_categories OWASP_PATTERNS content;
  Ok (detections ++ scan_user_agent lowered_ua).

(** [block_ip]: [redis_client] tells whether the WAF has a Redis client. *)
Definition block_ip (redis_client : bool) (client_ip reason : string)
    (duration_minutes : Z) (s : Redis.store) : Redis.store :=
  if redis_client then
    Redis.setex ("blocked_ip:" ++ client_ip) (duration_minutes * 60) reason s
  else s.

(** [POST /admin/block-ip]: the handler's effect; it answers 200. *)
Definition admin_block_ip (redis_client : bool) (ip reason : string)
    (duration_minutes : Z) (s : Redis.store) : Redis.store :=
  block_ip redis_client ip reason duration_minutes s.

(** [POST /admin/unblock-ip]: the handler's effect; it answers 200. *)
Definition admin_unblock_ip (redis_client : bool) (ip : string)
    (s : Redis.store) : Redis.store :=
  if redis_client then Redis.del ("blocked_ip:" ++ ip) s else s.

(** Does every pattern of a table compile?  ([re.search] compiles its
    pattern at each call and raises on a malformed one.) *)
Definition compiles (pattern : string) : bool :=
  match PyRe.compile pattern with Some _ => true | None => false end.

Definition table_compiles (table : list (string * pattern_config)) : bool :=
  forallb (fun entry => forallb compiles (patterns (snd entry))) table.

(** How many detections of a list carry a given category. *)
Definition count_type (category : string) (detections : list detection)
    : nat :=
  length (List.filter (fun d => String.eqb (type d) category) detections).

End Waf.

(** ** Redis commands of the WAF's request path

    [GET], [INCR] and [EXPIRE] on the shared store.  A counter is the
    decimal string Redis keeps: [INCR] accepts exactly the canonical decimal
    form of a signed 64-bit integer and fails on anything else, and a key
    it creates has no expiry (time-to-live -1) until [EXPIRE] sets one. *)

Module RedisCmd.

Definition int64_min : Z := -9223372036854775808.
Definition int64_max : Z := 9223372036854775807.

Definition print_int (z : Z) : string := NilZero.string_of_int (Z.to_int z).

Definition parse_int (s : string) : option Z :=
  match NilZero.int_of_string s with
  | Some d =>
      let z := Z.of_int d in
      if String.eqb (print_int z) s && (int64_min <=? z) && (z <=? int64_max)
      then Some z else None
  | None => None
  end.

(** [GET key] *)
Definition get (key : string) (s : Redis.store) : option string :=
  match s !! key with
  | Some e => Some (Redis.value e)
  | None => None
  end.

(** [INCR key]; [None] stands for the error reply. *)
Definition incr (key : string) (s : Redis.store) : option (Z * Redis.store) :=
  match s !! key with
  | None =>
      Some (1, <[key := {| Redis.value := "1"; Redis.ttl_seconds := -1 |}]> s)
  | Some e =>
      match parse_int (Redis.value e) with
      | Some n =>
          if n <? int64_max then
            Some (n + 1,
                  <[key := {| Redis.value := print_int (n + 1);
                              Redis.ttl_seconds := Redis.ttl_seconds e |}]> s)
          else None
      | None => None
      end
  end.

(** [EXPIRE key seconds] *)
Definition expire (key : string) (seconds : Z) (s : Redis.store)
    : Redis.store :=
  match s !! key with
  | Some e =>
      <[key := {| Redis.value := Redis.value e;
                  Redis.ttl_seconds := seconds |}]> s
  | None => s
  end.

End RedisCmd.

(** ** waf/main.py: the request path *)

Module WafMiddleware.
Import Waf.

(** The module globals: [WAF_MODE], [RATE_LIMIT_PER_MINUTE], and whether the
    start-up loop obtained a Redis client. *)
Record config : Type := {
  WAF_MODE : string;
  RATE_LIMIT_PER_MINUTE : Z;
  redis_client : bool
}.

Definition default_config : config :=
  {| WAF_MODE := "audit"; RATE_LIMIT_PER_MINUTE := 100;
     redis_client := true |}.

(** [is_ip_blocked] *)
Definition is_ip_blocked (cfg : config) (client_ip : string)
    (s : Redis.store) : bool * option string :=
  if negb (redis_client cfg) then (false, None)
  else
    let reason := RedisCmd.get ("blocked_ip:" ++ client_ip) s in
    (match reason with Some _ => true | None => false end, reason).

(** [check_rate_limit]: an error reply of Redis is caught and counts as
    "allowed". *)
Definition check_rate_limit (cfg : config) (client_ip : string)
    (s : Redis.store) : bool * Z * Redis.store :=
  if negb (redis_client cfg) then (true, 0, s)
  else
    let key := ("ratelimit:" ++ client_ip)%string in
    match RedisCmd.incr key s with
    | Some (current, s') =>
        let s'' := if current =? 1 then RedisCmd.expire key 60 s' else s' in
        (current <=? RATE_LIMIT_PER_MINUTE cfg, current, s'')
    | None => (true, 0, s)
    end.

(** [s.split(",")[0]]: what precedes the first comma. *)
Fixpoint before_comma (s : list ascii) : list ascii :=
  match s with
  | [] => []
  | c :: rest =>
      if (PyRe.ord c =? 44)%N then [] else c :: before_comma rest
  end.

(** [c.isspace()] for a character of a header value.  Header values are
    decoded as Latin-1, one character per byte: beside the ASCII white space
    there are the next-line character and the no-break space. *)
Definition isspace (c : ascii) : bool :=
  PyRe.is_space c || (PyRe.ord c =? 133)%N || (PyRe.ord c =? 160)%N.

Fixpoint lstrip (s : list ascii) : list ascii :=
  match s with
  | [] => []
  | c :: rest => if isspace c then lstrip rest else s
  end.

(** [s.strip()] *)
Definition strip (s : list ascii) : list ascii :=
  rev (lstrip (rev (lstrip s))).

(** What the middleware reads of a request: the path, the parts
    [detect_owasp] reads, the X-Forwarded-For header if any, the peer
    address, and the decoded body. *)
Record http_request : Type := {
  path : string;
  target : request;
  x_forwarded_for : option string;
  client_host : string;
  body : string
}.

(** [request.headers.get("X-Forwarded-For",
     request.client.host).split(",")[0].strip()] *)
Definition client_ip_of (req : http_request) : string :=
  let header :=
    match x_forwarded_for req with
    | Some h => h
    | None => client_host req
    end in
  string_of_list_ascii (strip (before_comma (list_ascii_of_string header))).

(** The payload handed to [send_to_ingestion]; a key the payload leaves out
    is [None]. *)
Record ingest_event : Type := {
  ev_client_ip : string;
  ev_is_blocked : bool;
  ev_is_suspicious : option bool;
  ev_block_reason : option string;
  ev_waf_rules_triggered : list string;
  ev_owasp_detections : list detection;
  ev_status_code : option Z
}.

(** The response of the middleware: one of its three own answers, or the
    answer of the application behind it. *)
Inductive response : Type :=
  | AccessDenied
  | TooManyRequests
  | RequestBlocked (rules : list string)
  | Forwarded (upstream_status : Z).

Definition status_code (r : response) : Z :=
  match r with
  | AccessDenied => 403
  | TooManyRequests => 429
  | RequestBlocked _ => 403
  | Forwarded upstream_status => upstream_status
  end.

(** The shared store and the payloads handed to [send_to_ingestion] so far,
    oldest first. *)
Record state : Type := {
  redis : Redis.store;
  sent : list ingest_event
}.

Definition in_block_or_strict (cfg : config) : bool :=
  String.eqb (WAF_MODE cfg) "block" || String.eqb (WAF_MODE cfg) "strict".

(** [waf_middleware]; [upstream_status] is the status of the response
    [call_next] would give. *)
Definition waf_middleware (cfg : config) (upstream_status : Z)
    (req : http_request) (st : state) : result (response * state) :=
  if String.eqb (path req) "/health" then Ok (Forwarded upstream_status, st)
  else
    let client_ip := client_ip_of req in
    let '(blocked, block_reason) := is_ip_blocked cfg client_ip (redis st) in
    if blocked then
      Ok (AccessDenied,
          {| redis := redis st;
             sent := sent st ++
               [{| ev_client_ip := client_ip;
                   ev_is_blocked := true;
                   ev_is_suspicious := None;
                   ev_block_reason := block_reason;
                   ev_waf_rules_triggered := ["IP_BLOCKED"%string];
                   ev_owasp_detections := [];
                   ev_status_code := None |}] |})
    else
      let '(rate_ok, count, s1) := check_rate_limit cfg client_ip (redis st) in
      if negb rate_ok && in_block_or_strict cfg then
        Ok (TooManyRequests,
            {| redis := block_ip (redis_client cfg) client_ip
                          "Rate limit exceeded" 15 s1;
               sent := sent st |})
      else
        detections ← detect_owasp (target req) (body req);
        let is_suspicious := (0 <? length detections)%nat in
        let waf_rules := map type detections in
        let critical :=
          existsb (fun d => String.eqb (det_severity d) "CRITICAL")
                  detections in
        let is_blocked_now :=
          is_suspicious && in_block_or_strict cfg &&
          (critical || String.eqb (WAF_MODE cfg) "strict") in
        if is_blocked_now then
          Ok (RequestBlocked waf_rules,
              {| redis := block_ip (redis_client cfg) client_ip
                            ("OWASP: " ++
                             match waf_rules with
                             | rule :: _ => rule
                             | [] => ""
                             end) 120 s1;
                 sent := sent st ++
                   [{| ev_client_ip := client_ip;
                       ev_is_blocked := true;
                       ev_is_suspicious := Some true;
                       ev_block_reason := None;
                       ev_waf_rules_triggered := waf_rules;
                       ev_owasp_detections := detections;
                       ev_status_code := None |}] |})
        else
          Ok (Forwarded upstream_status,
              {| redis := s1;
                 sent := sent st ++
                   [{| ev_client_ip := client_ip;
                       ev_is_blocked := false;
                       ev_is_suspicious := Some is_suspicious;
                       ev_block_reason := None;
                       ev_waf_rules_triggered := waf_rules;
                       ev_owasp_detections := detections;
                       ev_status_code := Some upstream_status |}] |}).

(** The store after [n] calls of [check_rate_limit] for one address. *)
Fixpoint after_checks (cfg : config) (client_ip : string) (n : nat)
    (s : Redis.store) : Redis.store :=
  match n with
  | O => s
  | S n' =>
      snd (check_rate_limit cfg client_ip (after_checks cfg client_ip n' s))
  end.

(** The state after a request, or the state as it was if the call raised. *)
Definition after_request (cfg : config) (upstream_status : Z)
    (req : http_request) (st : state) : state :=
  match waf_middleware cfg upstream_status req st with
  | Ok (_, st') => st'
  | Raise _ => st
  end.
(** The response of a call, if it returned. *)
Definition response_of (r : result (response * state)) : option response :=
  match r with
  | Ok (resp, _) => Some resp
  | Raise _ => None
  end.

End WafMiddleware.

(** ** soar/main.py *)

Module Soar.
Import Schema.

(** The module constants read from the environment, and whether the
    start-up loop obtained a Redis client. *)
Record config : Type := {
  ENABLE_AUTO_BLOCK : bool;
  ENABLE_CAPTCHA : bool;
  BLOCK_DURATION : Z;
  redis_client : bool
}.

Definition default_config : config :=
  {| ENABLE_AUTO_BLOCK := true; ENABLE_CAPTCHA := true;
     BLOCK_DURATION := 60; redis_client := true |}.

(** The WAF as the SOAR engine meets it: the WAF's module globals, and what
    decides how a request of the SOAR engine arrives there.  [failure] is the
    text of the exception the HTTP client raises (connection refused,
    timeout), if it raises; a request lost to an exception is taken not to
    have reached the WAF.  [origin] is the scheme and authority of
    [WAF_API_URL]; [urlencode] is the client's encoding of [params] into a
    query string, which the WAF's framework decodes back for the handler;
    [agent] is the User-Agent header the client sends; [forwarded_for] is
    the X-Forwarded-For header a proxy on the way adds, if any; [peer] is
    the address the connection comes from. *)
Record waf : Type := {
  waf_config : WafMiddleware.config;
  failure : option string;
  origin : string;
  urlencode : list (string * string) -> string;
  agent : option string;
  forwarded_for : option string;
  peer : string
}.

Definition waf_redis_client (w : waf) : bool :=
  WafMiddleware.redis_client (waf_config w).

(** What the services share and change. *)
Record world : Type := {
  database : db;
  store : Redis.store
}.

(** [client.post(WAF_API_URL + path, params=params)] as the WAF's middleware
    reads it; the request has no body. *)
Definition request_for (w : waf) (path : string)
    (params : list (string * string)) : WafMiddleware.http_request :=
  let query := urlencode w params in
  {| WafMiddleware.path := path;
     WafMiddleware.target :=
       {| Waf.url := origin w ++ path ++ "?" ++ query;
          Waf.query := query;
          Waf.user_agent := agent w |};
     WafMiddleware.x_forwarded_for := forwarded_for w;
     WafMiddleware.client_host := peer w;
     WafMiddleware.body := "" |}.

(** The address the WAF takes the requests of the SOAR engine to come
    from. *)
Definition caller (w : waf) : string :=
  WafMiddleware.client_ip_of (request_for w "" []).

(** One POST to an admin endpoint of the WAF.  [waf_middleware] wraps every
    route of the WAF, the admin ones included (only /health is let through
    unseen): the request is checked against the deny list, counted against
    the rate limit of its address and scanned like any other.  If the
    middleware lets it through, the handler runs ([handler] is its effect on
    the store) and answers 200; otherwise the answer is the middleware's own
    403 or 429, and the handler has not run.  An exception inside the
    middleware, after the rate-limit check, would be answered 500 by the
    framework.  The payload the middleware hands to the ingestion service
    is not followed. *)
Definition post (w : waf) (path : string) (params : list (string * string))
    (handler : Redis.store -> Redis.store) (s : Redis.store)
    : result Z * Redis.store :=
  match failure w with
  | Some error => (Raise (ConnectError error), s)
  | None =>
      match WafMiddleware.waf_middleware (waf_config w) 200
              (request_for w path params)
              {| WafMiddleware.redis := s; WafMiddleware.sent := [] |} with
      | Ok (WafMiddleware.Forwarded status_code, st) =>
          (Ok status_code, handler (WafMiddleware.redis st))
      | Ok (response, st) =>
          (Ok (WafMiddleware.status_code response), WafMiddleware.redis st)
      | Raise _ =>
          (Ok 500,
           (WafMiddleware.check_rate_limit (waf_config w) (caller w) s).2)
      end
  end.

(** [client.post(WAF_API_URL/admin/block-ip, params=...)] *)
Definition post_block_ip (w : waf) (ip reason : string) (duration_minutes : Z)
    (s : Redis.store) : result Z * Redis.store :=
  post w "/admin/block-ip"
    [("ip", ip); ("reason", reason);
     ("duration_minutes", pretty duration_minutes)]%string
    (Waf.admin_block_ip (waf_redis_client w) ip reason duration_minutes) s.

(** [client.post(WAF_API_URL/admin/unblock-ip, params=...)] *)
Definition post_unblock_ip (w : waf) (ip : string) (s : Redis.store)
    : result Z * Redis.store :=
  post w "/admin/unblock-ip" [("ip", ip)]%string
    (Waf.admin_unblock_ip (waf_redis_client w) ip) s.

(** The dict [execute_action] returns. *)
Record action_result : Type := {
  executed : bool;
  message : string
}.

Definition execute_action (cfg : config) (w : waf) (action_type : string)
    (target_ip : string) (duration_minutes : Z) (s : Redis.store)
    : action_result * Redis.store :=
  if String.eqb action_type "BLOCK_IP" && ENABLE_AUTO_BLOCK cfg then
    match post_block_ip w target_ip "Auto-blocked by SOAR" duration_minutes s
    with
    | (Ok status_code, s') =>
        if status_code =? 200 then
          ({| executed := true;
              message := "IP " ++ target_ip ++ " blocked for " ++
                         pretty duration_minutes ++ "min" |},
           if redis_client cfg then
             Redis.setex ("blocked_ip:" ++ target_ip) (duration_minutes * 60)
                         "SOAR_AUTO_BLOCK" s'
           else s')
        else
          ({| executed := false;
              message := "WAF returned " ++ pretty status_code |}, s')
    | (Raise (ConnectError error), s') =>
        ({| executed := false; message := "WAF unreachable: " ++ error |}, s')
    | (Raise _, s') =>
        ({| executed := false; message := "WAF unreachable: " |}, s')
    end
  else if String.eqb action_type "CAPTCHA" && ENABLE_CAPTCHA cfg then
    ({| executed := true;
        message := "CAPTCHA required for " ++ target_ip |},
     if redis_client cfg then
       Redis.setex ("require_captcha:" ++ target_ip) (duration_minutes * 60)
                   "1" s
     else s)
  else if String.eqb action_type "RATE_LIMIT" then
    ({| executed := true;
        message := "Strict rate limit (10/min) applied to " ++ target_ip |},
     if redis_client cfg then
       Redis.setex ("rate_limit_strict:" ++ target_ip) (duration_minutes * 60)
                   "10" s
     else s)
  else if String.eqb action_type "ALERT_ONLY" then
    ({| executed := true;
        message := "Alert logged — no blocking action" |}, s)
  else
    ({| executed := false; message := "Unknown action: " ++ action_type |}, s).

(** [ExecuteRequest] *)
Record ExecuteRequest : Type := {
  req_risk_assessment_id : uuid;
  req_action_type : option string
}.

Record execute_response : Type := {
  success : bool;
  action_id : uuid;
  resp_action_type : string;
  resp_target_ip : string;
  resp_executed : bool;
  resp_message : string;
  incident_id : option uuid
}.

(** [SELECT ra.*, rr.client_ip FROM risk_assessments ra
     JOIN raw_requests rr ON ra.request_id = rr.id WHERE ra.id = $1] *)
Definition fetch_assessment (d : db) (id : uuid)
    : option (risk_assessment * string) :=
  match select_by_id (risk_assessments d) id with
  | Some ra =>
      match select_by_id (raw_requests d) (ra_request_id ra) with
      | Some rr => Some (ra, client_ip rr)
      | None => None
      end
  | None => None
  end.

(** [req.action_type or assessment["recommended_action"]] *)
Definition chosen_action (req : ExecuteRequest) (ra : risk_assessment)
    : string :=
  match req_action_type req with
  | Some a => if String.eqb a "" then recommended_action ra else a
  | None => recommended_action ra
  end.

Definition with_incidents (d : db) (rows : list incident) : db :=
  {| raw_requests := raw_requests d;
     ip_reputation := ip_reputation d;
     ml_predictions := ml_predictions d;
     owasp_detections := owasp_detections d;
     risk_assessments := risk_assessments d;
     soar_actions := soar_actions d;
     incidents := rows |}.

Definition with_soar_actions (d : db) (rows : list soar_action) : db :=
  {| raw_requests := raw_requests d;
     ip_reputation := ip_reputation d;
     ml_predictions := ml_predictions d;
     owasp_detections := owasp_detections d;
     risk_assessments := risk_assessments d;
     soar_actions := rows;
     incidents := incidents d |}.

(** [POST /api/execute].  The two INSERTs are modelled for values their
    columns take: an action type that fits VARCHAR(50), a duration that is a
    32-bit integer.  (With another value the INSERT into [soar_actions]
    raises after the action was carried out.) *)
Definition execute_soar (cfg : config) (w : waf) (now : timestamp)
    (req : ExecuteRequest) (st : world) : result (world * execute_response) :=
  reraise_as_500 "SOAR error"
    (match fetch_assessment (database st) (req_risk_assessment_id req) with
     | None => Raise (HTTPException 404 "Risk assessment not found")
     | Some (assessment, target_ip) =>
         let action_type := chosen_action req assessment in
         let risk_score := risk_score assessment in
         let duration :=
           if Qgeb risk_score 0.9 then BLOCK_DURATION cfg
           else if Qgeb risk_score 0.7 then 30 else 15 in
         let '(result, s') :=
           execute_action cfg w action_type target_ip duration (store st) in
         let '(d1, incident_id) :=
           if Qgeb risk_score 0.8 then
             let '(rows, id) :=
               insert_returning (incidents (database st))
                 {| incident_type := recommended_action assessment;
                    inc_severity :=
                      if Qgeb risk_score 0.9 then "CRITICAL" else "HIGH";
                    status :=
                      if negb (executed result) then "OPEN"
                      else "INVESTIGATING";
                    source_ip := target_ip;
                    total_requests_involved := 1;
                    blocked_requests_count := 1 |} in
             (with_incidents (database st) rows, Some id)
           else (database st, None) in
         let '(rows, action_id) :=
           insert_returning (soar_actions d1)
             {| risk_assessment_id := Some (req_risk_assessment_id req);
                executed_at := Some now;
                action_type := action_type;
                action_status :=
                  if executed result then "EXECUTED" else "FAILED";
                target_ip := target_ip;
                duration_minutes := duration;
                execution_result := message result;
                rollback_at := None;
                rollback_reason := None |} in
         Ok ({| database := with_soar_actions d1 rows; store := s' |},
             {| success := true;
                action_id := action_id;
                resp_action_type := action_type;
                resp_target_ip := target_ip;
                resp_executed := executed result;
                resp_message := message result;
                incident_id := incident_id |})
     end).

(** [IncidentRequest] *)
Record IncidentRequest : Type := {
  req_incident_type : string;
  req_severity : string;
  req_source_ip : string
}.

(** [POST /api/incidents] *)
Definition create_incident (req : IncidentRequest) (st : world)
    : world * uuid :=
  let '(rows, id) :=
    insert_returning (incidents (database st))
      {| incident_type := req_incident_type req;
         inc_severity := req_severity req;
         status := "OPEN";
         source_ip := req_source_ip req;
         total_requests_involved := 1;
         blocked_requests_count := 0 |} in
  ({| database := with_incidents (database st) rows; store := store st |},
   id).

(** [UPDATE soar_actions SET rollback_at=$1, rollback_reason=$2 WHERE id=$3] *)
Definition mark_rolled_back (now : timestamp) (a : soar_action)
    : soar_action :=
  {| risk_assessment_id := risk_assessment_id a;
     executed_at := executed_at a;
     action_type := action_type a;
     action_status := action_status a;
     target_ip := target_ip a;
     duration_minutes := duration_minutes a;
     execution_result := execution_result a;
     rollback_at := Some now;
     rollback_reason := Some "Manual rollback" |}.

Definition update_by_id {A} (table : list A) (id : uuid) (f : A -> A)
    : list A :=
  if id <? 0 then table else alter f (Z.to_nat id) table.

Record rollback_response : Type := {
  rb_success : bool;
  rb_message : string
}.

(** [POST /api/rollback/{action_id}] *)
Definition rollback (cfg : config) (w : waf) (now : timestamp)
    (action_id : uuid) (st : world) : result (world * rollback_response) :=
  match select_by_id (soar_actions (database st)) action_id with
  | None => Raise (HTTPException 404 "Action not found")
  | Some action =>
      let s' :=
        if String.eqb (action_type action) "BLOCK_IP" then
          snd (post_unblock_ip w (target_ip action) (store st))
        else if (String.eqb (action_type action) "RATE_LIMIT" ||
                 String.eqb (action_type action) "CAPTCHA") &&
                redis_client cfg then
          let key :=
            ((if String.eqb (action_type action) "RATE_LIMIT"
              then "rate_limit_strict" else "require_captcha") ++
             ":" ++ target_ip action)%string in
          Redis.del key (store st)
        else store st in
      Ok ({| database :=
               with_soar_actions (database st)
                 (update_by_id (soar_actions (database st)) action_id
                    (mark_rolled_back now));
             store := s' |},
          {| rb_success := true;
             rb_message := "Action " ++ pretty action_id ++ " rolled back" |})
  end.

(** The duration [execute_soar] derives from the risk score. *)
Definition duration_for (cfg : config) (score : Q) : Z :=
  if Qgeb score 0.9 then BLOCK_DURATION cfg
  else if Qgeb score 0.7 then 30 else 15.

(** The world after [execute_soar], or the world as it was if it raised. *)
Definition after_execute (cfg : config) (w : waf) (now : timestamp)
    (req : ExecuteRequest) (st : world) : world :=
  match execute_soar cfg w now req st with
  | Ok (st', _) => st'
  | Raise _ => st
  end.



(** What the POST of a BLOCK_IP action comes to for the SOAR engine: the
    exception of the client, or the status of the answer. *)
Definition block_reply (w : waf) (ip : string) (duration_minutes : Z)
    (s : Redis.store) : result Z :=
  (post_block_ip w ip "Auto-blocked by SOAR" duration_minutes s).1.



End Soar.

(** ** admin-console/backend/main.py: the statements on [ip_reputation]

    [block_ip], [unblock_ip] and [whitelist_ip] first call the WAF (or not)
    and then run one statement on [ip_reputation]; that statement is what is
    modelled here.  Columns an INSERT does not name take the defaults of the
    table definition in risk-engine/main.py. *)

Module AdminConsole.
Import Schema.

(** [INSERT INTO ip_reputation (ip_address, is_blacklisted, blacklist_reason,
     trust_level) VALUES ($1, true, $2, 'MALICIOUS')
     ON CONFLICT (ip_address) DO UPDATE SET is_blacklisted=true,
     blacklist_reason=$2, trust_level='MALICIOUS'] *)
Definition block_ip (now : timestamp) (ip reason : string)
    (table : gmap string ip_reputation_row) : gmap string ip_reputation_row :=
  match table !! ip with
  | None =>
      <[ip := {| first_seen := now;
                 last_seen := now;
                 total_requests := 0;
                 blocked_requests := 0;
                 suspicious_requests := 0;
                 reputation_score := 0.5;
                 trust_level := "MALICIOUS";
                 is_whitelisted := false;
                 is_blacklisted := true;
                 blacklist_reason := Some reason;
                 blacklist_expires_at := None |}]> table
  | Some old =>
      <[ip := {| first_seen := first_seen old;
                 last_seen := last_seen old;
                 total_requests := total_requests old;
                 blocked_requests := blocked_requests old;
                 suspicious_requests := suspicious_requests old;
                 reputation_score := reputation_score old;
                 trust_level := "MALICIOUS";
                 is_whitelisted := is_whitelisted old;
                 is_blacklisted := true;
                 blacklist_reason := Some reason;
                 blacklist_expires_at := blacklist_expires_at old |}]> table
  end.

(** [UPDATE ip_reputation SET is_blacklisted=false WHERE ip_address=$1] *)
Definition unblock_ip (ip : string)
    (table : gmap string ip_reputation_row) : gmap string ip_reputation_row :=
  match table !! ip with
  | None => table
  | Some old =>
      <[ip := {| first_seen := first_seen old;
                 last_seen := last_seen old;
                 total_requests := total_requests old;
                 blocked_requests := blocked_requests old;
                 suspicious_requests := suspicious_requests old;
                 reputation_score := reputation_score old;
                 trust_level := trust_level old;
                 is_whitelisted := is_whitelisted old;
                 is_blacklisted := false;
                 blacklist_reason := blacklist_reason old;
                 blacklist_expires_at := blacklist_expires_at old |}]> table
  end.

(** [INSERT INTO ip_reputation (ip_address, is_whitelisted, trust_level,
     reputation_score) VALUES ($1, true, 'TRUSTED', 1.0)
     ON CONFLICT (ip_address) DO UPDATE SET is_whitelisted=true,
     trust_level='TRUSTED', reputation_score=1.0] *)
Definition whitelist_ip (now : timestamp) (ip : string)
    (table : gmap string ip_reputation_row) : gmap string ip_reputation_row :=
  match table !! ip with
  | None =>
      <[ip := {| first_seen := now;
                 last_seen := now;
                 total_requests := 0;
                 blocked_requests := 0;
                 suspicious_requests := 0;
                 reputation_score := 1.0;
                 trust_level := "TRUSTED";
                 is_whitelisted := true;
                 is_blacklisted := false;
                 blacklist_reason := None;
                 blacklist_expires_at := None |}]> table
  | Some old =>
      <[ip := {| first_seen := first_seen old;
                 last_seen := last_seen old;
                 total_requests := total_requests old;
                 blocked_requests := blocked_requests old;
                 suspicious_requests := suspicious_requests old;
                 reputation_score := 1.0;
                 trust_level := "TRUSTED";
                 is_whitelisted := true;
                 is_blacklisted := is_blacklisted old;
                 blacklist_reason := blacklist_reason old;
                 blacklist_expires_at := blacklist_expires_at old |}]> table
  end.

End AdminConsole.

(** ** Histories of the [ip_reputation] table

    The table is written by the trigger and by the three admin statements,
    and by nothing else in the repository.  A statement that raises is
    rolled back and leaves the table as it was. *)

Module Reputation.
Import Schema.

Inductive event : Type :=
  | Observe (now : timestamp) (NEW : raw_request)
  | AdminBlock (now : timestamp) (ip reason : string)
  | AdminUnblock (ip : string)
  | AdminWhitelist (now : timestamp) (ip : string).

Definition step (table : gmap string ip_reputation_row) (e : event)
    : gmap string ip_reputation_row :=
  match e with
  | Observe now NEW =>
      match RiskEngine.update_ip_rep now NEW table with
      | Ok table' => table'
      | Raise _ => table
      end
  | AdminBlock now ip reason => AdminConsole.block_ip now ip reason table
  | AdminUnblock ip => AdminConsole.unblock_ip ip table
  | AdminWhitelist now ip => AdminConsole.whitelist_ip now ip table
  end.

Definition run (history : list event) : gmap string ip_reputation_row :=
  foldl step ∅ history.

Definition reachable (table : gmap string ip_reputation_row) : Prop :=
  exists history, run history = table.

(** The blocked/total ratio of a stored row, as a rational. *)
Definition blocked_ratio (row : ip_reputation_row) : Q :=
  (inject_Z (blocked_requests row) / inject_Z (total_requests row))%Q.

(** Every stored row of a reachable table has sound counters. *)
Definition counters_ok (row : ip_reputation_row) : Prop :=
  0 <= blocked_requests row <= total_requests row /\
  0 <= suspicious_requests row <= total_requests row /\
  total_requests row <= int4_max.

Definition table_ok (table : gmap string ip_reputation_row) : Prop :=
  forall ip row, table !! ip = Some row -> counters_ok row.

(** Sample traffic of one source, used to run the trigger on. *)
Definition probe_ip : string := "203.0.113.7".
Definition blocked_hit (ts : timestamp) : raw_request :=
  {| rr_timestamp := ts; client_ip := probe_ip;
     is_blocked := true; is_suspicious := true |}.
Definition clean_hit (ts : timestamp) : raw_request :=
  {| rr_timestamp := ts; client_ip := probe_ip;
     is_blocked := false; is_suspicious := false |}.


(** The row [whitelist_ip] creates for a source not seen before. *)
Definition whitelisted_row : ip_reputation_row :=
  {| first_seen := 0; last_seen := 0;
     total_requests := 0; blocked_requests := 0; suspicious_requests := 0;
     reputation_score := 1.0; trust_level := "TRUSTED";
     is_whitelisted := true; is_blacklisted := false;
     blacklist_reason := None; blacklist_expires_at := None |}.

End Reputation.

(** ** Sample inputs *)

Module Samples.
Import Schema.

(** The inputs of the spec's first scenario, as [assess_risk] builds them
    from the rows it reads. *)
Definition scenario_ml : dict :=
  <["anomaly_score" := PNum 0.9]>
    (<["attack_type" := PStr "SQL_INJECTION"]>
       (<["attack_probability" := PNum 0.8]> ∅)).

Definition scenario_detection : dict :=
  <["owasp_category" := PStr "SQL_INJECTION"]>
    (<["severity" := PStr "CRITICAL"]> ∅).

Definition scenario_behavioral : dict :=
  <["blocked_ratio" := PNum 0.6]> (<["reputation_score" := PNum 0.1]> ∅).

(** The largest inputs: every component at its maximum. *)
Definition max_ml : dict :=
  <["anomaly_score" := PNum 1.0]> (<["attack_probability" := PNum 1.0]> ∅).
Definition max_behavioral : dict := <["blocked_ratio" := PNum 1.0]> ∅.

(** A database holding one request from a source seen twice and blocked
    once, one CRITICAL detection for it and no ML prediction. *)
Definition db_without_prediction : db :=
  {| raw_requests :=
       [{| rr_timestamp := 10; client_ip := "198.51.100.4";
           is_blocked := true; is_suspicious := true |}];
     ip_reputation :=
       <["198.51.100.4" :=
           {| first_seen := 5; last_seen := 10;
              total_requests := 2; blocked_requests := 1;
              suspicious_requests := 1; reputation_score := 0.3;
              trust_level := "NEUTRAL";
              is_whitelisted := false; is_blacklisted := false;
              blacklist_reason := None; blacklist_expires_at := None |}]> ∅;
     ml_predictions := [];
     owasp_detections :=
       [{| od_request_id := 0; owasp_category := "SQL_INJECTION";
           severity := PStr "CRITICAL" |}];
     risk_assessments := [];
     soar_actions := [];
     incidents := [] |}.

(** A request for a path that mentions sqlmap, sent by sqlmap. *)
Definition scanner_probe : Waf.request :=
  {| Waf.url := "http://shop.example/download/sqlmap";
     Waf.query := "";
     Waf.user_agent := Some "sqlmap/1.7.2#stable (https://sqlmap.org)" |}.

(** One source with two assessed requests, nothing enforced yet; an
    operator's request to block on the first assessment, and a request to
    carry out what the second assessment recommends. *)
Definition first_assessment : risk_assessment :=
  {| ra_request_id := 0; assessed_at := 20;
     risk_score := 0.844; risk_level := "HIGH";
     ml_score_weight := 0.4; owasp_score_weight := 0.3;
     behavioral_score_weight := 0.2;
     recommended_action := "CAPTCHA";
     automation_level := "semi-auto" |}.

Definition sample_world : Soar.world :=
  {| Soar.database :=
       {| raw_requests :=
            [{| rr_timestamp := 10; client_ip := "203.0.113.9";
                is_blocked := false; is_suspicious := true |};
             {| rr_timestamp := 30; client_ip := "203.0.113.9";
                is_blocked := false; is_suspicious := true |}];
          ip_reputation := ∅;
          ml_predictions := [];
          owasp_detections := [];
          risk_assessments :=
            [first_assessment;
             {| ra_request_id := 1; assessed_at := 40;
                risk_score := 0.9; risk_level := "CRITICAL";
                ml_score_weight := 0.4; owasp_score_weight := 0.3;
                behavioral_score_weight := 0.2;
                recommended_action := "BLOCK_IP";
                automation_level := "semi-auto" |}];
          soar_actions := [];
          incidents := [] |};
     Soar.store := ∅ |}.

Definition block_request : Soar.ExecuteRequest :=
  {| Soar.req_risk_assessment_id := 0;
     Soar.req_action_type := Some "BLOCK_IP" |}.
Definition next_request : Soar.ExecuteRequest :=
  {| Soar.req_risk_assessment_id := 1; Soar.req_action_type := None |}.

(** The query string of parameters whose keys and values hold nothing to
    escape but spaces, written [+]. *)
Fixpoint plus_for_space (s : string) : string :=
  match s with
  | EmptyString => EmptyString
  | String c rest =>
      String (if Ascii.eqb c " " then "+"%char else c) (plus_for_space rest)
  end.

Fixpoint query_string (params : list (string * string)) : string :=
  match params with
  | [] => ""
  | (k, v) :: rest =>
      (k ++ "=" ++ plus_for_space v ++
       match rest with
       | [] => ""
       | _ :: _ => "&" ++ query_string rest
       end)%string
  end.

(** The WAF in its default mode, reached directly by the SOAR engine at
    172.18.0.7; the same WAF refusing connections; and the WAF in block
    mode. *)
Definition waf_up : Soar.waf :=
  {| Soar.waf_config := WafMiddleware.default_config;
     Soar.failure := None;
     Soar.origin := "http://waf:8080";
     Soar.urlencode := query_string;
     Soar.agent := Some "python-httpx/0.27.0";
     Soar.forwarded_for := None;
     Soar.peer := "172.18.0.7" |}.


End Samples.

(** ** Pattern texts *)

Module Texts.
Import PyRe.

(** The finitely many texts a pattern made of literals, groups and [|]
    stands for; [None] for a pattern with any other operator. *)
Fixpoint texts (r : regex) : option (list (list ascii)) :=
  match r with
  | Eps => Some [[]]
  | Chr c => Some [[c]]
  | Seq r1 r2 =>
      match texts r1, texts r2 with
      | Some L1, Some L2 =>
          Some (flat_map (fun l1 => map (app l1) L2) L1)
      | _, _ => None
      end
  | Alt r1 r2 =>
      match texts r1, texts r2 with
      | Some L1, Some L2 => Some (L1 ++ L2)
      | _, _ => None
      end
  | _ => None
  end.

(** Reading the text [l] off the front of [s], letter case ignored: what
    is left of [s] and the last character read ([prev] if none). *)
Fixpoint eat (l s : list ascii) (prev : option ascii)
    : option (option ascii * list ascii) :=
  match l with
  | [] => Some (prev, s)
  | c :: l' =>
      match s with
      | x :: s' => if same_letter c x then eat l' s' (Some x) else None
      | [] => None
      end
  end.

(** Does [l] occur in [s], letter case ignored? *)
Fixpoint occurs (l s : list ascii) : bool :=
  match eat l s None with Some _ => true | None => false end ||
  match s with
  | [] => false
  | _ :: s' => occurs l s'
  end.

(** Is every character of a text an ASCII one?  On such text [PyRe]
    folds letter case as Python does. *)
Definition ascii_only (s : string) : bool :=
  forallb (fun c => (ord c <? 128)%N) (list_ascii_of_string s).

(** The SSRF entry of [OWASP_PATTERNS], its last pattern compiled, and a
    request for the metadata address of a cloud host. *)
Definition ssrf_config : Waf.pattern_config :=
  {| Waf.code := "A10:2021"; Waf.severity := "HIGH";
     Waf.patterns :=
       [ "(file://)"; "(gopher://)"; "(dict://)";
         "(localhost|127\.0\.0\.1|0\.0\.0\.0|169\.254\.)" ] |}%string.

Definition ssrf_hosts : regex :=
  match compile "(localhost|127\.0\.0\.1|0\.0\.0\.0|169\.254\.)" with
  | Some r => r
  | None => Eps
  end.

Definition ssrf_host_texts : list (list ascii) :=
  map list_ascii_of_string
      ["localhost"; "127.0.0.1"; "0.0.0.0"; "169.254."]%string.

Definition metadata_request : Waf.request :=
  {| Waf.url := "http://shop.example/fetch?u=http://169.254.169.254/latest";
     Waf.query := "u=http://169.254.169.254/latest";
     Waf.user_agent := None |}.

End Texts.

(** ** Sample requests, assessments and histories *)

Module Requests.
Import Waf WafMiddleware.

(** The WAF in blocking mode, and without the Redis client. *)
Definition block_mode : config :=
  {| WAF_MODE := "block"; RATE_LIMIT_PER_MINUTE := 100;
     redis_client := true |}.
Definition block_mode_without_redis : config :=
  {| WAF_MODE := "block"; RATE_LIMIT_PER_MINUTE := 100;
     redis_client := false |}.

(** A request carrying an SQL injection and a harmless one, both relayed by
    a proxy for the same client. *)
Definition injection_request : http_request :=
  {| path := "/items";
     target :=
       {| url := "http://shop.example/items?q=1+UNION+SELECT+password+FROM+users";
          query := "q=1+UNION+SELECT+password+FROM+users";
          user_agent := Some "Mozilla/5.0" |};
     x_forwarded_for := Some "203.0.113.9, 10.0.0.1";
     client_host := "10.0.0.1";
     body := "" |}.
Definition plain_request : http_request :=
  {| path := "/items";
     target :=
       {| url := "http://shop.example/items";
          query := "";
          user_agent := Some "Mozilla/5.0" |};
     x_forwarded_for := Some "203.0.113.9, 10.0.0.1";
     client_host := "10.0.0.1";
     body := "" |}.

Definition fresh_state : state := {| redis := ∅; sent := [] |}.

(** The state in which the client has used up its 100 requests. *)
Definition busy_state : state :=
  {| redis := after_checks block_mode "203.0.113.9" 100 ∅; sent := [] |}.

End Requests.

Module Assessments.
Import Schema.

(** The database of [db_without_prediction] after the ML engine stored a
    prediction whose anomaly score is NULL. *)
Definition db_with_null_score : db :=
  {| raw_requests := raw_requests Samples.db_without_prediction;
     ip_reputation := ip_reputation Samples.db_without_prediction;
     ml_predictions :=
       [{| mp_request_id := 0; predicted_at := 11;
           anomaly_score := PNone;
           attack_type := PStr "SQL_INJECTION";
           attack_probability := PNum 0.8 |}];
     owasp_detections := owasp_detections Samples.db_without_prediction;
     risk_assessments := [];
     soar_actions := [];
     incidents := [] |}.

(** The database after an assessment, or as it was if the call raised. *)
Definition assessed (cfg : RiskEngine.config) (now : timestamp) (d : db)
    (request_id : uuid) : db :=
  match RiskEngine.assess_risk cfg now d request_id with
  | Ok (d', _) => d'
  | Raise _ => d
  end.

(** The answer to the assessment of the request of
    [db_without_prediction]: 1.0 * 0.30 + 1.0 * 0.20, unreduced. *)
Definition first_answer : RiskEngine.assess_response :=
  {| RiskEngine.success := true;
     RiskEngine.assessment_id := 0;
     RiskEngine.resp_risk_score := 1000000000 # 2000000000;
     RiskEngine.resp_risk_level := "MEDIUM";
     RiskEngine.resp_recommended_action := "RATE_LIMIT";
     RiskEngine.resp_requires_validation := false;
     RiskEngine.resp_client_ip := "198.51.100.4" |}.

End Assessments.

Module Histories.
Import Schema Reputation.

(** The requests of one source a history has observed, oldest first. *)
Fixpoint hits (ip : string) (history : list event) : list raw_request :=
  match history with
  | [] => []
  | Observe _ NEW :: rest =>
      if String.eqb (client_ip NEW) ip then NEW :: hits ip rest
      else hits ip rest
  | _ :: rest => hits ip rest
  end.

(** Is the event one of the three statements of the admin console? *)
Definition by_admin (e : event) : bool :=
  match e with
  | Observe _ _ => false
  | _ => true
  end.

Definition with_ip_reputation (d : db)
    (table : gmap string ip_reputation_row) : db :=
  {| raw_requests := raw_requests d;
     ip_reputation := table;
     ml_predictions := ml_predictions d;
     owasp_detections := owasp_detections d;
     risk_assessments := risk_assessments d;
     soar_actions := soar_actions d;
     incidents := incidents d |}.

(** What the counters of a row are, given the history that led to it. *)
Definition counted (ip : string) (history : list event)
    (row : ip_reputation_row) : Prop :=
  total_requests row = Z.of_nat (length (hits ip history)) /\
  blocked_requests row =
    Z.of_nat (length (List.filter is_blocked (hits ip history))) /\
  suspicious_requests row =
    Z.of_nat (length (List.filter is_suspicious (hits ip history))).

(** The marks a row can carry. *)
Definition marks_ok (row : ip_reputation_row) : Prop :=
  (reputation_score row = 0.1 \/ reputation_score row = 0.3 \/
   reputation_score row = 0.5 \/ reputation_score row = 0.7 \/
   reputation_score row = 1.0)%Q /\
  (trust_level row = "NEUTRAL" \/ trust_level row = "MALICIOUS" \/
   trust_level row = "TRUSTED")%string /\
  (trust_level row = "NEUTRAL"%string ->
   is_whitelisted row = false /\ is_blacklisted row = false /\
   blacklist_reason row = None) /\
  (is_blacklisted row = true -> blacklist_reason row <> None) /\
  blacklist_expires_at row = None.

(** A blocked and a clean request of one source, with a manual block in
    between. *)
Definition sample_history : list event :=
  [Observe 1 (blocked_hit 1); AdminBlock 2 probe_ip "Manual block";
   Observe 3 (clean_hit 3)].

End Histories.

(** * Properties *)

Section RiskScore.
Import RiskEngine Samples.
Local Open Scope Q_scope.

Lemma Qle_bool_false (a b : Q) : Qle_bool a b = false <-> (b < a)%Q.
Proof.
  split.
  - intros H. apply Qnot_le_lt. intros Hle.
    apply Qle_bool_iff in Hle. congruence.
  - intros H. destruct (Qle_bool a b) eqn:E; [|reflexivity].
    apply Qle_bool_iff in E. lra.
Qed.

Lemma py_min_spec (a b : Q) :
  (a <= b /\ py_min a b = a) \/ (b < a /\ py_min a b = b).
Proof.
  unfold py_min. destruct (Qle_bool a b) eqn:E.
  - left. split; [by apply Qle_bool_iff|done].
  - right. split; [by apply Qle_bool_false|done].
Qed.

Lemma py_min_proper (a a' b b' : Q) :
  a == a' -> b == b' -> py_min a b == py_min a' b'.
Proof.
  intros Ha Hb.
  destruct (py_min_spec a b) as [[? ->]|[? ->]];
    destruct (py_min_spec a' b') as [[? ->]|[? ->]]; lra.
Qed.

Lemma py_max2_spec (a b : Q) :
  (b <= a /\ py_max2 a b = a) \/ (a < b /\ py_max2 a b = b).
Proof.
  unfold py_max2. destruct (Qle_bool b a) eqn:E.
  - left. split; [by apply Qle_bool_iff|done].
  - right. split; [by apply Qle_bool_false|done].
Qed.

Lemma severity_map_get_range (v : pyval) :
  (0.3 <= severity_map_get v <= 1)%Q.
Proof.
  destruct v as [|q|s]; simpl; try lra.
  repeat case_match; lra.
Qed.

Lemma foldl_py_max2_range (lo hi : Q) (rest : list Q) (x : Q) :
  lo <= x <= hi ->
  Forall (fun y => lo <= y <= hi) rest ->
  lo <= foldl py_max2 x rest <= hi.
Proof.
  revert x. induction rest as [|y rest IH]; intros x Hx Hrest; simpl.
  - exact Hx.
  - inversion Hrest as [|? ? Hy Hrest']; subst.
    apply IH; [|assumption].
    destruct (py_max2_spec x y) as [[_ ->]|[_ ->]]; assumption.
Qed.

Lemma foldl_py_max2_ge_acc (rest : list Q) (x : Q) :
  x <= foldl py_max2 x rest.
Proof.
  revert x. induction rest as [|y rest IH]; intros x; simpl.
  - lra.
  - specialize (IH (py_max2 x y)).
    destruct (py_max2_spec x y) as [[? E]|[? E]]; rewrite E in *; lra.
Qed.

Lemma foldl_py_max2_ge_elem (rest : list Q) (x y : Q) :
  y ∈ rest -> y <= foldl py_max2 x rest.
Proof.
  revert x. induction rest as [|z rest IH]; intros x Hy; simpl.
  - by apply elem_of_nil in Hy.
  - apply elem_of_cons in Hy as [->|Hy].
    + pose proof (foldl_py_max2_ge_acc rest (py_max2 x z)).
      destruct (py_max2_spec x z) as [[? E]|[? E]]; rewrite E in *; lra.
    + by apply IH.
Qed.

Lemma py_max_default_ge_elem (xs : list Q) (dflt y : Q) :
  y ∈ xs -> y <= py_max_default xs dflt.
Proof.
  destruct xs as [|x rest]; simpl; intros Hy.
  - by apply elem_of_nil in Hy.
  - apply elem_of_cons in Hy as [->|Hy].
    + apply foldl_py_max2_ge_acc.
    + by apply foldl_py_max2_ge_elem.
Qed.

Lemma owasp_score_range (owasp_data : list dict) :
  0 <= owasp_score owasp_data <= 1.
Proof.
  unfold owasp_score.
  destruct owasp_data as [|d rest]; simpl; [lra|].
  apply foldl_py_max2_range.
  - pose proof (severity_map_get_range (dict_get d "severity" (PStr "LOW"))).
    lra.
  - apply Forall_forall. intros y Hy.
    apply list_elem_of_fmap in Hy as (d' & -> & _).
    pose proof (severity_map_get_range (dict_get d' "severity" (PStr "LOW"))).
    lra.
Qed.

Lemma owasp_score_critical (owasp_data : list dict) (d : dict) :
  d ∈ owasp_data ->
  d !! "severity" = Some (PStr "CRITICAL") ->
  owasp_score owasp_data == 1.
Proof.
  intros Hd Hsev.
  pose proof (owasp_score_range owasp_data) as [_ Hle].
  assert (1 <= owasp_score owasp_data); [|lra].
  unfold owasp_score.
  assert (severity_map_get (dict_get d "severity" (PStr "LOW")) == 1) as <-.
  { unfold dict_get. rewrite Hsev. reflexivity. }
  apply py_max_default_ge_elem.
  apply list_elem_of_fmap. by exists d.
Qed.

(** The cascade of [decide_action], read off the comparisons. *)
Lemma decide_action_cases (cfg : config) (s : Q) :
  let d := decide_action cfg s in
  (RISK_THRESHOLD_BLOCK cfg <= s /\
     action d = "BLOCK_IP" /\ level d = "CRITICAL") \/
  (s < RISK_THRESHOLD_BLOCK cfg /\ RISK_THRESHOLD_CAPTCHA cfg <= s /\
     action d = "CAPTCHA" /\ level d = "HIGH") \/
  (s < RISK_THRESHOLD_BLOCK cfg /\ s < RISK_THRESHOLD_CAPTCHA cfg /\
     0.5 <= s /\ action d = "RATE_LIMIT" /\ level d = "MEDIUM") \/
  (s < RISK_THRESHOLD_BLOCK cfg /\ s < RISK_THRESHOLD_CAPTCHA cfg /\
     s < 0.5 /\ action d = "ALERT_ONLY" /\ level d = "LOW").
Proof.
  unfold decide_action, Qgeb.
  destruct (Qle_bool (RISK_THRESHOLD_BLOCK cfg) s) eqn:E1.
  { left. apply Qle_bool_iff in E1. done. }
  apply Qle_bool_false in E1.
  destruct (Qle_bool (RISK_THRESHOLD_CAPTCHA cfg) s) eqn:E2.
  { right; left. apply Qle_bool_iff in E2. done. }
  apply Qle_bool_false in E2.
  destruct (Qle_bool 0.5 s) eqn:E3.
  { right; right; left. apply Qle_bool_iff in E3. done. }
  apply Qle_bool_false in E3.
  right; right; right. done.
Qed.

Lemma dict_truthy_lookup (d : dict) (k : string) (v : pyval) :
  d !! k = Some v -> dict_truthy d = true.
Proof.
  intros H. unfold dict_truthy.
  rewrite bool_decide_eq_false_2; [done|].
  intros ->. by rewrite lookup_empty in H.
Qed.

Lemma dict_get_lookup (d : dict) (k : string) (v dflt : pyval) :
  d !! k = Some v -> dict_get d k dflt = v.
Proof. intros H. unfold dict_get. by rewrite H. Qed.

Lemma ml_score_range (ml_data : dict) (a p : Q) :
  dict_get ml_data "anomaly_score" (PNum 0.0) = PNum a ->
  dict_get ml_data "attack_probability" (PNum 0.0) = PNum p ->
  0 <= a <= 1 -> 0 <= p <= 1 ->
  exists ml, ml_score ml_data = Ok ml /\ 0 <= ml <= 1.
Proof.
  intros Ha Hp Hra Hrp. unfold ml_score.
  destruct (dict_truthy ml_data).
  - rewrite Ha, Hp. simpl. eexists. split; [reflexivity|]. lra.
  - eexists. split; [reflexivity|]. lra.
Qed.

Lemma behavioral_score_range (behavioral : dict) (r : Q) :
  dict_get behavioral "blocked_ratio" (PNum 0.0) = PNum r ->
  0 <= r ->
  exists beh, behavioral_score behavioral = Ok beh /\ 0 <= beh <= 1.
Proof.
  intros Hr Hrr. unfold behavioral_score. rewrite Hr. simpl.
  eexists. split; [reflexivity|].
  destruct (py_min_spec (r * 2.0) 1.0) as [[? ->]|[? ->]]; lra.
Qed.

(** C1, as stated, fails: on the scenario's input the score is 0.844, below
    the default block threshold 0.9, and the decision is CAPTCHA/HIGH, not
    BLOCK_IP/CRITICAL. *)
Lemma scenario_is_not_blocked :
  exists s,
    calculate_risk scenario_ml [scenario_detection] scenario_behavioral = Ok s /\
    s == 0.844 /\
    ~ (RISK_THRESHOLD_BLOCK default_config <= s) /\
    action (decide_action default_config s) <> "BLOCK_IP" /\
    level (decide_action default_config s) <> "CRITICAL".
Proof.
  eexists. split; [vm_compute; reflexivity|].
  split; [reflexivity|].
  split; [simpl; lra|].
  split; vm_compute; discriminate.
Qed.

(** C1, amended: whenever the detections include a SQL_INJECTION one of
    severity CRITICAL, the ML verdict is anomaly_score 0.9 and
    attack_probability 0.8, and blocked_ratio is 0.6, [calculate_risk]
    returns 0.844 (= (0.9*0.6 + 0.8*0.4)*0.4 + 1.0*0.3 + 1.0*0.2), which
    is below the default block threshold 0.9 and at least the default
    captcha threshold 0.7: the decision is CAPTCHA with level HIGH. *)
Theorem scenario_scores_0_844
    (ml_data : dict) (owasp_data : list dict) (behavioral d : dict)
    (a p r : Q) :
  d ∈ owasp_data ->
  d !! "owasp_category" = Some (PStr "SQL_INJECTION") ->
  d !! "severity" = Some (PStr "CRITICAL") ->
  ml_data !! "anomaly_score" = Some (PNum a) ->
  ml_data !! "attack_probability" = Some (PNum p) ->
  behavioral !! "blocked_ratio" = Some (PNum r) ->
  a == 0.9 -> p == 0.8 -> r == 0.6 ->
  exists s,
    calculate_risk ml_data owasp_data behavioral = Ok s /\
    s == 0.844 /\
    s < RISK_THRESHOLD_BLOCK default_config /\
    RISK_THRESHOLD_CAPTCHA default_config <= s /\
    action (decide_action default_config s) = "CAPTCHA" /\
    level (decide_action default_config s) = "HIGH".
Proof.
  intros Hd _ Hsev Ha Hp Hr Ea Ep Er.
  pose proof (owasp_score_critical owasp_data d Hd Hsev) as Ho.
  unfold calculate_risk, ml_score, behavioral_score.
  rewrite (dict_truthy_lookup _ _ _ Ha).
  rewrite (dict_get_lookup _ _ _ _ Ha), (dict_get_lookup _ _ _ _ Hp),
    (dict_get_lookup _ _ _ _ Hr).
  simpl. eexists. split; [reflexivity|].
  set (beh := py_min (r * 2.0) 1.0).
  assert (Hbeh : beh == 1).
  { subst beh. destruct (py_min_spec (r * 2.0) 1.0) as [[? ->]|[? ->]]; lra. }
  set (sum := (a * 0.6 + p * 0.4) * WEIGHTS_ml +
              owasp_score owasp_data * WEIGHTS_owasp +
              beh * WEIGHTS_behavioral).
  assert (Hsum : sum == 0.844).
  { subst sum. rewrite Ea, Ep, Ho, Hbeh. reflexivity. }
  assert (Hs : py_min sum 1.0 == 0.844).
  { destruct (py_min_spec sum 1.0) as [[? ->]|[? ->]]; lra. }
  split; [exact Hs|].
  split; [simpl; lra|]. split; [simpl; lra|].
  destruct (decide_action_cases default_config (py_min sum 1.0))
    as [(H1 & _)|[(_ & _ & H2 & H3)|[(_ & H1 & _)|(_ & H1 & _)]]];
    [simpl in H1; lra|done|simpl in H1; lra..].
Qed.

Lemma scenario_scores_0_844_witness :
  exists s,
    calculate_risk scenario_ml [scenario_detection] scenario_behavioral = Ok s /\
    s == 0.844 /\
    s < RISK_THRESHOLD_BLOCK default_config /\
    RISK_THRESHOLD_CAPTCHA default_config <= s /\
    action (decide_action default_config s) = "CAPTCHA" /\
    level (decide_action default_config s) = "HIGH".
Proof.
  apply (scenario_scores_0_844 scenario_ml [scenario_detection]
           scenario_behavioral scenario_detection 0.9 0.8 0.6);
    try reflexivity.
  apply list_elem_of_here.
Defined.

(** C2: for every ML verdict with anomaly_score and attack_probability in
    [0,1] (a missing key reads as 0.0), every detection list and every
    blocked_ratio in [0,1], [calculate_risk] returns a score of at most
    0.9: the three weights it uses sum to 0.9, each weighted component
    lies between 0 and its weight, the score is the plain weighted sum
    (the clamp [min(., 1.0)] does not bind), and under the default
    thresholds BLOCK_IP is recommended only when the score equals 0.9. *)
Theorem calculate_risk_at_most_0_9
    (ml_data : dict) (owasp_data : list dict) (behavioral : dict)
    (a p r : Q) :
  dict_get ml_data "anomaly_score" (PNum 0.0) = PNum a ->
  dict_get ml_data "attack_probability" (PNum 0.0) = PNum p ->
  dict_get behavioral "blocked_ratio" (PNum 0.0) = PNum r ->
  0 <= a <= 1 -> 0 <= p <= 1 -> 0 <= r <= 1 ->
  WEIGHTS_ml + WEIGHTS_owasp + WEIGHTS_behavioral == 0.9 /\
  exists ml beh s,
    ml_score ml_data = Ok ml /\
    behavioral_score behavioral = Ok beh /\
    calculate_risk ml_data owasp_data behavioral = Ok s /\
    0 <= ml * WEIGHTS_ml <= WEIGHTS_ml /\
    0 <= owasp_score owasp_data * WEIGHTS_owasp <= WEIGHTS_owasp /\
    0 <= beh * WEIGHTS_behavioral <= WEIGHTS_behavioral /\
    s = ml * WEIGHTS_ml + owasp_score owasp_data * WEIGHTS_owasp +
        beh * WEIGHTS_behavioral /\
    s <= 0.9 /\
    (action (decide_action default_config s) = "BLOCK_IP" -> s == 0.9).
Proof.
  intros Ha Hp Hr Hra Hrp Hrr.
  split; [reflexivity|].
  destruct (ml_score_range ml_data a p Ha Hp Hra Hrp) as (ml & Hml & Hmlr).
  destruct (behavioral_score_range behavioral r Hr (proj1 Hrr))
    as (beh & Hbeh & Hbehr).
  pose proof (owasp_score_range owasp_data) as Ho.
  set (sum := ml * WEIGHTS_ml + owasp_score owasp_data * WEIGHTS_owasp +
              beh * WEIGHTS_behavioral).
  assert (Hsum : sum <= 0.9).
  { subst sum. unfold WEIGHTS_ml, WEIGHTS_owasp, WEIGHTS_behavioral. lra. }
  exists ml, beh, sum.
  split; [exact Hml|]. split; [exact Hbeh|].
  split.
  { unfold calculate_risk. rewrite Hml, Hbeh. simpl. f_equal.
    fold sum. destruct (py_min_spec sum 1.0) as [[_ E]|[Hlt _]]; [exact E|lra]. }
  unfold WEIGHTS_ml, WEIGHTS_owasp, WEIGHTS_behavioral in *.
  repeat split; try lra.
  intros Hact.
  destruct (decide_action_cases default_config sum)
    as [(H1 & _)|[(_ & _ & H2 & _)|[(_ & _ & _ & H2 & _)|(_ & _ & _ & H2 & _)]]];
    simpl in *; [lra| | |]; rewrite H2 in Hact; discriminate.
Qed.

Lemma calculate_risk_at_most_0_9_witness :
  WEIGHTS_ml + WEIGHTS_owasp + WEIGHTS_behavioral == 0.9 /\
  exists ml beh s,
    ml_score max_ml = Ok ml /\
    behavioral_score max_behavioral = Ok beh /\
    calculate_risk max_ml [scenario_detection] max_behavioral = Ok s /\
    0 <= ml * WEIGHTS_ml <= WEIGHTS_ml /\
    0 <= owasp_score [scenario_detection] * WEIGHTS_owasp <= WEIGHTS_owasp /\
    0 <= beh * WEIGHTS_behavioral <= WEIGHTS_behavioral /\
    s = ml * WEIGHTS_ml + owasp_score [scenario_detection] * WEIGHTS_owasp +
        beh * WEIGHTS_behavioral /\
    s <= 0.9 /\
    (action (decide_action default_config s) = "BLOCK_IP" -> s == 0.9).
Proof.
  apply (calculate_risk_at_most_0_9 max_ml [scenario_detection]
           max_behavioral 1.0 1.0 1.0);
    first [reflexivity | split; discriminate].
Defined.

(** In exact arithmetic the bound 0.9 is attained, and there the default
    policy does recommend BLOCK_IP. *)
Lemma calculate_risk_reaches_0_9 :
  exists s,
    calculate_risk max_ml [scenario_detection] max_behavioral = Ok s /\
    s == 0.9 /\
    action (decide_action default_config s) = "BLOCK_IP".
Proof.
  eexists. split; [vm_compute; reflexivity|].
  split; reflexivity.
Qed.

#[local] Set Warnings "-inexact-float".
(** On binary64 the scenario of C1 scores 0.8440000000000001: below the
    block threshold, above the captcha threshold, as in exact arithmetic. *)
Lemma binary64_scenario_is_captcha :
  Binary64.reaches_block (Binary64.calculate_risk 0.9 0.8 1.0 0.6) = false /\
  Binary64.reaches_captcha (Binary64.calculate_risk 0.9 0.8 1.0 0.6) = true.
Proof. split; vm_compute; reflexivity. Qed.

(** On binary64 the largest inputs score 0.8999999999999999, one unit in
    the last place below 0.9: rounding keeps even this score under the
    default block threshold. *)
Lemma binary64_largest_score_is_below_block :
  Binary64.reaches_block (Binary64.calculate_risk 1.0 1.0 1.0 1.0) = false /\
  Binary64.reaches_captcha (Binary64.calculate_risk 1.0 1.0 1.0 1.0) = true.
Proof. split; vm_compute; reflexivity. Qed.

(** C3: [decide_action] puts every score in exactly one of four bands cut
    by the ordered comparisons: score >= block threshold gives
    BLOCK_IP/CRITICAL; otherwise score >= captcha threshold gives
    CAPTCHA/HIGH; otherwise score >= 0.5 gives RATE_LIMIT/MEDIUM; otherwise
    ALERT_ONLY/LOW.  Each outcome occurs exactly on its band, a score equal
    to the block threshold yields BLOCK_IP, and with the defaults the
    bands are [0.9, ...), [0.7, 0.9), [0.5, 0.7) and (..., 0.5). *)
Theorem decide_action_bands (cfg : config) (s : Q) :
  let d := decide_action cfg s in
  let block := RISK_THRESHOLD_BLOCK cfg in
  let captcha := RISK_THRESHOLD_CAPTCHA cfg in
  (action d = "BLOCK_IP" /\ level d = "CRITICAL" <-> block <= s) /\
  (action d = "CAPTCHA" /\ level d = "HIGH" <-> s < block /\ captcha <= s) /\
  (action d = "RATE_LIMIT" /\ level d = "MEDIUM" <->
     s < block /\ s < captcha /\ 0.5 <= s) /\
  (action d = "ALERT_ONLY" /\ level d = "LOW" <->
     s < block /\ s < captcha /\ s < 0.5) /\
  (s == block -> action d = "BLOCK_IP" /\ level d = "CRITICAL") /\
  (RISK_THRESHOLD_BLOCK default_config == 0.9 /\
   RISK_THRESHOLD_CAPTCHA default_config == 0.7).
Proof.
  intros d block captcha.
  assert (Hdef : RISK_THRESHOLD_BLOCK default_config == 0.9 /\
                 RISK_THRESHOLD_CAPTCHA default_config == 0.7)
    by (split; reflexivity).
  destruct (decide_action_cases cfg s)
    as [(H1 & Ha & Hl)|[(H1 & H2 & Ha & Hl)|[(H1 & H2 & H3 & Ha & Hl)
       |(H1 & H2 & H3 & Ha & Hl)]]];
    fold d in Ha, Hl; subst block captcha; rewrite Ha, Hl;
    split_and!; try exact (proj1 Hdef); try exact (proj2 Hdef);
    try (intros Heq; first [done | exfalso; lra]).
  all: split.
  all: try (intros [Hx Hy];
            first [discriminate Hx | split_and!; first [assumption | lra]]).
  all: intros Hb; first [done | exfalso; destruct_and?; lra].
Qed.




End RiskScore.

Section ReputationTable.
Import Schema RiskEngine Reputation.
Local Open Scope Z_scope.

Lemma int4_add_ok (a b c : Z) :
  int4_add a b = Ok c -> c = a + b /\ int4_min <= c <= int4_max.
Proof.
  unfold int4_add. intros H.
  destruct ((int4_min <=? a + b) && (a + b <=? int4_max)) eqn:E; [|discriminate].
  injection H as <-. apply andb_true_iff in E as [E1 E2]. lia.
Qed.

Lemma int4_add_in_range (a b : Z) :
  int4_min <= a + b <= int4_max -> int4_add a b = Ok (a + b).
Proof.
  intros H. unfold int4_add.
  destruct (Z.leb_spec int4_min (a + b)), (Z.leb_spec (a + b) int4_max); simpl; try lia.
  reflexivity.
Qed.

Lemma case_flag_range (b : bool) : 0 <= case_flag b <= 1.
Proof. destruct b; simpl; lia. Qed.

(** What the trigger stores for a source already in the table. *)
Lemma update_ip_rep_existing now NEW table table' old :
  table !! client_ip NEW = Some old ->
  update_ip_rep now NEW table = Ok table' ->
  exists new,
    table' = <[client_ip NEW := new]> table /\
    total_requests new = total_requests old + 1 /\
    blocked_requests new = blocked_requests old + case_flag (is_blocked NEW) /\
    suspicious_requests new =
      suspicious_requests old + case_flag (is_suspicious NEW) /\
    total_requests new <= int4_max /\
    reputation_score new =
      reputation_case
        (float_div_nullif (blocked_requests new) (total_requests new)) /\
    is_whitelisted new = is_whitelisted old /\
    is_blacklisted new = is_blacklisted old.
Proof.
  intros Hold Hup. unfold update_ip_rep in Hup. rewrite Hold in Hup.
  destruct (int4_add (total_requests old) 1) as [t|] eqn:Et; [|discriminate].
  destruct (int4_add (blocked_requests old) (case_flag (is_blocked NEW)))
    as [b|] eqn:Eb; [|discriminate].
  destruct (int4_add (suspicious_requests old) (case_flag (is_suspicious NEW)))
    as [s|] eqn:Es; [|discriminate].
  simpl in Hup. injection Hup as <-.
  apply int4_add_ok in Et as [-> ?], Eb as [-> ?], Es as [-> ?].
  eexists. split; [reflexivity|]. simpl. repeat split; lia.
Qed.

Lemma update_ip_rep_new now NEW table :
  table !! client_ip NEW = None ->
  exists new,
    update_ip_rep now NEW table = Ok (<[client_ip NEW := new]> table) /\
    total_requests new = 1 /\
    blocked_requests new = case_flag (is_blocked NEW) /\
    suspicious_requests new = case_flag (is_suspicious NEW) /\
    reputation_score new = 0.5%Q /\
    is_whitelisted new = false /\ is_blacklisted new = false.
Proof.
  intros Hnone. unfold update_ip_rep. rewrite Hnone.
  eexists. split; [reflexivity|]. simpl. repeat split.
Qed.

Lemma table_ok_insert table ip row :
  table_ok table -> counters_ok row -> table_ok (<[ip := row]> table).
Proof.
  intros Ht Hr ip' row' Hl.
  destruct (decide (ip = ip')) as [->|Hne].
  - rewrite lookup_insert_eq in Hl. by injection Hl as <-.
  - rewrite lookup_insert_ne in Hl by done. by eapply Ht.
Qed.

Lemma update_ip_rep_ok now NEW table table' :
  table_ok table -> update_ip_rep now NEW table = Ok table' -> table_ok table'.
Proof.
  intros Ht Hup.
  destruct (table !! client_ip NEW) as [old|] eqn:Hold.
  - destruct (update_ip_rep_existing _ _ _ _ _ Hold Hup)
      as (new & -> & Htot & Hb & Hs & Hmax & _).
    apply table_ok_insert; [done|].
    destruct (Ht _ _ Hold) as (? & ? & ?).
    pose proof (case_flag_range (is_blocked NEW)).
    pose proof (case_flag_range (is_suspicious NEW)).
    unfold counters_ok. lia.
  - destruct (update_ip_rep_new now NEW table Hold)
      as (new & Hup' & Htot & Hb & Hs & _).
    rewrite Hup' in Hup. injection Hup as <-.
    apply table_ok_insert; [done|].
    pose proof (case_flag_range (is_blocked NEW)).
    pose proof (case_flag_range (is_suspicious NEW)).
    unfold counters_ok, int4_max. lia.
Qed.

Lemma step_ok table e : table_ok table -> table_ok (step table e).
Proof.
  intros Ht. destruct e as [now NEW|now ip reason|ip|now ip]; simpl.
  - destruct (update_ip_rep now NEW table) as [table'|] eqn:E; [|done].
    by eapply update_ip_rep_ok.
  - unfold AdminConsole.block_ip.
    destruct (table !! ip) as [old|] eqn:Hold;
      (apply table_ok_insert; [done|]);
      [destruct (Ht _ _ Hold) as (? & ? & ?)|];
      unfold counters_ok, int4_max in *; simpl; lia.
  - unfold AdminConsole.unblock_ip.
    destruct (table !! ip) as [old|] eqn:Hold; [|done].
    apply table_ok_insert; [done|].
    destruct (Ht _ _ Hold) as (? & ? & ?).
    unfold counters_ok in *; simpl; lia.
  - unfold AdminConsole.whitelist_ip.
    destruct (table !! ip) as [old|] eqn:Hold;
      (apply table_ok_insert; [done|]);
      [destruct (Ht _ _ Hold) as (? & ? & ?)|];
      unfold counters_ok, int4_max in *; simpl; lia.
Qed.

Lemma reachable_ok table : reachable table -> table_ok table.
Proof.
  intros [history <-]. unfold run.
  induction history as [|e history IH] using rev_ind.
  - intros ip row H. simpl in H. by rewrite lookup_empty in H.
  - rewrite foldl_app. simpl. by apply step_ok.
Qed.

Local Open Scope Q_scope.

Lemma sql_gt_Some (q c : Q) : sql_gt (Some q) c = true <-> c < q.
Proof.
  unfold sql_gt. destruct (Qle_bool q c) eqn:E; simpl.
  - apply Qle_bool_iff in E. split; [discriminate|lra].
  - apply Qle_bool_false in E. done.
Qed.

Lemma reputation_case_breakpoints (r : Q) :
  (0.5 < r -> reputation_case (Some r) = 0.1) /\
  (r <= 0.5 -> 0.2 < r -> reputation_case (Some r) = 0.3) /\
  (r <= 0.2 -> reputation_case (Some r) = 0.7).
Proof.
  unfold reputation_case.
  destruct (sql_gt (Some r) 0.5) eqn:E1; [apply sql_gt_Some in E1|];
    (destruct (sql_gt (Some r) 0.2) eqn:E2; [apply sql_gt_Some in E2|]).
  all: repeat split; intros; try reflexivity; exfalso.
  all: try (apply not_true_iff_false in E1; apply E1, sql_gt_Some; lra).
  all: try (apply not_true_iff_false in E2; apply E2, sql_gt_Some; lra).
  all: lra.
Qed.

Lemma reputation_case_antitone (r1 r2 : Q) :
  r1 <= r2 -> reputation_case (Some r2) <= reputation_case (Some r1).
Proof.
  intros Hle.
  destruct (reputation_case_breakpoints r1) as (A1 & B1 & C1).
  destruct (reputation_case_breakpoints r2) as (A2 & B2 & C2).
  destruct (Qlt_le_dec 0.5 r1), (Qlt_le_dec 0.5 r2),
    (Qlt_le_dec 0.2 r1), (Qlt_le_dec 0.2 r2);
    try (exfalso; lra);
    repeat match goal with
    | H : ?P -> _, HP : ?P |- _ => specialize (H HP)
    end;
    repeat match goal with H : reputation_case _ = _ |- _ => rewrite H; clear H end;
    lra.
Qed.

Lemma reputation_case_ratio (r1 r2 : Q) :
  r1 == r2 -> reputation_case (Some r1) = reputation_case (Some r2).
Proof.
  intros Heq.
  destruct (reputation_case_breakpoints r1) as (A1 & B1 & C1).
  destruct (reputation_case_breakpoints r2) as (A2 & B2 & C2).
  destruct (Qlt_le_dec 0.5 r1); [rewrite A1, A2 by lra; done|].
  destruct (Qlt_le_dec 0.2 r1); [rewrite B1, B2 by lra; done|].
  rewrite C1, C2 by lra; done.
Qed.

Lemma float_div_nullif_pos (b t : Z) :
  (0 < t)%Z -> float_div_nullif b t = Some (inject_Z b / inject_Z t).
Proof.
  intros Ht. unfold float_div_nullif.
  destruct (Z.eqb_spec t 0); [lia|reflexivity].
Qed.

Lemma update_ip_rep_raises now NEW table e :
  table_ok table ->
  update_ip_rep now NEW table = Raise e ->
  e = IntegerOutOfRange /\
  exists old, table !! client_ip NEW = Some old /\
              total_requests old = int4_max.
Proof.
  intros Ht Hup.
  destruct (table !! client_ip NEW) as [old|] eqn:Hold.
  2:{ destruct (update_ip_rep_new now NEW table Hold) as (new & Hup' & _).
      rewrite Hup' in Hup. discriminate. }
  destruct (Ht _ _ Hold) as (Hb & Hs & Hmax).
  pose proof (case_flag_range (is_blocked NEW)).
  pose proof (case_flag_range (is_suspicious NEW)).
  destruct (Z.eq_dec (total_requests old) int4_max) as [Heq|Hne].
  { split; [|by exists old].
    unfold update_ip_rep in Hup. rewrite Hold in Hup.
    unfold int4_add at 1 in Hup. rewrite Heq in Hup. simpl in Hup.
    by injection Hup as <-. }
  exfalso.
  unfold update_ip_rep in Hup. rewrite Hold in Hup.
  rewrite !int4_add_in_range in Hup by (unfold int4_min, int4_max in *; lia).
  discriminate.
Qed.

(** C5, amended: in every table the trigger and the admin statements can
    produce, an observation (the trigger fired by a row inserted into
    raw_requests) either raises "integer out of range" because the source's
    total_requests already is the largest 32-bit integer, leaving the table
    as it was, or stores a table in which every record has
    blocked_requests <= total_requests.  On the observation that creates the
    record of a source, the counters are 1 and the flag of the request, and
    the reputation_score is the column default 0.5, whatever the ratio.  On
    every later observation of the source (the update path) its counters
    are incremented and its reputation_score is recomputed from the updated
    blocked/total ratio: 0.1 if the ratio is above 0.5, else 0.3 if it is
    above 0.2, else 0.7. *)
Theorem observe_keeps_blocked_le_total
    (now : timestamp) (NEW : raw_request)
    (table : gmap string ip_reputation_row) :
  reachable table ->
  match update_ip_rep now NEW table with
  | Ok table' =>
      (forall ip row, table' !! ip = Some row ->
                      (blocked_requests row <= total_requests row)%Z) /\
      exists new,
        table' !! client_ip NEW = Some new /\
        match table !! client_ip NEW with
        | None =>
            total_requests new = 1%Z /\
            blocked_requests new = case_flag (is_blocked NEW) /\
            reputation_score new = 0.5
        | Some old =>
            total_requests new = (total_requests old + 1)%Z /\
            blocked_requests new =
              (blocked_requests old + case_flag (is_blocked NEW))%Z /\
            (0.5 < blocked_ratio new -> reputation_score new = 0.1) /\
            (blocked_ratio new <= 0.5 -> 0.2 < blocked_ratio new ->
               reputation_score new = 0.3) /\
            (blocked_ratio new <= 0.2 -> reputation_score new = 0.7)
        end
  | Raise e =>
      e = IntegerOutOfRange /\
      exists old, table !! client_ip NEW = Some old /\
                  total_requests old = int4_max
  end.
Proof.
  intros Hreach. apply reachable_ok in Hreach.
  destruct (update_ip_rep now NEW table) as [table'|e] eqn:Hup.
  2:{ by eapply update_ip_rep_raises. }
  split.
  { intros ip row Hrow.
    destruct (update_ip_rep_ok _ _ _ _ Hreach Hup ip row Hrow) as (? & _). lia. }
  destruct (table !! client_ip NEW) as [old|] eqn:Hold.
  - destruct (update_ip_rep_existing _ _ _ _ _ Hold Hup)
      as (new & -> & Htot & Hb & _ & _ & Hscore & _).
    exists new. split; [by rewrite lookup_insert_eq|].
    split; [done|]. split; [done|].
    destruct (Hreach _ _ Hold) as (? & _).
    rewrite float_div_nullif_pos in Hscore by lia.
    rewrite Hscore. apply reputation_case_breakpoints.
  - destruct (update_ip_rep_new now NEW table Hold)
      as (new & Hup' & Htot & Hb & _ & Hscore & _).
    rewrite Hup' in Hup. injection Hup as <-.
    exists new. split; [by rewrite lookup_insert_eq|]. done.
Qed.

(** C5, as stated, fails on the first observation of a source.  A source
    whose first request is blocked is stored with total_requests 1 and
    blocked_requests 1, a ratio of 1, above 0.5, and with the score 0.5
    rather than the low score 0.1: the breakpoints are applied on the update
    path only. *)
Lemma first_observation_keeps_the_default_score :
  exists row,
    update_ip_rep 0 (blocked_hit 0) ∅ = Ok (<[probe_ip := row]> ∅) /\
    run [Observe 0 (blocked_hit 0)] !! probe_ip = Some row /\
    total_requests row = 1%Z /\
    blocked_requests row = 1%Z /\
    blocked_ratio row == 1 /\
    0.5 < blocked_ratio row /\
    reputation_score row = 0.5 /\
    ~ reputation_score row == 0.1.
Proof.
  eexists. split; [reflexivity|]. split; [vm_compute; reflexivity|].
  split; [reflexivity|]. split; [reflexivity|].
  split; [reflexivity|]. split; [reflexivity|].
  split; [reflexivity|]. vm_compute. discriminate.
Qed.

(** C6, amended: on every update of an existing record by the trigger, the
    stored reputation_score is a function of the updated blocked/total ratio
    alone (equal ratios give equal scores), monotonically non-increasing as
    the ratio grows; the whitelisted and blacklisted flags are carried over
    unchanged and have no influence on the score. *)
Theorem update_score_ignores_flags
    (now : timestamp) (NEW : raw_request)
    (table table' : gmap string ip_reputation_row) (old : ip_reputation_row) :
  reachable table ->
  table !! client_ip NEW = Some old ->
  update_ip_rep now NEW table = Ok table' ->
  exists new,
    table' !! client_ip NEW = Some new /\
    is_whitelisted new = is_whitelisted old /\
    is_blacklisted new = is_blacklisted old /\
    reputation_score new = reputation_case (Some (blocked_ratio new)) /\
    (forall r1 r2, r1 == r2 ->
       reputation_case (Some r1) = reputation_case (Some r2)) /\
    (forall r1 r2, r1 <= r2 ->
       reputation_case (Some r2) <= reputation_case (Some r1)).
Proof.
  intros Hreach Hold Hup. apply reachable_ok in Hreach.
  destruct (update_ip_rep_existing _ _ _ _ _ Hold Hup)
    as (new & -> & Htot & _ & _ & _ & Hscore & Hw & Hb).
  exists new. split; [by rewrite lookup_insert_eq|].
  split; [done|]. split; [done|].
  split.
  { destruct (Hreach _ _ Hold) as (? & _).
    rewrite float_div_nullif_pos in Hscore by lia. exact Hscore. }
  split; [apply reputation_case_ratio|apply reputation_case_antitone].
Qed.

(** C6, as stated, fails.  A whitelisted source (score 1.0 when
    whitelisted) that sends one blocked request is stored with the
    ratio-derived score 0.1, flag still set; a blacklisted source with no
    blocked request is stored with the best score 0.7; so the flags do not
    take precedence.  And two unflagged records with the same ratio 0 carry
    different scores: 0.5 on creation, 0.7 after the next clean request. *)
Lemma flags_do_not_override_score :
  (exists row,
     run [AdminWhitelist 0 probe_ip; Observe 1 (blocked_hit 1)] !! probe_ip
       = Some row /\
     is_whitelisted row = true /\ reputation_score row = 0.1) /\
  (exists row,
     run [Observe 0 (clean_hit 0); AdminBlock 1 probe_ip "manual";
          Observe 2 (clean_hit 2)] !! probe_ip = Some row /\
     is_blacklisted row = true /\ reputation_score row = 0.7) /\
  (exists row1 row2,
     run [Observe 0 (clean_hit 0)] !! probe_ip = Some row1 /\
     run [Observe 0 (clean_hit 0); Observe 1 (clean_hit 1)] !! probe_ip
       = Some row2 /\
     is_whitelisted row1 = false /\ is_blacklisted row1 = false /\
     is_whitelisted row2 = false /\ is_blacklisted row2 = false /\
     blocked_ratio row1 == blocked_ratio row2 /\
     ~ reputation_score row1 == reputation_score row2).
Proof.
  split; [|split].
  - eexists. split; [vm_compute; reflexivity|]. split; reflexivity.
  - eexists. split; [vm_compute; reflexivity|]. split; reflexivity.
  - do 2 eexists. split; [vm_compute; reflexivity|].
    split; [vm_compute; reflexivity|].
    repeat split; try reflexivity. vm_compute. discriminate.
Qed.

Lemma observe_keeps_blocked_le_total_witness :
  match update_ip_rep 1 (blocked_hit 1) (run [Observe 0 (clean_hit 0)]) with
  | Ok table' =>
      (forall ip row, table' !! ip = Some row ->
                      (blocked_requests row <= total_requests row)%Z) /\
      exists new,
        table' !! client_ip (blocked_hit 1) = Some new /\
        match run [Observe 0 (clean_hit 0)] !! client_ip (blocked_hit 1) with
        | None =>
            total_requests new = 1%Z /\
            blocked_requests new = case_flag (is_blocked (blocked_hit 1)) /\
            reputation_score new = 0.5
        | Some old =>
            total_requests new = (total_requests old + 1)%Z /\
            blocked_requests new =
              (blocked_requests old + case_flag (is_blocked (blocked_hit 1)))%Z /\
            (0.5 < blocked_ratio new -> reputation_score new = 0.1) /\
            (blocked_ratio new <= 0.5 -> 0.2 < blocked_ratio new ->
               reputation_score new = 0.3) /\
            (blocked_ratio new <= 0.2 -> reputation_score new = 0.7)
        end
  | Raise e =>
      e = IntegerOutOfRange /\
      exists old,
        run [Observe 0 (clean_hit 0)] !! client_ip (blocked_hit 1) = Some old /\
        total_requests old = int4_max
  end.
Proof.
  apply (observe_keeps_blocked_le_total 1 (blocked_hit 1)
           (run [Observe 0 (clean_hit 0)])).
  exists [Observe 0 (clean_hit 0)]. reflexivity.
Defined.

Lemma update_score_ignores_flags_witness :
  exists new,
    run [AdminWhitelist 0 probe_ip; Observe 1 (blocked_hit 1)]
      !! client_ip (blocked_hit 1) = Some new /\
    is_whitelisted new = is_whitelisted whitelisted_row /\
    is_blacklisted new = is_blacklisted whitelisted_row /\
    reputation_score new = reputation_case (Some (blocked_ratio new)) /\
    (forall r1 r2, r1 == r2 ->
       reputation_case (Some r1) = reputation_case (Some r2)) /\
    (forall r1 r2, r1 <= r2 ->
       reputation_case (Some r2) <= reputation_case (Some r1)).
Proof.
  apply (update_score_ignores_flags 1 (blocked_hit 1)
           (run [AdminWhitelist 0 probe_ip])
           (run [AdminWhitelist 0 probe_ip; Observe 1 (blocked_hit 1)])
           whitelisted_row).
  - exists [AdminWhitelist 0 probe_ip]. reflexivity.
  - vm_compute. reflexivity.
  - vm_compute. reflexivity.
Defined.

End ReputationTable.

Section Detection.
Import Waf Samples.
Local Open Scope Z_scope.

Lemma OWASP_PATTERNS_compile : table_compiles OWASP_PATTERNS = true.
Proof. vm_compute. reflexivity. Qed.

Lemma search_total (pattern content : string) :
  compiles pattern = true -> exists b, PyRe.search pattern content = Ok b.
Proof.
  unfold compiles, PyRe.search. destruct (PyRe.compile pattern); [|discriminate].
  intros _. eexists. reflexivity.
Qed.

Lemma first_match_spec (ps : list string) (content : string) :
  forallb compiles ps = true ->
  exists b,
    first_match ps content = Ok b /\
    (b = true <-> exists p, p ∈ ps /\ PyRe.search p content = Ok true).
Proof.
  induction ps as [|p ps IH]; simpl; intros Hc.
  - exists false. split; [reflexivity|]. split; [discriminate|].
    intros (p & Hp & _). by apply elem_of_nil in Hp.
  - apply andb_true_iff in Hc as [Hp Hps].
    destruct (search_total p content Hp) as [b Hb]. rewrite Hb. simpl.
    destruct b.
    + exists true. split; [reflexivity|]. split; [|done].
      intros _. exists p. split; [apply list_elem_of_here|done].
    + destruct (IH Hps) as (b & Hfm & Hiff). exists b. split; [exact Hfm|].
      rewrite Hiff. split.
      * intros (q & Hq & Hs). exists q. split; [by apply list_elem_of_further|done].
      * intros (q & Hq & Hs). apply elem_of_cons in Hq as [->|Hq].
        -- rewrite Hb in Hs. discriminate.
        -- by exists q.
Qed.

Lemma scan_categories_spec (table : list (string * pattern_config))
    (content : string) :
  table_compiles table = true ->
  exists ds,
    scan_categories table content = Ok ds /\
    sublist (map type ds) (map fst table) /\
    (forall d, d ∈ ds ->
       ua d = None /\
       exists config, (type d, config) ∈ table /\
                      first_match (patterns config) content = Ok true) /\
    (forall category config,
       (category, config) ∈ table ->
       first_match (patterns config) content = Ok true ->
       exists d, d ∈ ds /\ type d = category).
Proof.
  induction table as [|[category config] table IH]; simpl; intros Hc.
  - exists []. split; [reflexivity|]. split; [constructor|]. split.
    + intros d Hd. by apply elem_of_nil in Hd.
    + intros c cfg Hin. by apply elem_of_nil in Hin.
  - apply andb_true_iff in Hc as [Hp Ht]. simpl in Hp.
    destruct (first_match_spec (patterns config) content Hp) as (b & Hb & _).
    destruct (IH Ht) as (ds & Hds & Hsub & Hfrom & Hall).
    rewrite Hb. simpl. rewrite Hds. simpl.
    eexists. split; [reflexivity|].
    destruct b; simpl.
    + split; [by constructor|]. split.
      * intros d Hd. apply elem_of_cons in Hd as [->|Hd]; simpl.
        -- split; [reflexivity|]. exists config.
           split; [apply list_elem_of_here|exact Hb].
        -- destruct (Hfrom d Hd) as (Hu & cfg & Hin & Hfm).
           split; [exact Hu|]. exists cfg.
           split; [by apply list_elem_of_further|exact Hfm].
      * intros c cfg Hin Hfm. apply elem_of_cons in Hin as [[= -> ->]|Hin].
        -- eexists. split; [apply list_elem_of_here|reflexivity].
        -- destruct (Hall c cfg Hin Hfm) as (d & Hd & Hty).
           exists d. split; [by apply list_elem_of_further|exact Hty].
    + split; [by apply sublist_cons|]. split.
      * intros d Hd. destruct (Hfrom d Hd) as (Hu & cfg & Hin & Hfm).
        split; [exact Hu|]. exists cfg.
        split; [by apply list_elem_of_further|exact Hfm].
      * intros c cfg Hin Hfm. apply elem_of_cons in Hin as [[= -> ->]|Hin].
        -- rewrite Hb in Hfm. discriminate.
        -- by apply (Hall c cfg).
Qed.

Lemma count_type_app (c : string) (xs ys : list detection) :
  count_type c (xs ++ ys) = (count_type c xs + count_type c ys)%nat.
Proof. unfold count_type. by rewrite List.filter_app, length_app. Qed.

Lemma count_type_notin (c : string) (ds : list detection) :
  c ∉ map type ds -> count_type c ds = 0%nat.
Proof.
  unfold count_type. induction ds as [|d ds IH]; simpl; intros Hn; [done|].
  apply not_elem_of_cons in Hn as [Hne Hn].
  destruct (String.eqb_spec (type d) c); [congruence|]. by apply IH.
Qed.

Lemma count_type_NoDup (c : string) (ds : list detection) :
  NoDup (map type ds) -> (count_type c ds <= 1)%nat.
Proof.
  induction ds as [|d ds IH]; simpl; intros Hnd.
  - unfold count_type. simpl. lia.
  - apply NoDup_cons in Hnd as [Hnotin Hnd].
    unfold count_type in *. simpl.
    destruct (String.eqb_spec (type d) c) as [<-|Hne].
    + simpl. pose proof (count_type_notin (type d) ds Hnotin) as H0.
      unfold count_type in H0. rewrite H0. lia.
    + by apply IH.
Qed.

Lemma OWASP_PATTERNS_keys_NoDup : NoDup (map fst OWASP_PATTERNS).
Proof.
  apply (bool_decide_unpack _). vm_compute. exact I.
Qed.

Lemma count_type_pos (c : string) (ds : list detection) :
  (1 <= count_type c ds)%nat <-> exists d, d ∈ ds /\ type d = c.
Proof.
  unfold count_type. induction ds as [|d ds IH]; simpl.
  - split; [lia|]. intros (d & Hd & _). by apply elem_of_nil in Hd.
  - destruct (String.eqb_spec (type d) c) as [E|E]; simpl.
    + split; [|lia]. intros _. exists d. split; [apply list_elem_of_here|done].
    + rewrite IH. split.
      * intros (d' & Hd' & Hty). exists d'.
        split; [by apply list_elem_of_further|done].
      * intros (d' & Hd' & Hty). apply elem_of_cons in Hd' as [->|Hd'];
          [congruence|]. by exists d'.
Qed.

Lemma table_compiles_entry table category config :
  table_compiles table = true ->
  (category, config) ∈ table ->
  forallb compiles (patterns config) = true.
Proof.
  unfold table_compiles. rewrite forallb_forall. intros H Hin.
  apply (H (category, config)). by apply list_elem_of_In.
Qed.

Lemma NoDup_fst_lookup {A} (table : list (string * A)) k v1 v2 :
  NoDup (map fst table) -> (k, v1) ∈ table -> (k, v2) ∈ table -> v1 = v2.
Proof.
  induction table as [|[k' v'] table IH]; simpl; intros Hnd H1 H2.
  - by apply elem_of_nil in H1.
  - apply NoDup_cons in Hnd as [Hnotin Hnd].
    apply elem_of_cons in H1 as [E1|H1];
      apply elem_of_cons in H2 as [E2|H2]; simplify_eq.
    + done.
    + exfalso. apply Hnotin. apply list_elem_of_fmap. by exists (k', v2).
    + exfalso. apply Hnotin. apply list_elem_of_fmap. by exists (k', v1).
    + by apply IH.
Qed.

Lemma scan_user_agent_spec (lowered_ua : string) :
  (scan_user_agent lowered_ua = [] /\
   forall s, s ∈ SUSPICIOUS_USER_AGENTS -> contains s lowered_ua = false) \/
  (exists s,
     s ∈ SUSPICIOUS_USER_AGENTS /\ contains s lowered_ua = true /\
     scan_user_agent lowered_ua =
       [ {| type := "SCANNER"; det_code := "A05:2021";
            det_severity := "MEDIUM"; confidence := 0.95;
            ua := Some s |} ]).
Proof.
  unfold scan_user_agent.
  destruct (List.find _ SUSPICIOUS_USER_AGENTS) as [s|] eqn:E.
  - right. apply find_some in E as [Hin Hc]. exists s.
    split; [by apply list_elem_of_In|]. split; [exact Hc|reflexivity].
  - left. split; [reflexivity|]. intros s Hin.
    apply list_elem_of_In in Hin.
    pose proof (find_none _ _ E s Hin) as H. exact H.
Qed.

(** C4, as stated, fails: a request whose URL mentions sqlmap and whose
    User-Agent is sqlmap's gets two SCANNER detections, one from the
    SCANNER entry of OWASP_PATTERNS and one from the user-agent loop. *)
Lemma scanner_is_detected_twice :
  exists ds,
    detect_owasp scanner_probe "" = Ok ds /\
    count_type "SCANNER" ds = 2%nat /\
    ~ (count_type "SCANNER" ds <= 1)%nat.
Proof.
  eexists. split; [vm_compute; reflexivity|].
  split; [reflexivity|]. vm_compute. lia.
Qed.

(** C4, amended: [detect_owasp] is a function of the request's URL, query
    string, body and User-Agent (the same input gives the same list) and
    never raises.  Its result is the detections of the pattern loop followed
    by those of the user-agent loop.  The pattern loop yields at most one
    detection per category, and exactly one for a category when one of its
    patterns matches the lower-cased content (further patterns of that
    category add nothing).  The user-agent loop yields one more detection,
    of category SCANNER, when the lower-cased User-Agent contains one of
    SUSPICIOUS_USER_AGENTS, whether or not the pattern loop already
    reported SCANNER.  So every category other than SCANNER occurs at most
    once, and SCANNER at most twice. *)
Theorem detect_owasp_counts (request : request) (body : string) :
  let content :=
    PyRe.lower (url request ++ " " ++ query request ++ " " ++ body)%string in
  let lowered_ua :=
    PyRe.lower (match user_agent request with Some h => h | None => "" end) in
  (forall request' body',
     request' = request -> body' = body ->
     detect_owasp request' body' = detect_owasp request body) /\
  exists by_pattern by_ua,
    detect_owasp request body = Ok (by_pattern ++ by_ua) /\
    (forall category, (count_type category by_pattern <= 1)%nat) /\
    (forall category config,
       (category, config) ∈ OWASP_PATTERNS ->
       (count_type category by_pattern = 1%nat <->
        exists p, p ∈ patterns config /\ PyRe.search p content = Ok true)) /\
    ((by_ua = [] /\
      forall s, s ∈ SUSPICIOUS_USER_AGENTS -> contains s lowered_ua = false) \/
     (exists s,
        s ∈ SUSPICIOUS_USER_AGENTS /\ contains s lowered_ua = true /\
        by_ua = [ {| type := "SCANNER"; det_code := "A05:2021";
                     det_severity := "MEDIUM"; confidence := 0.95;
                     ua := Some s |} ])) /\
    (forall category, category <> "SCANNER" ->
       (count_type category (by_pattern ++ by_ua) <= 1)%nat) /\
    (count_type "SCANNER" (by_pattern ++ by_ua) <= 2)%nat.
Proof.
  intros content lowered_ua.
  split; [by intros ? ? -> ->|].
  destruct (scan_categories_spec OWASP_PATTERNS content OWASP_PATTERNS_compile)
    as (ds & Hds & Hsub & Hfrom & Hall).
  assert (Hone : forall category, (count_type category ds <= 1)%nat).
  { intros category. apply count_type_NoDup.
    eapply sublist_NoDup; [apply OWASP_PATTERNS_keys_NoDup|exact Hsub]. }
  exists ds, (scan_user_agent lowered_ua).
  split.
  { unfold detect_owasp. fold content. rewrite Hds. reflexivity. }
  split; [exact Hone|].
  split.
  { intros category config Hin.
    pose proof (table_compiles_entry _ _ _ OWASP_PATTERNS_compile Hin) as Hc.
    destruct (first_match_spec (patterns config) content Hc) as (b & Hb & Hiff).
    rewrite <- Hiff. split.
    - intros Hcount.
      assert (1 <= count_type category ds)%nat as Hpos by lia.
      apply count_type_pos in Hpos as (d & Hd & Hty).
      destruct (Hfrom d Hd) as (_ & config' & Hin' & Hfm).
      rewrite Hty in Hin'.
      rewrite (NoDup_fst_lookup _ _ _ _ OWASP_PATTERNS_keys_NoDup Hin Hin') in Hb.
      congruence.
    - intros ->.
      assert (1 <= count_type category ds)%nat
        by (apply count_type_pos; by apply (Hall category config)).
      specialize (Hone category). lia. }
  split; [apply scan_user_agent_spec|].
  assert (Hua : forall category,
            (count_type category (scan_user_agent lowered_ua) <=
             if String.eqb category "SCANNER" then 1 else 0)%nat).
  { intros category.
    destruct (scan_user_agent_spec lowered_ua) as [[-> _]|(s & _ & _ & ->)].
    - unfold count_type. simpl. destruct (String.eqb category "SCANNER"); lia.
    - unfold count_type. cbn [List.filter type].
      destruct (String.eqb_spec "SCANNER" category) as [<-|Hne]; [simpl; lia|].
      destruct (String.eqb_spec category "SCANNER"); simpl; [congruence|lia]. }
  split.
  - intros category Hne. rewrite count_type_app.
    specialize (Hone category). specialize (Hua category).
    apply String.eqb_neq in Hne. rewrite Hne in Hua. lia.
  - rewrite count_type_app.
    specialize (Hone "SCANNER"%string). specialize (Hua "SCANNER"%string).
    simpl in Hua. lia.
Qed.

End Detection.

Section RequestPath.
Import Waf WafMiddleware Samples Requests.
Local Open Scope Z_scope.

Lemma to_int_not_nil (z : Z) :
  Z.to_int z <> Decimal.Pos Decimal.Nil /\ Z.to_int z <> Decimal.Neg Decimal.Nil.
Proof.
  destruct z as [|p|p]; simpl; split; try discriminate;
    intros [= H]; by apply (Unsigned.to_uint_nonnil p).
Qed.

(** A counter [INCR] wrote is read back by the next [INCR]. *)
Lemma parse_print_int (z : Z) :
  RedisCmd.int64_min <= z <= RedisCmd.int64_max ->
  RedisCmd.parse_int (RedisCmd.print_int z) = Some z.
Proof.
  intros Hz. unfold RedisCmd.parse_int, RedisCmd.print_int.
  destruct (to_int_not_nil z) as [H1 H2].
  rewrite NilZero.isi by assumption.
  cbv zeta. rewrite DecimalZ.of_to, String.eqb_refl. simpl.
  destruct (Z.leb_spec RedisCmd.int64_min z); [|lia].
  destruct (Z.leb_spec z RedisCmd.int64_max); [|lia].
  reflexivity.
Qed.

Lemma detect_owasp_total (r : request) (b : string) :
  exists ds, detect_owasp r b = Ok ds.
Proof.
  unfold detect_owasp.
  destruct (scan_categories_spec OWASP_PATTERNS
              (PyRe.lower (url r ++ " " ++ query r ++ " " ++ b)%string)
              OWASP_PATTERNS_compile) as (ds & Hds & _).
  rewrite Hds. eexists. reflexivity.
Qed.

Lemma blocked_key_inj (ip ip' : string) :
  ("blocked_ip:" ++ ip)%string = ("blocked_ip:" ++ ip')%string -> ip = ip'.
Proof. cbn. by intros [=]. Qed.

Lemma blocked_key_not_ratelimit (ip ip' : string) :
  ("blocked_ip:" ++ ip)%string <> ("ratelimit:" ++ ip')%string.
Proof. cbn. discriminate. Qed.

Lemma check_rate_limit_first (cfg : config) (ip : string) (s : Redis.store) :
  redis_client cfg = true ->
  s !! ("ratelimit:" ++ ip)%string = None ->
  check_rate_limit cfg ip s =
    (1 <=? RATE_LIMIT_PER_MINUTE cfg, 1,
     <[("ratelimit:" ++ ip)%string :=
         {| Redis.value := "1"; Redis.ttl_seconds := 60 |}]> s).
Proof.
  intros Hc Hnone. unfold check_rate_limit, RedisCmd.incr.
  rewrite Hc, Hnone. cbn [negb]. rewrite Z.eqb_refl.
  unfold RedisCmd.expire, Redis.store in *. rewrite lookup_insert_eq.
  cbn [Redis.value]. by rewrite insert_insert_eq.
Qed.

Lemma check_rate_limit_next (cfg : config) (ip : string) (s : Redis.store)
    (n ttl : Z) :
  redis_client cfg = true ->
  s !! ("ratelimit:" ++ ip)%string =
    Some {| Redis.value := RedisCmd.print_int n; Redis.ttl_seconds := ttl |} ->
  1 <= n < RedisCmd.int64_max ->
  check_rate_limit cfg ip s =
    (n + 1 <=? RATE_LIMIT_PER_MINUTE cfg, n + 1,
     <[("ratelimit:" ++ ip)%string :=
         {| Redis.value := RedisCmd.print_int (n + 1);
            Redis.ttl_seconds := ttl |}]> s).
Proof.
  intros Hc Hsome Hn. unfold check_rate_limit, RedisCmd.incr.
  rewrite Hc, Hsome. cbn [negb Redis.value Redis.ttl_seconds].
  rewrite parse_print_int
    by (unfold RedisCmd.int64_min, RedisCmd.int64_max in *; lia).
  destruct (Z.ltb_spec n RedisCmd.int64_max); [|lia].
  destruct (Z.eqb_spec (n + 1) 1); [lia|]. reflexivity.
Qed.

(** [check_rate_limit] reads and writes the counter of its address only. *)
Lemma check_rate_limit_frame (cfg : config) (ip : string) (s : Redis.store)
    (key : string) :
  key <> ("ratelimit:" ++ ip)%string ->
  (check_rate_limit cfg ip s).2 !! key = s !! key.
Proof.
  intros Hne. unfold check_rate_limit, RedisCmd.incr, RedisCmd.expire.
  unfold Redis.store in *.
  destruct (redis_client cfg); cbn [negb]; [|reflexivity].
  destruct (s !! ("ratelimit:" ++ ip)%string) as [e|] eqn:E.
  - destruct (RedisCmd.parse_int (Redis.value e)) as [n|]; [|reflexivity].
    destruct (n <? RedisCmd.int64_max); [|reflexivity].
    destruct (n + 1 =? 1); cbn [snd].
    + rewrite lookup_insert_eq. by rewrite !lookup_insert_ne.
    + by rewrite lookup_insert_ne.
  - rewrite Z.eqb_refl. cbn [snd]. rewrite lookup_insert_eq.
    by rewrite !lookup_insert_ne.
Qed.

Lemma check_rate_limit_no_client (cfg : config) (ip : string)
    (s : Redis.store) :
  redis_client cfg = false -> check_rate_limit cfg ip s = (true, 0, s).
Proof. intros H. unfold check_rate_limit. by rewrite H. Qed.

(** X1: [check_rate_limit] counts the calls made for an address.  With a Redis
    client and no counter stored for the address, the call that follows [n]
    earlier ones returns the count [n + 1] and allows the request exactly
    when [n + 1] is at most RATE_LIMIT_PER_MINUTE; the counter holds the
    decimal text of [n + 1] with the time-to-live of 60 seconds that the
    first call set (later calls do not renew it), and no other key of the
    store is touched.  (Within one window: the expiry of the counter is not
    modelled.) *)
Theorem rate_limit_counts_requests
    (cfg : config) (ip : string) (s : Redis.store) (n : nat) :
  redis_client cfg = true ->
  s !! ("ratelimit:" ++ ip)%string = None ->
  Z.of_nat n < RedisCmd.int64_max ->
  let s_n := after_checks cfg ip n s in
  let '(rate_ok, count, s') := check_rate_limit cfg ip s_n in
  count = Z.of_nat n + 1 /\
  (rate_ok = true <-> Z.of_nat n + 1 <= RATE_LIMIT_PER_MINUTE cfg) /\
  s' !! ("ratelimit:" ++ ip)%string =
    Some {| Redis.value := RedisCmd.print_int (Z.of_nat n + 1);
            Redis.ttl_seconds := 60 |} /\
  (forall key, key <> ("ratelimit:" ++ ip)%string -> s' !! key = s !! key).
Proof.
  intros Hc Hnone. induction n as [|n IH]; intros Hn s_n.
  - subst s_n. simpl after_checks.
    rewrite (check_rate_limit_first cfg ip s Hc Hnone).
    unfold Redis.store in *.
    split; [reflexivity|]. split; [apply Z.leb_le|].
    split; [by rewrite lookup_insert_eq|].
    intros key Hne. by rewrite lookup_insert_ne.
  - assert (Hn' : Z.of_nat n < RedisCmd.int64_max) by lia.
    specialize (IH Hn'). cbv zeta in IH.
    subst s_n. cbn [after_checks].
    destruct (check_rate_limit cfg ip (after_checks cfg ip n s))
      as [[ok c] s1] eqn:E. cbn [snd].
    destruct IH as (_ & _ & Hentry & Hframe).
    rewrite (check_rate_limit_next cfg ip s1 (Z.of_nat n + 1) 60 Hc Hentry)
      by lia.
    replace (Z.of_nat (S n) + 1) with (Z.of_nat n + 1 + 1) by lia.
    unfold Redis.store in *.
    split; [reflexivity|]. split; [apply Z.leb_le|].
    split; [by rewrite lookup_insert_eq|].
    intros key Hne. rewrite lookup_insert_ne by done. by apply Hframe.
Qed.


Lemma rate_limit_counts_requests_witness :
  let s_n := after_checks default_config "203.0.113.7" 100 ∅ in
  let '(rate_ok, count, s') :=
    check_rate_limit default_config "203.0.113.7" s_n in
  count = Z.of_nat 100 + 1 /\
  (rate_ok = true <->
   Z.of_nat 100 + 1 <= RATE_LIMIT_PER_MINUTE default_config) /\
  s' !! "ratelimit:203.0.113.7" =
    Some {| Redis.value := RedisCmd.print_int (Z.of_nat 100 + 1);
            Redis.ttl_seconds := 60 |} /\
  (forall key, key <> "ratelimit:203.0.113.7" ->
               s' !! key = (∅ : Redis.store) !! key).
Proof.
  apply (rate_limit_counts_requests default_config "203.0.113.7" ∅ 100).
  - reflexivity.
  - reflexivity.
  - vm_compute. reflexivity.
Defined.

Lemma is_ip_blocked_Some (cfg : config) (ip : string) (s : Redis.store)
    (e : Redis.entry) :
  redis_client cfg = true ->
  s !! ("blocked_ip:" ++ ip)%string = Some e ->
  is_ip_blocked cfg ip s = (true, Some (Redis.value e)).
Proof.
  intros Hc He. unfold is_ip_blocked, RedisCmd.get. by rewrite Hc, He.
Qed.

Lemma is_ip_blocked_None (cfg : config) (ip : string) (s : Redis.store) :
  s !! ("blocked_ip:" ++ ip)%string = None ->
  is_ip_blocked cfg ip s = (false, None).
Proof.
  intros He. unfold is_ip_blocked, RedisCmd.get. rewrite He.
  by destruct (redis_client cfg).
Qed.

Lemma is_ip_blocked_false (cfg : config) (ip : string) (s : Redis.store) :
  (is_ip_blocked cfg ip s).1 = false ->
  is_ip_blocked cfg ip s = (false, None).
Proof.
  unfold is_ip_blocked, RedisCmd.get.
  destruct (redis_client cfg); cbn [negb]; [|done].
  by destruct (s !! _).
Qed.

Lemma path_is_not_health (req : http_request) :
  path req <> "/health"%string -> String.eqb (path req) "/health" = false.
Proof. intros H. by apply String.eqb_neq. Qed.

(** The answer to a request from a denied address. *)
Lemma blocked_address_is_denied (cfg : config) (upstream_status : Z)
    (req : http_request) (st : state) (e : Redis.entry) :
  redis_client cfg = true ->
  path req <> "/health"%string ->
  redis st !! ("blocked_ip:" ++ client_ip_of req)%string = Some e ->
  waf_middleware cfg upstream_status req st =
    Ok (AccessDenied,
        {| redis := redis st;
           sent := sent st ++
             [{| ev_client_ip := client_ip_of req;
                 ev_is_blocked := true;
                 ev_is_suspicious := None;
                 ev_block_reason := Some (Redis.value e);
                 ev_waf_rules_triggered := ["IP_BLOCKED"%string];
                 ev_owasp_detections := [];
                 ev_status_code := None |}] |}).
Proof.
  intros Hc Hp He. unfold waf_middleware.
  rewrite (path_is_not_health req Hp).
  by rewrite (is_ip_blocked_Some cfg _ _ e Hc He).
Qed.

Lemma waf_middleware_without_redis
    (cfg : config) (upstream_status : Z) (req : http_request) (st : state) :
  redis_client cfg = false ->
  response_of (waf_middleware cfg upstream_status req st)
    <> Some AccessDenied.
Proof.
  intros Hc. unfold waf_middleware.
  destruct (String.eqb (path req) "/health"); [cbn; discriminate|].
  unfold is_ip_blocked. rewrite Hc. cbn [negb].
  rewrite (check_rate_limit_no_client cfg _ _ Hc). cbn [negb andb].
  destruct (detect_owasp_total (target req) (body req)) as [ds Hds].
  rewrite Hds. cbn [mbind result_bind].
  destruct (_ && _ && _); cbn; discriminate.
Qed.

(** X2: without a Redis client the middleware fails open.  Whatever the mode,
    the request and the store, it returns (it does not raise), leaves the
    store as it was, and answers neither "Access Denied" nor "Too Many
    Requests": a request is either forwarded or, on a detection in block or
    strict mode, answered "Request Blocked", and that block is not
    remembered. *)
Theorem without_redis_nothing_is_denied
    (cfg : config) (upstream_status : Z) (req : http_request) (st : state) :
  redis_client cfg = false ->
  exists resp st',
    waf_middleware cfg upstream_status req st = Ok (resp, st') /\
    redis st' = redis st /\
    resp <> AccessDenied /\ resp <> TooManyRequests.
Proof.
  intros Hc. unfold waf_middleware.
  destruct (String.eqb (path req) "/health").
  { by eexists _, _. }
  unfold is_ip_blocked. rewrite Hc. cbn [negb].
  rewrite (check_rate_limit_no_client cfg _ _ Hc). cbn [negb andb].
  destruct (detect_owasp_total (target req) (body req)) as [ds Hds].
  rewrite Hds. cbn [mbind result_bind].
  unfold block_ip.
  destruct (_ && _ && _); by eexists _, _.
Qed.

Lemma without_redis_nothing_is_denied_witness :
  exists resp st',
    waf_middleware block_mode_without_redis 200 injection_request fresh_state
      = Ok (resp, st') /\
    redis st' = redis fresh_state /\
    resp <> AccessDenied /\ resp <> TooManyRequests.
Proof.
  apply (without_redis_nothing_is_denied block_mode_without_redis 200
           injection_request fresh_state).
  reflexivity.
Defined.

(** X3: in every mode other than "block" and "strict" (audit, or any other
    text the variable holds) a request from an address that is not denied is
    forwarded, whatever [detect_owasp] finds and whatever the rate counter
    says.  The event handed to ingestion carries is_blocked = false, the
    detections, their types as the rules triggered, is_suspicious = true
    exactly when there is a detection, and the status of the upstream
    response; no deny entry is written or changed. *)
Theorem audit_mode_never_blocks
    (cfg : config) (upstream_status : Z) (req : http_request) (st : state) :
  in_block_or_strict cfg = false ->
  path req <> "/health"%string ->
  (is_ip_blocked cfg (client_ip_of req) (redis st)).1 = false ->
  exists ds ev st',
    detect_owasp (target req) (body req) = Ok ds /\
    waf_middleware cfg upstream_status req st
      = Ok (Forwarded upstream_status, st') /\
    sent st' = sent st ++ [ev] /\
    ev_is_blocked ev = false /\
    (ev_is_suspicious ev = Some true <-> ds <> []) /\
    ev_owasp_detections ev = ds /\
    ev_waf_rules_triggered ev = map type ds /\
    ev_status_code ev = Some upstream_status /\
    (forall ip, redis st' !! ("blocked_ip:" ++ ip)%string
                = redis st !! ("blocked_ip:" ++ ip)%string).
Proof.
  intros Hmode Hp Hb.
  destruct (detect_owasp_total (target req) (body req)) as [ds Hds].
  unfold waf_middleware. rewrite (path_is_not_health req Hp).
  rewrite (is_ip_blocked_false _ _ _ Hb).
  destruct (check_rate_limit cfg (client_ip_of req) (redis st))
    as [[rate_ok count] s1] eqn:E.
  rewrite Hmode, Hds. cbn [mbind result_bind].
  rewrite !andb_false_r. cbn [andb].
  eexists ds, _, _. split; [reflexivity|]. split; [reflexivity|].
  cbn [sent redis ev_is_blocked ev_is_suspicious ev_owasp_detections
       ev_waf_rules_triggered ev_status_code].
  split; [reflexivity|]. split; [reflexivity|].
  split; [by destruct ds|]. split; [reflexivity|]. split; [reflexivity|].
  split; [reflexivity|].
  intros ip. replace s1 with
    (check_rate_limit cfg (client_ip_of req) (redis st)).2 by by rewrite E.
  apply check_rate_limit_frame, blocked_key_not_ratelimit.
Qed.

Lemma audit_mode_never_blocks_witness :
  exists ds ev st',
    detect_owasp (target injection_request) (body injection_request)
      = Ok ds /\
    waf_middleware default_config 200 injection_request fresh_state
      = Ok (Forwarded 200, st') /\
    sent st' = sent fresh_state ++ [ev] /\
    ev_is_blocked ev = false /\
    (ev_is_suspicious ev = Some true <-> ds <> []) /\
    ev_owasp_detections ev = ds /\
    ev_waf_rules_triggered ev = map type ds /\
    ev_status_code ev = Some 200 /\
    (forall ip, redis st' !! ("blocked_ip:" ++ ip)%string
                = redis fresh_state !! ("blocked_ip:" ++ ip)%string).
Proof.
  apply (audit_mode_never_blocks default_config 200 injection_request
           fresh_state).
  - reflexivity.
  - discriminate.
  - reflexivity.
Defined.

(** X5: a request answered "Request Blocked" bans its address.  When the WAF
    has a Redis client, the answer leaves a deny entry for the client
    address whose reason is "OWASP: " followed by the first rule and whose
    time-to-live is 7200 seconds; while that entry is there, any further
    request from the address (other than for /health), harmless or not and
    in any mode, is answered "Access Denied" without being inspected, and
    the event sent for it names the rule IP_BLOCKED and that reason. *)
Theorem blocked_request_bans_the_address
    (cfg cfg' : config) (upstream_status upstream_status' : Z)
    (req req' : http_request) (st st' : state) (rules : list string) :
  redis_client cfg = true ->
  waf_middleware cfg upstream_status req st
    = Ok (RequestBlocked rules, st') ->
  redis_client cfg' = true ->
  path req' <> "/health"%string ->
  client_ip_of req' = client_ip_of req ->
  exists rule rest ev,
    rules = rule :: rest /\
    redis st' !! ("blocked_ip:" ++ client_ip_of req)%string =
      Some {| Redis.value := "OWASP: " ++ rule;
              Redis.ttl_seconds := 7200 |} /\
    waf_middleware cfg' upstream_status' req' st' =
      Ok (AccessDenied,
          {| redis := redis st'; sent := sent st' ++ [ev] |}) /\
    ev_client_ip ev = client_ip_of req /\
    ev_block_reason ev = Some ("OWASP: " ++ rule)%string /\
    ev_waf_rules_triggered ev = ["IP_BLOCKED"%string].
Proof.
  intros Hc Hrun Hc' Hp' Hip.
  assert (Hentry : exists rule rest,
            rules = rule :: rest /\
            redis st' !! ("blocked_ip:" ++ client_ip_of req)%string =
              Some {| Redis.value := "OWASP: " ++ rule;
                      Redis.ttl_seconds := 7200 |}).
  { revert Hrun. unfold waf_middleware.
    destruct (String.eqb (path req) "/health"); [discriminate|].
    destruct (is_ip_blocked cfg (client_ip_of req) (redis st))
      as [[] reason]; [discriminate|].
    destruct (check_rate_limit cfg (client_ip_of req) (redis st))
      as [[rate_ok count] s1].
    destruct (negb rate_ok && in_block_or_strict cfg); [discriminate|].
    destruct (detect_owasp (target req) (body req)) as [ds|];
      [|discriminate].
    cbn [mbind result_bind].
    destruct ds as [|d ds]; [cbn; discriminate|].
    destruct (_ && _ && _); [|discriminate].
    intros [= <- <-]. exists (type d), (map type ds).
    split; [reflexivity|]. cbn [redis]. unfold block_ip, Redis.setex.
    rewrite Hc. unfold Redis.store in *. by rewrite lookup_insert_eq. }
  destruct Hentry as (rule & rest & -> & Hentry).
  exists rule, rest. eexists. split; [reflexivity|]. split; [exact Hentry|].
  rewrite <- Hip in Hentry.
  rewrite (blocked_address_is_denied cfg' upstream_status' req' st' _
             Hc' Hp' Hentry).
  cbn [ev_client_ip ev_block_reason ev_waf_rules_triggered Redis.value].
  by rewrite Hip.
Qed.

Lemma blocked_request_bans_the_address_witness :
  exists rule rest ev,
    ["SQL_INJECTION"%string] = rule :: rest /\
    redis (after_request block_mode 200 injection_request fresh_state)
      !! ("blocked_ip:" ++ client_ip_of injection_request)%string =
      Some {| Redis.value := "OWASP: " ++ rule;
              Redis.ttl_seconds := 7200 |} /\
    waf_middleware default_config 200 plain_request
      (after_request block_mode 200 injection_request fresh_state) =
      Ok (AccessDenied,
          {| redis :=
               redis (after_request block_mode 200 injection_request
                        fresh_state);
             sent :=
               sent (after_request block_mode 200 injection_request
                       fresh_state) ++ [ev] |}) /\
    ev_client_ip ev = client_ip_of injection_request /\
    ev_block_reason ev = Some ("OWASP: " ++ rule)%string /\
    ev_waf_rules_triggered ev = ["IP_BLOCKED"%string].
Proof.
  apply (blocked_request_bans_the_address block_mode default_config 200 200
           injection_request plain_request fresh_state).
  - reflexivity.
  - vm_compute. reflexivity.
  - reflexivity.
  - discriminate.
  - vm_compute. reflexivity.
Defined.

(** X6: in block or strict mode, the request that [check_rate_limit] refuses
    is answered "Too Many Requests"; no event is handed to ingestion for it,
    a deny entry "Rate limit exceeded" with a time-to-live of 900 seconds is
    written for the address, and the next request from the address is
    answered "Access Denied" with that reason. *)
Theorem exceeding_the_rate_limit_bans_the_address
    (cfg cfg' : config) (upstream_status upstream_status' : Z)
    (req req' : http_request) (st : state) :
  in_block_or_strict cfg = true ->
  path req <> "/health"%string ->
  (is_ip_blocked cfg (client_ip_of req) (redis st)).1 = false ->
  (check_rate_limit cfg (client_ip_of req) (redis st)).1.1 = false ->
  redis_client cfg' = true ->
  path req' <> "/health"%string ->
  client_ip_of req' = client_ip_of req ->
  exists st' ev,
    waf_middleware cfg upstream_status req st = Ok (TooManyRequests, st') /\
    sent st' = sent st /\
    redis st' !! ("blocked_ip:" ++ client_ip_of req)%string =
      Some {| Redis.value := "Rate limit exceeded";
              Redis.ttl_seconds := 900 |} /\
    waf_middleware cfg' upstream_status' req' st' =
      Ok (AccessDenied, {| redis := redis st'; sent := sent st ++ [ev] |}) /\
    ev_block_reason ev = Some "Rate limit exceeded"%string /\
    ev_waf_rules_triggered ev = ["IP_BLOCKED"%string].
Proof.
  intros Hmode Hp Hb Hrate Hc' Hp' Hip.
  assert (Hc : redis_client cfg = true).
  { destruct (redis_client cfg) eqn:E; [done|].
    by rewrite (check_rate_limit_no_client cfg _ _ E) in Hrate. }
  destruct (check_rate_limit cfg (client_ip_of req) (redis st))
    as [[rate_ok count] s1] eqn:E. cbn [fst] in Hrate. subst rate_ok.
  assert (Hrun : waf_middleware cfg upstream_status req st =
            Ok (TooManyRequests,
                {| redis := block_ip true (client_ip_of req)
                              "Rate limit exceeded" 15 s1;
                   sent := sent st |})).
  { unfold waf_middleware. rewrite (path_is_not_health req Hp).
    rewrite (is_ip_blocked_false _ _ _ Hb), E, Hmode, Hc. reflexivity. }
  assert (Hentry :
            block_ip true (client_ip_of req) "Rate limit exceeded" 15 s1
              !! ("blocked_ip:" ++ client_ip_of req)%string =
            Some {| Redis.value := "Rate limit exceeded";
                    Redis.ttl_seconds := 900 |}).
  { unfold block_ip, Redis.setex, Redis.store in *.
    by rewrite lookup_insert_eq. }
  eexists _, _. split; [exact Hrun|]. cbn [sent redis].
  split; [reflexivity|]. split; [exact Hentry|].
  assert (Hentry' :
            redis {| redis := block_ip true (client_ip_of req)
                                "Rate limit exceeded" 15 s1;
                     sent := sent st |}
              !! ("blocked_ip:" ++ client_ip_of req')%string =
            Some {| Redis.value := "Rate limit exceeded";
                    Redis.ttl_seconds := 900 |})
    by (rewrite Hip; exact Hentry).
  rewrite (blocked_address_is_denied cfg' upstream_status' req' _ _
             Hc' Hp' Hentry').
  split; [reflexivity|]. split; reflexivity.
Qed.

Lemma exceeding_the_rate_limit_bans_the_address_witness :
  exists st' ev,
    waf_middleware block_mode 200 plain_request busy_state
      = Ok (TooManyRequests, st') /\
    sent st' = sent busy_state /\
    redis st' !! ("blocked_ip:" ++ client_ip_of plain_request)%string =
      Some {| Redis.value := "Rate limit exceeded";
              Redis.ttl_seconds := 900 |} /\
    waf_middleware default_config 200 plain_request st' =
      Ok (AccessDenied,
          {| redis := redis st'; sent := sent busy_state ++ [ev] |}) /\
    ev_block_reason ev = Some "Rate limit exceeded"%string /\
    ev_waf_rules_triggered ev = ["IP_BLOCKED"%string].
Proof.
  apply (exceeding_the_rate_limit_bans_the_address block_mode default_config
           200 200 plain_request plain_request busy_state).
  - reflexivity.
  - discriminate.
  - vm_compute. reflexivity.
  - vm_compute. reflexivity.
  - reflexivity.
  - discriminate.
  - reflexivity.
Defined.

(** X7: [admin_block_ip] and [admin_unblock_ip] against the middleware.  For a
    duration that is a positive 32-bit integer, [admin_block_ip] stores the
    reason under the address with duration_minutes * 60 seconds; a request
    from the address is then answered "Access Denied", in audit mode too,
    and its event carries the reason; other addresses are unaffected.
    [admin_unblock_ip] removes the entry: the address is no longer denied,
    and if it had no entry before the block the store is exactly what it
    was. *)
Theorem admin_block_then_unblock
    (cfg : config) (ip reason : string) (duration_minutes : Z)
    (s : Redis.store) (upstream_status : Z) (req : http_request)
    (events : list ingest_event) :
  redis_client cfg = true ->
  0 < duration_minutes <= Schema.int4_max ->
  path req <> "/health"%string ->
  client_ip_of req = ip ->
  let s1 := admin_block_ip (redis_client cfg) ip reason duration_minutes s in
  let s2 := admin_unblock_ip (redis_client cfg) ip s1 in
  s1 !! ("blocked_ip:" ++ ip)%string =
    Some {| Redis.value := reason;
            Redis.ttl_seconds := duration_minutes * 60 |} /\
  (exists ev,
     waf_middleware cfg upstream_status req {| redis := s1; sent := events |}
       = Ok (AccessDenied, {| redis := s1; sent := events ++ [ev] |}) /\
     ev_block_reason ev = Some reason) /\
  (forall ip', ip' <> ip ->
     is_ip_blocked cfg ip' s1 = is_ip_blocked cfg ip' s) /\
  is_ip_blocked cfg ip s2 = (false, None) /\
  response_of (waf_middleware cfg upstream_status req
                 {| redis := s2; sent := events |}) <> Some AccessDenied /\
  (s !! ("blocked_ip:" ++ ip)%string = None -> s2 = s).
Proof.
  intros Hc Hd Hp Hip s1 s2. subst s1 s2.
  unfold admin_block_ip, admin_unblock_ip, block_ip, Redis.setex, Redis.del.
  rewrite Hc. unfold Redis.store in *.
  assert (Hentry :
    <[("blocked_ip:" ++ ip)%string :=
        {| Redis.value := reason;
           Redis.ttl_seconds := duration_minutes * 60 |}]> s
      !! ("blocked_ip:" ++ client_ip_of req)%string =
    Some {| Redis.value := reason;
            Redis.ttl_seconds := duration_minutes * 60 |}).
  { rewrite Hip. by rewrite lookup_insert_eq. }
  split; [by rewrite lookup_insert_eq|].
  split.
  { eexists.
    rewrite (blocked_address_is_denied cfg upstream_status req
               {| redis := <[("blocked_ip:" ++ ip)%string := _]> s;
                  sent := events |} _ Hc Hp Hentry).
    split; reflexivity. }
  split.
  { intros ip' Hne. unfold is_ip_blocked, RedisCmd.get, Redis.store.
    rewrite Hc. cbn [negb]. rewrite lookup_insert_ne; [done|].
    intros Heq. by apply blocked_key_inj in Heq. }
  assert (Hgone :
    is_ip_blocked cfg ip
      (delete ("blocked_ip:" ++ ip)%string
         (<[("blocked_ip:" ++ ip)%string :=
              {| Redis.value := reason;
                 Redis.ttl_seconds := duration_minutes * 60 |}]> s))
    = (false, None)).
  { apply is_ip_blocked_None. unfold Redis.store.
    by rewrite lookup_delete_eq. }
  split; [exact Hgone|].
  split.
  { unfold waf_middleware. rewrite (path_is_not_health req Hp).
    cbn [redis]. rewrite Hip, Hgone.
    destruct (check_rate_limit _ _ _) as [[rate_ok count] s1].
    destruct (negb rate_ok && _); [cbn; discriminate|].
    destruct (detect_owasp_total (target req) (body req)) as [ds Hds].
    rewrite Hds. cbn [mbind result_bind].
    destruct (_ && _ && _); cbn; discriminate. }
  intros Hnone. rewrite delete_insert_eq. by apply delete_id.
Qed.

Lemma admin_block_then_unblock_witness :
  let s1 :=
    admin_block_ip (redis_client default_config) "203.0.113.9"
      "Manual block" 60 ∅ in
  let s2 :=
    admin_unblock_ip (redis_client default_config) "203.0.113.9" s1 in
  s1 !! ("blocked_ip:" ++ "203.0.113.9")%string =
    Some {| Redis.value := "Manual block";
            Redis.ttl_seconds := 60 * 60 |} /\
  (exists ev,
     waf_middleware default_config 200 plain_request
       {| redis := s1; sent := [] |}
       = Ok (AccessDenied, {| redis := s1; sent := [] ++ [ev] |}) /\
     ev_block_reason ev = Some "Manual block"%string) /\
  (forall ip', ip' <> "203.0.113.9"%string ->
     is_ip_blocked default_config ip' s1
       = is_ip_blocked default_config ip' ∅) /\
  is_ip_blocked default_config "203.0.113.9" s2 = (false, None) /\
  response_of (waf_middleware default_config 200 plain_request
                 {| redis := s2; sent := [] |}) <> Some AccessDenied /\
  ((∅ : Redis.store) !! ("blocked_ip:" ++ "203.0.113.9")%string = None ->
   s2 = ∅).
Proof.
  apply (admin_block_then_unblock default_config "203.0.113.9"
           "Manual block" 60 ∅ 200 plain_request []).
  - reflexivity.
  - vm_compute. split; [reflexivity|discriminate].
  - discriminate.
  - vm_compute. reflexivity.
Defined.

(** [check_rate_limit] commutes with a write to any other key. *)
Lemma check_rate_limit_insert (cfg : config) (ip : string) (s : Redis.store)
    (key : string) (e : Redis.entry) :
  key <> ("ratelimit:" ++ ip)%string ->
  check_rate_limit cfg ip (<[key := e]> s) =
    ((check_rate_limit cfg ip s).1,
     <[key := e]> (check_rate_limit cfg ip s).2).
Proof.
  intros Hne. unfold check_rate_limit, RedisCmd.incr, RedisCmd.expire.
  unfold Redis.store in *.
  destruct (redis_client cfg); cbn [negb]; [|reflexivity].
  rewrite lookup_insert_ne by done.
  destruct (s !! ("ratelimit:" ++ ip)%string) as [e0|] eqn:E.
  - destruct (RedisCmd.parse_int (Redis.value e0)) as [n|]; [|reflexivity].
    destruct (n <? RedisCmd.int64_max); [|reflexivity].
    destruct (n + 1 =? 1); cbn [fst snd].
    + rewrite !lookup_insert_eq. f_equal.
      rewrite !insert_insert_eq. by rewrite insert_insert_ne.
    + f_equal. by rewrite insert_insert_ne.
  - rewrite Z.eqb_refl. cbn [fst snd]. rewrite !lookup_insert_eq.
    f_equal. rewrite !insert_insert_eq. by rewrite insert_insert_ne.
Qed.

(** The middleware reads and writes two keys of the store, the deny entry
    and the counter of the client address: a write to any other key
    commutes with it. *)
Lemma waf_middleware_local (cfg : config) (upstream_status : Z)
    (req : http_request) (st : state) (key : string) (e : Redis.entry) :
  key <> ("blocked_ip:" ++ client_ip_of req)%string ->
  key <> ("ratelimit:" ++ client_ip_of req)%string ->
  waf_middleware cfg upstream_status req
    {| redis := <[key := e]> (redis st); sent := sent st |} =
  match waf_middleware cfg upstream_status req st with
  | Ok (resp, st') =>
      Ok (resp, {| redis := <[key := e]> (redis st'); sent := sent st' |})
  | Raise x => Raise x
  end.
Proof.
  intros Hb Hr. unfold waf_middleware.
  destruct (String.eqb (path req) "/health"); [reflexivity|].
  cbn [redis sent].
  assert (Hblocked :
    is_ip_blocked cfg (client_ip_of req) (<[key := e]> (redis st)) =
    is_ip_blocked cfg (client_ip_of req) (redis st)).
  { unfold is_ip_blocked, RedisCmd.get, Redis.store.
    by rewrite lookup_insert_ne. }
  rewrite Hblocked.
  destruct (is_ip_blocked cfg (client_ip_of req) (redis st))
    as [[] reason]; [reflexivity|].
  rewrite (check_rate_limit_insert cfg _ _ key e Hr).
  destruct (check_rate_limit cfg (client_ip_of req) (redis st))
    as [[rate_ok count] s1]. cbn [fst snd].
  assert (Hblock : forall reason minutes,
    block_ip (redis_client cfg) (client_ip_of req) reason minutes
      (<[key := e]> s1) =
    <[key := e]>
      (block_ip (redis_client cfg) (client_ip_of req) reason minutes s1)).
  { intros. unfold block_ip, Redis.setex, Redis.store in *.
    destruct (redis_client cfg); [|reflexivity].
    by rewrite insert_insert_ne. }
  destruct (negb rate_ok && in_block_or_strict cfg).
  { by rewrite Hblock. }
  destruct (detect_owasp (target req) (body req)) as [ds|x];
    [|reflexivity].
  cbn [mbind result_bind].
  destruct (_ && _ && _); [|reflexivity].
  by rewrite Hblock.
Qed.

Lemma waf_middleware_sent_irrelevant (cfg : config) (upstream_status : Z)
    (req : http_request) (s : Redis.store) (events : list ingest_event) :
  response_of (waf_middleware cfg upstream_status req
                 {| redis := s; sent := events |}) =
  response_of (waf_middleware cfg upstream_status req
                 {| redis := s; sent := [] |}).
Proof.
  unfold waf_middleware. cbn [redis sent].
  destruct (String.eqb (path req) "/health"); [reflexivity|].
  destruct (is_ip_blocked cfg (client_ip_of req) s) as [[] reason];
    [reflexivity|].
  destruct (check_rate_limit cfg (client_ip_of req) s)
    as [[rate_ok count] s1].
  destruct (negb rate_ok && in_block_or_strict cfg); [reflexivity|].
  destruct (detect_owasp (target req) (body req)) as [ds|x];
    [|reflexivity].
  cbn [mbind result_bind].
  by destruct (_ && _ && _).
Qed.

(** X9: the markers the SOAR engine writes for CAPTCHA and RATE_LIMIT are not
    read by the WAF.  For a duration that is a positive 32-bit integer,
    [execute_action] reports RATE_LIMIT (and CAPTCHA, when enabled) as
    executed, and the answer of the middleware to any request, in any mode,
    is the same with the store [execute_action] leaves as with the store
    before it. *)
Theorem captcha_and_rate_limit_markers_are_not_enforced
    (scfg : Soar.config) (w : Soar.waf) (action_type target_ip : string)
    (duration_minutes : Z) (s : Redis.store)
    (cfg : config) (upstream_status : Z) (req : http_request)
    (events : list ingest_event) :
  action_type = "CAPTCHA"%string \/ action_type = "RATE_LIMIT"%string ->
  0 < duration_minutes <= Schema.int4_max ->
  let '(result, s') :=
    Soar.execute_action scfg w action_type target_ip duration_minutes s in
  (action_type = "RATE_LIMIT"%string \/ Soar.ENABLE_CAPTCHA scfg = true ->
   Soar.executed result = true) /\
  response_of (waf_middleware cfg upstream_status req
                 {| redis := s'; sent := events |}) =
  response_of (waf_middleware cfg upstream_status req
                 {| redis := s; sent := events |}).
Proof.
  intros Ha Hd.
  assert (Hlocal : forall key e,
    key <> ("blocked_ip:" ++ client_ip_of req)%string ->
    key <> ("ratelimit:" ++ client_ip_of req)%string ->
    response_of (waf_middleware cfg upstream_status req
                   {| redis := <[key := e]> s; sent := events |}) =
    response_of (waf_middleware cfg upstream_status req
                   {| redis := s; sent := events |})).
  { intros key e Hb Hr.
    pose proof (waf_middleware_local cfg upstream_status req
                  {| redis := s; sent := events |} key e Hb Hr) as H.
    cbn [redis sent] in H. rewrite H. clear H.
    destruct (waf_middleware cfg upstream_status req
                {| redis := s; sent := events |}) as [[resp st']|x];
      reflexivity. }
  unfold Soar.execute_action.
  destruct Ha as [-> | ->]; cbn [String.eqb Ascii.eqb Bool.eqb andb].
  - destruct (Soar.ENABLE_CAPTCHA scfg); cbn [Soar.executed].
    + split; [done|]. destruct (Soar.redis_client scfg); [|reflexivity].
      apply Hlocal; cbn; discriminate.
    + split; [by intros [|]|]. reflexivity.
  - cbn [Soar.executed]. split; [done|].
    destruct (Soar.redis_client scfg); [|reflexivity].
    apply Hlocal; cbn; discriminate.
Qed.

Lemma captcha_and_rate_limit_markers_are_not_enforced_witness :
  let '(result, s') :=
    Soar.execute_action Soar.default_config waf_up "CAPTCHA" "203.0.113.9"
      30 ∅ in
  ("CAPTCHA"%string = "RATE_LIMIT"%string \/
   Soar.ENABLE_CAPTCHA Soar.default_config = true ->
   Soar.executed result = true) /\
  response_of (waf_middleware block_mode 200 injection_request
                 {| redis := s'; sent := [] |}) =
  response_of (waf_middleware block_mode 200 injection_request
                 {| redis := ∅; sent := [] |}).
Proof.
  apply (captcha_and_rate_limit_markers_are_not_enforced Soar.default_config
           waf_up "CAPTCHA" "203.0.113.9" 30 ∅ block_mode 200
           injection_request []).
  - left. reflexivity.
  - vm_compute. split; [reflexivity|discriminate].
Defined.

(** What a detection of the pattern loop carries. *)
Lemma scan_categories_fields (table : list (string * pattern_config))
    (content : string) (ds : list detection) :
  scan_categories table content = Ok ds ->
  forall d, d ∈ ds ->
    exists config,
      (type d, config) ∈ table /\
      det_code d = code config /\
      det_severity d = severity config /\
      confidence d = 0.9%Q /\
      ua d = None.
Proof.
  revert ds. induction table as [|[category config] table IH];
    simpl; intros ds Hds d Hd.
  - injection Hds as <-. by apply elem_of_nil in Hd.
  - destruct (first_match (patterns config) content) as [found|];
      [|discriminate].
    simpl in Hds.
    destruct (scan_categories table content) as [rest|]; [|discriminate].
    simpl in Hds. injection Hds as <-.
    assert (Hrest : d ∈ rest ->
              exists config0, (type d, config0) ∈ (category, config) :: table
                /\ det_code d = code config0
                /\ det_severity d = severity config0
                /\ confidence d = 0.9%Q /\ ua d = None).
    { intros Hin. destruct (IH rest eq_refl d Hin) as (c & Hc & Hrest).
      exists c. split; [by apply list_elem_of_further|exact Hrest]. }
    destruct found; [|by apply Hrest].
    apply elem_of_cons in Hd as [->|Hd]; [|by apply Hrest].
    exists config. cbn. split; [apply list_elem_of_here|done].
Qed.

Lemma OWASP_PATTERNS_critical (category : string) (config : pattern_config) :
  (category, config) ∈ OWASP_PATTERNS ->
  (severity config = "CRITICAL"%string <->
   category = "SQL_INJECTION"%string \/
   category = "COMMAND_INJECTION"%string).
Proof.
  unfold OWASP_PATTERNS. intros H.
  repeat (apply elem_of_cons in H as [H|H];
          [injection H as -> ->; cbn [severity];
           split; [intros ?|intros [?|?]]; first [discriminate|auto]|]).
  by apply elem_of_nil in H.
Qed.

Lemma detect_owasp_cases (request : request) (body : string)
    (ds : list detection) :
  detect_owasp request body = Ok ds ->
  forall d, d ∈ ds ->
    (exists config,
       (type d, config) ∈ OWASP_PATTERNS /\
       det_code d = code config /\
       det_severity d = severity config /\
       confidence d = 0.9%Q /\ ua d = None) \/
    (type d = "SCANNER"%string /\ det_code d = "A05:2021"%string /\
     det_severity d = "MEDIUM"%string /\ confidence d = 0.95%Q /\
     exists s, s ∈ SUSPICIOUS_USER_AGENTS /\ ua d = Some s).
Proof.
  unfold detect_owasp.
  set (content :=
         PyRe.lower (url request ++ " " ++ query request ++ " " ++ body)%string).
  set (lowered_ua :=
         PyRe.lower
           (match user_agent request with Some h => h | None => "" end)).
  destruct (scan_categories OWASP_PATTERNS content) as [by_pattern|] eqn:Hscan;
    [|discriminate].
  cbn [mbind result_bind]. intros [= <-] d Hd.
  apply elem_of_app in Hd as [Hd|Hd].
  - left. by apply (scan_categories_fields _ _ _ Hscan).
  - right.
    destruct (scan_user_agent_spec lowered_ua)
      as [[Hnil _]|(s & Hs & _ & Hone)].
    + rewrite Hnil in Hd. by apply elem_of_nil in Hd.
    + rewrite Hone in Hd. apply list_elem_of_singleton in Hd as ->.
      cbn. repeat split. by exists s.
Qed.

Lemma detection_is_critical (request : request) (body : string)
    (ds : list detection) (d : detection) :
  detect_owasp request body = Ok ds ->
  d ∈ ds ->
  (det_severity d = "CRITICAL"%string <->
   type d = "SQL_INJECTION"%string \/ type d = "COMMAND_INJECTION"%string).
Proof.
  intros Hds Hd.
  destruct (detect_owasp_cases request body ds Hds d Hd) as
    [(config & Hin & _ & Hsev & _)|(Hty & _ & Hsev & _)].
  - rewrite Hsev. by apply OWASP_PATTERNS_critical.
  - rewrite Hsev, Hty. split; [discriminate|]. intros [|]; discriminate.
Qed.

Lemma critical_iff_injection (request : request) (body : string)
    (ds : list detection) :
  detect_owasp request body = Ok ds ->
  existsb (fun d => String.eqb (det_severity d) "CRITICAL") ds = true <->
  exists d, d ∈ ds /\ (type d = "SQL_INJECTION"%string \/
                       type d = "COMMAND_INJECTION"%string).
Proof.
  intros Hds.
  pose proof (detection_is_critical request body ds) as Hcrit.
  rewrite existsb_exists. split.
  - intros (d & Hin & Heq). apply list_elem_of_In in Hin.
    exists d. split; [exact Hin|]. apply Hcrit; [exact Hds|exact Hin|].
    by apply String.eqb_eq.
  - intros (d & Hin & Hty). exists d.
    split; [by apply list_elem_of_In|].
    apply String.eqb_eq. by apply Hcrit.
Qed.

(** X10: [detect_owasp] returns its detections in the order of [OWASP_PATTERNS],
    the user-agent detection last, so the first one (the one named in the
    reason of a ban) belongs to the earliest matching category.  Every
    detection of the pattern loop carries the code and severity of its
    table entry, confidence 0.9 and no [ua]; the user-agent detection is
    SCANNER / A05:2021 / MEDIUM with confidence 0.95 and the matched name.
    Hence a detection has severity CRITICAL exactly when its type is
    SQL_INJECTION or COMMAND_INJECTION. *)
Theorem detections_follow_the_table (request : request) (body : string) :
  exists ds,
    detect_owasp request body = Ok ds /\
    sublist (map type ds) (map fst OWASP_PATTERNS ++ ["SCANNER"%string]) /\
    (forall d, d ∈ ds ->
       (exists config,
          (type d, config) ∈ OWASP_PATTERNS /\
          det_code d = code config /\
          det_severity d = severity config /\
          confidence d = 0.9%Q /\ ua d = None) \/
       (type d = "SCANNER"%string /\ det_code d = "A05:2021"%string /\
        det_severity d = "MEDIUM"%string /\ confidence d = 0.95%Q /\
        exists s, s ∈ SUSPICIOUS_USER_AGENTS /\ ua d = Some s)) /\
    (forall d, d ∈ ds ->
       (det_severity d = "CRITICAL"%string <->
        type d = "SQL_INJECTION"%string \/
        type d = "COMMAND_INJECTION"%string)).
Proof.
  destruct (detect_owasp_total request body) as [ds Hds].
  exists ds. split; [exact Hds|].
  split.
  { revert Hds. unfold detect_owasp.
    destruct (scan_categories_spec OWASP_PATTERNS
                (PyRe.lower (url request ++ " " ++ query request ++ " "
                             ++ body)%string)
                OWASP_PATTERNS_compile) as (by_pattern & Hscan & Hsub & _).
    rewrite Hscan. cbn [mbind result_bind]. intros [= <-].
    rewrite map_app. apply sublist_app; [exact Hsub|].
    destruct (scan_user_agent_spec
                (PyRe.lower match user_agent request with
                            | Some h => h | None => "" end))
      as [[-> _]|(s & _ & _ & ->)]; cbn.
    - apply sublist_nil_l.
    - reflexivity. }
  split; [exact (detect_owasp_cases request body ds Hds)|].
  intros d Hd. exact (detection_is_critical request body ds d Hds Hd).
Qed.

(** X4: the blocking decision.  For a request that is not for /health, from an
    address that is not denied and not stopped by the rate limit, the
    middleware answers "Request Blocked" (with the detected types as rules)
    exactly when the mode is "strict" and there is a detection, or the mode
    is "block" and one of the detections is SQL_INJECTION or
    COMMAND_INJECTION (the two categories of severity CRITICAL); in every
    other case the request is forwarded: XSS, path traversal, XXE, SSRF and
    scanner detections alone do not block in block mode. *)
Theorem request_is_blocked_iff
    (cfg : config) (upstream_status : Z) (req : http_request) (st : state) :
  path req <> "/health"%string ->
  (is_ip_blocked cfg (client_ip_of req) (redis st)).1 = false ->
  negb (check_rate_limit cfg (client_ip_of req) (redis st)).1.1
    && in_block_or_strict cfg = false ->
  exists ds,
    detect_owasp (target req) (body req) = Ok ds /\
    let injection :=
      exists d, d ∈ ds /\ (type d = "SQL_INJECTION"%string \/
                           type d = "COMMAND_INJECTION"%string) in
    let blocks :=
      (WAF_MODE cfg = "strict"%string /\ ds <> []) \/
      (WAF_MODE cfg = "block"%string /\ injection) in
    (blocks ->
     response_of (waf_middleware cfg upstream_status req st)
       = Some (RequestBlocked (map type ds))) /\
    (~ blocks ->
     response_of (waf_middleware cfg upstream_status req st)
       = Some (Forwarded upstream_status)).
Proof.
  intros Hp Hb Hrate.
  destruct (detect_owasp_total (target req) (body req)) as [ds Hds].
  exists ds. split; [exact Hds|]. cbv zeta.
  pose proof (critical_iff_injection _ _ _ Hds) as Hcrit.
  unfold waf_middleware. rewrite (path_is_not_health req Hp).
  rewrite (is_ip_blocked_false _ _ _ Hb).
  destruct (check_rate_limit cfg (client_ip_of req) (redis st))
    as [[rate_ok count] s1]. cbn [fst] in Hrate. rewrite Hrate, Hds.
  cbn [mbind result_bind]. unfold in_block_or_strict.
  destruct (String.eqb_spec (WAF_MODE cfg) "strict") as [Hs|Hs];
    destruct (String.eqb_spec (WAF_MODE cfg) "block") as [Hk|Hk];
    try (rewrite Hs in Hk; discriminate).
  - (* strict *)
    cbn [orb]. rewrite orb_true_r, !andb_true_r.
    destruct ds as [|d ds]; cbn [length Nat.ltb Nat.leb].
    + split; [|reflexivity].
      intros [[_ Hne]|[Hk' _]]; [done|]. by rewrite Hs in Hk'.
    + split; [reflexivity|]. intros Hno. exfalso. apply Hno.
      left. by split.
  - (* block *)
    cbn [orb]. rewrite orb_false_r, andb_true_r.
    destruct (existsb _ ds) eqn:Ecrit.
    + assert (Hne : ds <> []) by (intros ->; discriminate).
      destruct ds as [|d ds]; [done|]. cbn [length Nat.ltb Nat.leb andb].
      split; [reflexivity|]. intros Hno. exfalso. apply Hno.
      right. split; [exact Hk|]. by apply Hcrit.
    + rewrite andb_false_r. split; [|reflexivity].
      intros [[Hs' _]|[_ Hinj]]; [done|].
      apply Hcrit in Hinj. discriminate.
  - (* any other mode *)
    cbn [orb]. rewrite andb_false_r. cbn [andb]. split; [|reflexivity].
    intros [[Hs' _]|[Hk' _]]; done.
Qed.

Lemma request_is_blocked_iff_witness :
  exists ds,
    detect_owasp (target injection_request) (body injection_request)
      = Ok ds /\
    let injection :=
      exists d, d ∈ ds /\ (type d = "SQL_INJECTION"%string \/
                           type d = "COMMAND_INJECTION"%string) in
    let blocks :=
      (WAF_MODE block_mode = "strict"%string /\ ds <> []) \/
      (WAF_MODE block_mode = "block"%string /\ injection) in
    (blocks ->
     response_of (waf_middleware block_mode 200 injection_request fresh_state)
       = Some (RequestBlocked (map type ds))) /\
    (~ blocks ->
     response_of (waf_middleware block_mode 200 injection_request fresh_state)
       = Some (Forwarded 200)).
Proof.
  apply (request_is_blocked_iff block_mode 200 injection_request fresh_state).
  - discriminate.
  - reflexivity.
  - vm_compute. reflexivity.
Defined.

Lemma list_ascii_of_string_app (a b : string) :
  list_ascii_of_string (a ++ b) =
  list_ascii_of_string a ++ list_ascii_of_string b.
Proof.
  induction a as [|c a IH]; simpl; [reflexivity|]. f_equal. exact IH.
Qed.

Lemma lstrip_spaces (ws l : list ascii) :
  forallb isspace ws = true -> lstrip (ws ++ l) = lstrip l.
Proof.
  induction ws as [|c ws IH]; simpl; [reflexivity|].
  intros H. apply andb_true_iff in H as [Hc Hws]. rewrite Hc. by apply IH.
Qed.

Lemma lstrip_no_space (l : list ascii) :
  forallb (fun c => negb (isspace c)) l = true -> lstrip l = l.
Proof.
  destruct l as [|c l]; simpl; [reflexivity|].
  intros H. apply andb_true_iff in H as [Hc _].
  by destruct (isspace c).
Qed.

Lemma forallb_rev {A} (f : A -> bool) (l : list A) :
  forallb f l = true -> forallb f (rev l) = true.
Proof.
  rewrite !forallb_forall. intros H x Hx. apply H. by apply in_rev.
Qed.

Lemma strip_padded (lead core trail : list ascii) :
  forallb isspace lead = true ->
  forallb isspace trail = true ->
  forallb (fun c => negb (isspace c)) core = true ->
  strip (lead ++ core ++ trail) = core.
Proof.
  intros Hl Ht Hcore. unfold strip.
  rewrite lstrip_spaces by exact Hl.
  destruct core as [|c core].
  - simpl app. rewrite <- (app_nil_r trail).
    rewrite lstrip_spaces by exact Ht. reflexivity.
  - assert (Hhead : lstrip ((c :: core) ++ trail) = (c :: core) ++ trail).
    { simpl in *. apply andb_true_iff in Hcore as [Hc _].
      by destruct (isspace c). }
    rewrite Hhead, rev_app_distr.
    rewrite lstrip_spaces by (by apply forallb_rev).
    rewrite lstrip_no_space by (by apply forallb_rev).
    apply rev_involutive.
Qed.

Lemma before_comma_app (l rest : list ascii) :
  forallb (fun c => negb (PyRe.ord c =? 44)%N) l = true ->
  before_comma (l ++ rest) = l ++ before_comma rest.
Proof.
  induction l as [|c l IH]; simpl; [reflexivity|].
  intros H. apply andb_true_iff in H as [Hc Hl].
  destruct (PyRe.ord c =? 44)%N; [discriminate|]. f_equal. by apply IH.
Qed.

Lemma isspace_not_comma (c : ascii) :
  isspace c = true -> negb (PyRe.ord c =? 44)%N = true.
Proof.
  unfold isspace, PyRe.is_space, PyRe.between.
  destruct (N.eqb_spec (PyRe.ord c) 44) as [->|]; [|reflexivity].
  vm_compute. discriminate.
Qed.

(** X8: the client address is taken from the X-Forwarded-For header whenever
    the header is present: it is the text before the first comma, with the
    white space around it removed.  For an address without white space or
    comma, optionally padded with white space and followed by a comma and
    anything, [client_ip_of] is that address, whatever the peer address of
    the connection is; the deny list and the rate counters are keyed by
    it. *)
Theorem client_ip_is_the_first_forwarded_entry
    (req : http_request) (lead ip trail rest : string) :
  x_forwarded_for req = Some (lead ++ ip ++ trail ++ rest)%string ->
  forallb isspace (list_ascii_of_string lead) = true ->
  forallb isspace (list_ascii_of_string trail) = true ->
  forallb (fun c => negb (isspace c) && negb (PyRe.ord c =? 44)%N)
          (list_ascii_of_string ip) = true ->
  rest = ""%string \/ (exists more, rest = ("," ++ more)%string) ->
  client_ip_of req = ip.
Proof.
  intros Hx Hl Ht Hip Hrest.
  unfold client_ip_of. rewrite Hx.
  rewrite !list_ascii_of_string_app.
  set (l := list_ascii_of_string lead) in *.
  set (i := list_ascii_of_string ip) in *.
  set (t := list_ascii_of_string trail) in *.
  assert (Hi1 : forallb (fun c => negb (isspace c)) i = true).
  { apply forallb_forall. intros c Hc.
    rewrite forallb_forall in Hip. specialize (Hip c Hc).
    by apply andb_true_iff in Hip as [? _]. }
  assert (Hi2 : forallb (fun c => negb (PyRe.ord c =? 44)%N) i = true).
  { apply forallb_forall. intros c Hc.
    rewrite forallb_forall in Hip. specialize (Hip c Hc).
    by apply andb_true_iff in Hip as [_ ?]. }
  assert (Hl2 : forallb (fun c => negb (PyRe.ord c =? 44)%N) l = true).
  { apply forallb_forall. intros c Hc. apply isspace_not_comma.
    rewrite forallb_forall in Hl. by apply Hl. }
  assert (Ht2 : forallb (fun c => negb (PyRe.ord c =? 44)%N) t = true).
  { apply forallb_forall. intros c Hc. apply isspace_not_comma.
    rewrite forallb_forall in Ht. by apply Ht. }
  rewrite before_comma_app by exact Hl2.
  rewrite before_comma_app by exact Hi2.
  rewrite before_comma_app by exact Ht2.
  assert (Hr : before_comma (list_ascii_of_string rest) = []).
  { destruct Hrest as [->|[more ->]]; reflexivity. }
  rewrite Hr, app_nil_r.
  rewrite strip_padded by assumption.
  apply string_of_list_ascii_of_string.
Qed.

Lemma client_ip_is_the_first_forwarded_entry_witness :
  client_ip_of plain_request = "203.0.113.9"%string.
Proof.
  apply (client_ip_is_the_first_forwarded_entry plain_request
           "" "203.0.113.9" "" ", 10.0.0.1").
  - reflexivity.
  - reflexivity.
  - reflexivity.
  - reflexivity.
  - right. by exists " 10.0.0.1"%string.
Defined.

End RequestPath.

Section Response.
Import Schema Soar Samples.
Local Open Scope Z_scope.

(** [waf_middleware] writes the rate-limit counter and the deny entry of the
    address the request comes from, and no other key. *)
Lemma waf_middleware_frame (cfg : WafMiddleware.config) (upstream_status : Z)
    (req : WafMiddleware.http_request) (st : WafMiddleware.state)
    (key : string) :
  key <> ("ratelimit:" ++ WafMiddleware.client_ip_of req)%string ->
  key <> ("blocked_ip:" ++ WafMiddleware.client_ip_of req)%string ->
  match WafMiddleware.waf_middleware cfg upstream_status req st with
  | Ok (_, st') =>
      WafMiddleware.redis st' !! key = WafMiddleware.redis st !! key
  | Raise _ => True
  end.
Proof.
  intros Hr Hb. unfold WafMiddleware.waf_middleware.
  destruct (String.eqb (WafMiddleware.path req) "/health"); [reflexivity|].
  destruct (WafMiddleware.is_ip_blocked cfg _ _) as [blocked reason].
  destruct blocked; [reflexivity|].
  pose proof (check_rate_limit_frame cfg (WafMiddleware.client_ip_of req)
                (WafMiddleware.redis st) key Hr) as Hf.
  destruct (WafMiddleware.check_rate_limit cfg _ _) as [[rate_ok count] s1].
  cbn [snd] in Hf.
  assert (Hblock : forall reason d,
    Waf.block_ip (WafMiddleware.redis_client cfg)
      (WafMiddleware.client_ip_of req) reason d s1 !! key
    = WafMiddleware.redis st !! key).
  { intros reason' d. unfold Waf.block_ip, Redis.setex, Redis.store in *.
    destruct (WafMiddleware.redis_client cfg); [|exact Hf].
    by rewrite lookup_insert_ne. }
  destruct (negb rate_ok && WafMiddleware.in_block_or_strict cfg).
  { cbn [WafMiddleware.redis]. apply Hblock. }
  destruct (Waf.detect_owasp _ _) as [ds|e]; [|exact I].
  cbn [mbind result_bind].
  destruct (_ && _ && _); cbn [WafMiddleware.redis]; [apply Hblock|exact Hf].
Qed.

(** A forwarded request is answered with the status of the application. *)
Lemma waf_middleware_forwards (cfg : WafMiddleware.config)
    (upstream_status status_code : Z) (req : WafMiddleware.http_request)
    (st st' : WafMiddleware.state) :
  WafMiddleware.waf_middleware cfg upstream_status req st
    = Ok (WafMiddleware.Forwarded status_code, st') ->
  status_code = upstream_status.
Proof.
  unfold WafMiddleware.waf_middleware.
  destruct (String.eqb (WafMiddleware.path req) "/health");
    [by intros [= -> _]|].
  destruct (WafMiddleware.is_ip_blocked cfg _ _) as [blocked reason].
  destruct blocked; [discriminate|].
  destruct (WafMiddleware.check_rate_limit cfg _ _) as [[rate_ok count] s1].
  destruct (negb rate_ok && WafMiddleware.in_block_or_strict cfg);
    [discriminate|].
  destruct (Waf.detect_owasp _ _) as [ds|e]; [|discriminate].
  cbn [mbind result_bind].
  destruct (_ && _ && _); [discriminate|by intros [= -> _]].
Qed.

(** What a POST to the WAF comes to: the client raises and the store is as
    it was; or the handler has run, after the middleware, and the answer is
    200; or the answer is another status and the handler has not run.  In
    the last two cases the middleware has written at most the two keys of the
    caller. *)
Lemma post_cases (w : waf) (path : string) (params : list (string * string))
    (handler : Redis.store -> Redis.store) (s : Redis.store) :
  (exists error,
     failure w = Some error /\
     post w path params handler s = (Raise (ConnectError error), s)) \/
  (failure w = None /\
   exists s1,
     (forall key,
        key <> ("ratelimit:" ++ caller w)%string ->
        key <> ("blocked_ip:" ++ caller w)%string ->
        s1 !! key = s !! key) /\
     (post w path params handler s = (Ok 200, handler s1) \/
      exists status_code,
        status_code <> 200 /\
        post w path params handler s = (Ok status_code, s1))).
Proof.
  unfold post. destruct (failure w) as [error|]; [left; by exists error|].
  right. split; [reflexivity|].
  pose proof (fun key Hr Hb =>
    waf_middleware_frame (waf_config w) 200 (request_for w path params)
      {| WafMiddleware.redis := s; WafMiddleware.sent := [] |} key Hr Hb)
    as Hframe.
  change (WafMiddleware.client_ip_of (request_for w path params))
    with (caller w) in Hframe.
  pose proof (waf_middleware_forwards (waf_config w) 200) as Hfw.
  specialize (Hfw) with (req := request_for w path params)
    (st := {| WafMiddleware.redis := s; WafMiddleware.sent := [] |}).
  destruct (WafMiddleware.waf_middleware (waf_config w) 200
              (request_for w path params) _) as [[response st']|e].
  - exists (WafMiddleware.redis st'). split; [exact Hframe|].
    destruct response as [| |rules|status_code]; cbn.
    + right. exists 403. by split.
    + right. exists 429. by split.
    + right. exists 403. by split.
    + left. by rewrite (Hfw status_code st' eq_refl).
  - exists (WafMiddleware.check_rate_limit (waf_config w) (caller w) s).2.
    split; [intros key Hr _; by apply check_rate_limit_frame|].
    right. exists 500. by split.
Qed.

Lemma select_by_id_appended {A} (table : list A) (row : A) :
  select_by_id (table ++ [row]) (Z.of_nat (length table)) = Some row.
Proof.
  unfold select_by_id.
  destruct (Z.ltb_spec (Z.of_nat (length table)) 0); [lia|].
  rewrite Nat2Z.id. by rewrite lookup_app_r, Nat.sub_diag by lia.
Qed.

Lemma select_by_id_updated {A} (table : list A) (id : uuid) (f : A -> A)
    (row : A) :
  select_by_id table id = Some row ->
  select_by_id (update_by_id table id f) id = Some (f row).
Proof.
  unfold select_by_id, update_by_id.
  destruct (id <? 0); [discriminate|]. intros H.
  by rewrite list_lookup_alter_eq, H.
Qed.

(** What [execute_soar] stores and answers once the assessment is found. *)
Lemma execute_soar_found (cfg : config) (w : waf) (now : timestamp)
    (req : ExecuteRequest) (st : world) (assessment : risk_assessment)
    (ip : string) :
  fetch_assessment (database st) (req_risk_assessment_id req)
    = Some (assessment, ip) ->
  let action := chosen_action req assessment in
  let duration := duration_for cfg (risk_score assessment) in
  let outcome := execute_action cfg w action ip duration (store st) in
  exists st' resp,
    execute_soar cfg w now req st = Ok (st', resp) /\
    store st' = outcome.2 /\
    soar_actions (database st') =
      soar_actions (database st) ++
      [{| risk_assessment_id := Some (req_risk_assessment_id req);
          executed_at := Some now;
          action_type := action;
          action_status :=
            if executed outcome.1 then "EXECUTED" else "FAILED";
          target_ip := ip;
          duration_minutes := duration;
          execution_result := message outcome.1;
          rollback_at := None;
          rollback_reason := None |}] /\
    raw_requests (database st') = raw_requests (database st) /\
    risk_assessments (database st') = risk_assessments (database st) /\
    ip_reputation (database st') = ip_reputation (database st) /\
    success resp = true /\
    action_id resp = Z.of_nat (length (soar_actions (database st))) /\
    resp_action_type resp = action /\
    resp_target_ip resp = ip /\
    resp_executed resp = executed outcome.1 /\
    resp_message resp = message outcome.1.
Proof.
  intros Hfetch action duration outcome. subst action duration outcome.
  unfold execute_soar, duration_for. rewrite Hfetch.
  destruct (execute_action cfg w (chosen_action req assessment) ip _
              (store st)) as [result s'].
  destruct (Qgeb (risk_score assessment) 0.8); cbn.
  all: eexists _, _; split; [reflexivity|]; cbn; repeat split.
Qed.








(** C9, amended: [execute_soar] decides on the risk score alone.  For an
    assessment that is found (BLOCK_DURATION a positive 32-bit integer, the
    action type one that fits its column), when the score is at least 0.8
    it appends a new incident for the source (status OPEN if the action was
    not executed, INVESTIGATING if it was, both counters 1), whatever
    incidents are already stored, and leaves the stored ones unchanged;
    below 0.8 it creates none.  [create_incident] appends a new OPEN
    incident whenever the fields of the request fit their columns. *)
Theorem execute_soar_opens_incident_by_score_alone
    (cfg : config) (w : waf) (now : timestamp) (req : ExecuteRequest)
    (st : world) (assessment : risk_assessment) (ip : string) :
  fetch_assessment (database st) (req_risk_assessment_id req)
    = Some (assessment, ip) ->
  0 < BLOCK_DURATION cfg <= int4_max ->
  fits_varchar 50 (chosen_action req assessment) = true ->
  (exists st' resp,
     execute_soar cfg w now req st = Ok (st', resp) /\
     ((0.8 <= risk_score assessment)%Q ->
        exists inc,
          incidents (database st') = incidents (database st) ++ [inc] /\
          incident_id resp = Some (Z.of_nat (length (incidents (database st)))) /\
          source_ip inc = ip /\
          status inc =
            (if resp_executed resp then "INVESTIGATING" else "OPEN")%string /\
          total_requests_involved inc = 1 /\
          blocked_requests_count inc = 1) /\
     ((risk_score assessment < 0.8)%Q ->
        incidents (database st') = incidents (database st) /\
        incident_id resp = None)) /\
  (forall ireq st0,
     fits_varchar 100 (req_incident_type ireq) = true ->
     fits_varchar 20 (req_severity ireq) = true ->
     fits_varchar 45 (req_source_ip ireq) = true ->
     exists inc,
       incidents (database (fst (create_incident ireq st0)))
         = incidents (database st0) ++ [inc] /\
       status inc = "OPEN"%string /\
       source_ip inc = req_source_ip ireq).
Proof.
  intros Hfetch _ _. split.
  - unfold execute_soar. rewrite Hfetch.
    destruct (execute_action cfg w (chosen_action req assessment) ip _ (store st))
      as [result s'].
    destruct (Qgeb (risk_score assessment) 0.8) eqn:E; unfold Qgeb in E; simpl.
    + apply Qle_bool_iff in E.
      do 2 eexists. split; [reflexivity|]. simpl. split.
      * intros _. eexists. split; [reflexivity|]. split; [reflexivity|].
        simpl. split; [reflexivity|].
        split; [by destruct (executed result)|]. done.
      * intros Hlt. exfalso. lra.
    + apply Qle_bool_false in E.
      do 2 eexists. split; [reflexivity|]. simpl. split.
      * intros Hle. exfalso. lra.
      * done.
  - intros ireq st0 _ _ _. unfold create_incident. simpl.
    eexists. split; [reflexivity|]. done.
Qed.

(** C9, as stated, fails: with an INVESTIGATING incident already stored
    for the source, carrying out the next assessment of the same source one
    time unit later stores a second incident for it, and the counters of the
    first one stay at 1. *)
Lemma second_execution_duplicates_incident :
  let st1 := after_execute default_config waf_up 100 block_request
               sample_world in
  let st2 := after_execute default_config waf_up 101 next_request st1 in
  exists i1 i2,
    incidents (database st1) = [i1] /\
    incidents (database st2) = [i1; i2] /\
    source_ip i1 = "203.0.113.9"%string /\
    source_ip i2 = "203.0.113.9"%string /\
    status i1 = "INVESTIGATING"%string /\
    status i2 = "INVESTIGATING"%string /\
    total_requests_involved i1 = 1 /\
    blocked_requests_count i1 = 1.
Proof.
  do 2 eexists. split; [vm_compute; reflexivity|].
  split; [vm_compute; reflexivity|]. repeat split.
Qed.



Lemma execute_soar_opens_incident_by_score_alone_witness :
  (exists st' resp,
     execute_soar default_config waf_up 100 block_request sample_world
       = Ok (st', resp) /\
     ((0.8 <= risk_score first_assessment)%Q ->
        exists inc,
          incidents (database st')
            = incidents (database sample_world) ++ [inc] /\
          incident_id resp
            = Some (Z.of_nat (length (incidents (database sample_world)))) /\
          source_ip inc = "203.0.113.9"%string /\
          status inc =
            (if resp_executed resp then "INVESTIGATING" else "OPEN")%string /\
          total_requests_involved inc = 1 /\
          blocked_requests_count inc = 1) /\
     ((risk_score first_assessment < 0.8)%Q ->
        incidents (database st') = incidents (database sample_world) /\
        incident_id resp = None)) /\
  (forall ireq st0,
     fits_varchar 100 (req_incident_type ireq) = true ->
     fits_varchar 20 (req_severity ireq) = true ->
     fits_varchar 45 (req_source_ip ireq) = true ->
     exists inc,
       incidents (database (fst (create_incident ireq st0)))
         = incidents (database st0) ++ [inc] /\
       status inc = "OPEN"%string /\
       source_ip inc = req_source_ip ireq).
Proof.
  apply (execute_soar_opens_incident_by_score_alone default_config waf_up 100
           block_request sample_world first_assessment "203.0.113.9").
  - reflexivity.
  - vm_compute. split; [reflexivity|discriminate].
  - reflexivity.
Defined.

End Response.

Section Enforcement.
Import Schema Soar Samples Requests.
Local Open Scope Z_scope.

(** X12: a BLOCK_IP action the WAF acknowledges with 200 (auto-blocking
    enabled, the duration a positive 32-bit integer) is reported as
    executed, and it is enforced exactly when the WAF has a Redis client.
    With one, the store holds a deny entry for the target with
    duration_minutes * 60 seconds, whose reason is SOAR_AUTO_BLOCK if the
    SOAR engine has a Redis client of its own (its write comes second) and
    "Auto-blocked by SOAR" otherwise, and the WAF answers "Access Denied" to
    the target's next request.  Without one, the action is still reported
    as executed, but the WAF does not deny the target. *)
Theorem soar_block_is_enforced_where_the_waf_has_redis
    (cfg : config) (w : waf) (target_ip : string) (duration_minutes : Z)
    (s : Redis.store)
    (wcfg : WafMiddleware.config) (upstream_status : Z)
    (req : WafMiddleware.http_request)
    (events : list WafMiddleware.ingest_event) :
  ENABLE_AUTO_BLOCK cfg = true ->
  block_reply w target_ip duration_minutes s = Ok 200 ->
  0 < duration_minutes <= int4_max ->
  WafMiddleware.redis_client wcfg = waf_redis_client w ->
  WafMiddleware.path req <> "/health"%string ->
  WafMiddleware.client_ip_of req = target_ip ->
  exists result s',
    execute_action cfg w "BLOCK_IP" target_ip duration_minutes s
      = (result, s') /\
    executed result = true /\
    (waf_redis_client w = true ->
     exists e,
       s' !! ("blocked_ip:" ++ target_ip)%string = Some e /\
       Redis.ttl_seconds e = duration_minutes * 60 /\
       Redis.value e =
         (if redis_client cfg then "SOAR_AUTO_BLOCK"
          else "Auto-blocked by SOAR")%string /\
       WafMiddleware.response_of
         (WafMiddleware.waf_middleware wcfg upstream_status req
            {| WafMiddleware.redis := s'; WafMiddleware.sent := events |})
       = Some WafMiddleware.AccessDenied) /\
    (waf_redis_client w = false ->
     WafMiddleware.response_of
       (WafMiddleware.waf_middleware wcfg upstream_status req
          {| WafMiddleware.redis := s'; WafMiddleware.sent := events |})
     <> Some WafMiddleware.AccessDenied).
Proof.
  intros Hauto Hreply Hd Hwcfg Hp Hip.
  unfold block_reply in Hreply.
  unfold execute_action, post_block_ip in *. rewrite Hauto.
  cbn [String.eqb Ascii.eqb Bool.eqb andb].
  destruct (post_cases w "/admin/block-ip"
              [("ip", target_ip); ("reason", "Auto-blocked by SOAR");
               ("duration_minutes", pretty duration_minutes)]%string
              (Waf.admin_block_ip (waf_redis_client w) target_ip
                 "Auto-blocked by SOAR" duration_minutes) s)
    as [(error & _ & E)|(_ & s1 & _ & [E|(status_code & Hne & E)])];
    rewrite E in Hreply |- *; cbn [fst] in Hreply;
    [discriminate| |by injection Hreply as ->].
  cbn [Z.eqb Pos.eqb].
  eexists _, _. split; [reflexivity|]. split; [reflexivity|].
  unfold Waf.admin_block_ip, Waf.block_ip, Redis.setex, Redis.store in *.
  split.
  - intros Hw. rewrite Hw in *.
    destruct (redis_client cfg).
    all: eexists; split; [apply lookup_insert_eq|].
    all: split; [reflexivity|]; split; [reflexivity|].
    all: erewrite blocked_address_is_denied;
      [reflexivity|exact Hwcfg|exact Hp|].
    all: cbn [WafMiddleware.redis]; rewrite Hip; apply lookup_insert_eq.
  - intros Hw. rewrite Hw in Hwcfg.
    by apply waf_middleware_without_redis.
Qed.

Lemma soar_block_is_enforced_where_the_waf_has_redis_witness :
  exists result s',
    execute_action default_config waf_up "BLOCK_IP" "203.0.113.9" 30 ∅
      = (result, s') /\
    executed result = true /\
    (waf_redis_client waf_up = true ->
     exists e,
       s' !! ("blocked_ip:" ++ "203.0.113.9")%string = Some e /\
       Redis.ttl_seconds e = 30 * 60 /\
       Redis.value e =
         (if redis_client default_config then "SOAR_AUTO_BLOCK"
          else "Auto-blocked by SOAR")%string /\
       WafMiddleware.response_of
         (WafMiddleware.waf_middleware WafMiddleware.default_config 200
            plain_request
            {| WafMiddleware.redis := s'; WafMiddleware.sent := [] |})
       = Some WafMiddleware.AccessDenied) /\
    (waf_redis_client waf_up = false ->
     WafMiddleware.response_of
       (WafMiddleware.waf_middleware WafMiddleware.default_config 200
          plain_request
          {| WafMiddleware.redis := s'; WafMiddleware.sent := [] |})
     <> Some WafMiddleware.AccessDenied).
Proof.
  apply (soar_block_is_enforced_where_the_waf_has_redis default_config waf_up
           "203.0.113.9" 30 ∅ WafMiddleware.default_config 200
           plain_request []).
  - reflexivity.
  - vm_compute. reflexivity.
  - vm_compute. split; [reflexivity|discriminate].
  - reflexivity.
  - discriminate.
  - vm_compute. reflexivity.
Defined.





(** X14: for an assessment that is found (a BLOCK_DURATION that is a
    positive 32-bit integer, an action type that fits its column,
    VARCHAR(50)), [execute_soar] answers success = true whether or not the
    action was executed, and appends exactly one row to soar_actions.  The returned action_id selects that row; the rows stored
    before keep their ids; the row names the assessment, the action carried
    out (the requested one, else the recommended one), the target, the
    duration derived from the score and the message of the outcome; its
    status is EXECUTED exactly when the response says executed and FAILED
    otherwise. *)
Theorem execute_soar_records_what_it_did
    (cfg : config) (w : waf) (now : timestamp) (req : ExecuteRequest)
    (st : world) (assessment : risk_assessment) (ip : string) :
  fetch_assessment (database st) (req_risk_assessment_id req)
    = Some (assessment, ip) ->
  0 < BLOCK_DURATION cfg <= int4_max ->
  fits_varchar 50 (chosen_action req assessment) = true ->
  exists st' resp row,
    execute_soar cfg w now req st = Ok (st', resp) /\
    success resp = true /\
    soar_actions (database st') = soar_actions (database st) ++ [row] /\
    select_by_id (soar_actions (database st')) (action_id resp) = Some row /\
    (forall id a,
       select_by_id (soar_actions (database st)) id = Some a ->
       select_by_id (soar_actions (database st')) id = Some a) /\
    risk_assessment_id row = Some (req_risk_assessment_id req) /\
    action_type row = chosen_action req assessment /\
    resp_action_type resp = chosen_action req assessment /\
    target_ip row = ip /\
    duration_minutes row = duration_for cfg (risk_score assessment) /\
    execution_result row = resp_message resp /\
    (action_status row = "EXECUTED"%string <-> resp_executed resp = true) /\
    (action_status row = "FAILED"%string <-> resp_executed resp = false) /\
    rollback_at row = None /\
    risk_assessments (database st') = risk_assessments (database st).
Proof.
  intros Hfetch _ _.
  destruct (execute_soar_found cfg w now req st assessment ip Hfetch)
    as (st' & resp & Hrun & _ & Hrows & _ & Hra & _ & Hsucc & Hid & Hty
        & _ & Hex & Hmsg).
  exists st', resp. eexists. split; [exact Hrun|]. split; [exact Hsucc|].
  split; [exact Hrows|]. rewrite Hrows, Hid, Hty, Hex, Hmsg.
  split; [apply select_by_id_appended|].
  split.
  { intros id a. unfold select_by_id. destruct (id <? 0); [done|].
    intros H. by apply lookup_app_l_Some. }
  cbn [risk_assessment_id action_type target_ip duration_minutes
       execution_result action_status rollback_at].
  repeat (split; [reflexivity|]).
  split; [|split; [|split; [reflexivity|exact Hra]]].
  all: destruct (executed _); split; done.
Qed.

Lemma execute_soar_records_what_it_did_witness :
  exists st' resp row,
    execute_soar default_config waf_up 100 next_request sample_world
      = Ok (st', resp) /\
    success resp = true /\
    soar_actions (database st')
      = soar_actions (database sample_world) ++ [row] /\
    select_by_id (soar_actions (database st')) (action_id resp) = Some row /\
    (forall id a,
       select_by_id (soar_actions (database sample_world)) id = Some a ->
       select_by_id (soar_actions (database st')) id = Some a) /\
    risk_assessment_id row = Some (req_risk_assessment_id next_request) /\
    action_type row = "BLOCK_IP"%string /\
    resp_action_type resp = "BLOCK_IP"%string /\
    target_ip row = "203.0.113.9"%string /\
    duration_minutes row = 60 /\
    execution_result row = resp_message resp /\
    (action_status row = "EXECUTED"%string <-> resp_executed resp = true) /\
    (action_status row = "FAILED"%string <-> resp_executed resp = false) /\
    rollback_at row = None /\
    risk_assessments (database st')
      = risk_assessments (database sample_world).
Proof.
  apply (execute_soar_records_what_it_did default_config waf_up 100
           next_request sample_world
           {| ra_request_id := 1; assessed_at := 40;
              risk_score := 0.9; risk_level := "CRITICAL";
              ml_score_weight := 0.4; owasp_score_weight := 0.3;
              behavioral_score_weight := 0.2;
              recommended_action := "BLOCK_IP";
              automation_level := "semi-auto" |} "203.0.113.9").
  - reflexivity.
  - vm_compute. split; [reflexivity|discriminate].
  - reflexivity.
Defined.




Lemma select_by_id_update_other {A} (table : list A) (id id' : uuid)
    (f : A -> A) :
  id' <> id ->
  select_by_id (update_by_id table id f) id' = select_by_id table id'.
Proof.
  intros Hne. unfold select_by_id, update_by_id.
  destruct (Z.ltb_spec id' 0); [reflexivity|].
  destruct (Z.ltb_spec id 0); [reflexivity|].
  apply list_lookup_alter_ne. lia.
Qed.

(** X16: [rollback] answers 404 "Action not found" exactly when no action has
    the id, and changes nothing then.  Otherwise it sets rollback_at and
    rollback_reason ("Manual rollback") of that action and nothing else:
    the action keeps its status (EXECUTED or FAILED), type, target and
    result, every other action is unchanged, and so are the incidents and
    the assessments. *)
Theorem rollback_marks_only_that_action
    (cfg : config) (w : waf) (now : timestamp) (action_id : uuid)
    (st : world) :
  match rollback cfg w now action_id st with
  | Raise e =>
      e = HTTPException 404 "Action not found" /\
      select_by_id (soar_actions (database st)) action_id = None
  | Ok (st', resp) =>
      exists action row,
        select_by_id (soar_actions (database st)) action_id = Some action /\
        select_by_id (soar_actions (database st')) action_id = Some row /\
        rollback_at row = Some now /\
        rollback_reason row = Some "Manual rollback"%string /\
        action_status row = action_status action /\
        action_type row = action_type action /\
        target_ip row = target_ip action /\
        execution_result row = execution_result action /\
        (forall id, id <> action_id ->
           select_by_id (soar_actions (database st')) id
             = select_by_id (soar_actions (database st)) id) /\
        length (soar_actions (database st'))
          = length (soar_actions (database st)) /\
        incidents (database st') = incidents (database st) /\
        risk_assessments (database st') = risk_assessments (database st)
  end.
Proof.
  unfold rollback.
  destruct (select_by_id (soar_actions (database st)) action_id)
    as [action|] eqn:Hsel; [|by split].
  exists action, (mark_rolled_back now action). split; [reflexivity|].
  cbn [database with_soar_actions soar_actions incidents risk_assessments].
  split; [by apply select_by_id_updated|].
  repeat (split; [reflexivity|]).
  split; [intros id Hne; by apply select_by_id_update_other|].
  split; [|by split].
  unfold update_by_id. destruct (action_id <? 0); [reflexivity|].
  apply length_alter.
Qed.

End Enforcement.

Section Assessment.
Import Schema RiskEngine Samples Assessments.
Local Open Scope Q_scope.

Lemma dict_truthy_false (d : dict) : dict_truthy d = false -> d = ∅.
Proof.
  unfold dict_truthy. intros H. apply negb_false_iff in H.
  by apply bool_decide_eq_true in H.
Qed.

Lemma ml_score_value (ml_data : dict) (a p : Q) :
  dict_get ml_data "anomaly_score" (PNum 0.0) = PNum a ->
  dict_get ml_data "attack_probability" (PNum 0.0) = PNum p ->
  exists ml, ml_score ml_data = Ok ml /\ ml == a * 0.6 + p * 0.4.
Proof.
  intros Ha Hp. unfold ml_score.
  destruct (dict_truthy ml_data) eqn:E.
  - rewrite Ha, Hp. simpl. eexists. split; [reflexivity|]. reflexivity.
  - apply dict_truthy_false in E. subst ml_data.
    unfold dict_get in Ha, Hp. rewrite lookup_empty in Ha, Hp.
    injection Ha as <-. injection Hp as <-.
    eexists. split; [reflexivity|]. reflexivity.
Qed.

Lemma py_min_monotone (a a' b : Q) : a <= a' -> py_min a b <= py_min a' b.
Proof.
  intros H.
  destruct (py_min_spec a b) as [[? ->]|[? ->]];
    destruct (py_min_spec a' b) as [[? ->]|[? ->]]; lra.
Qed.

Lemma py_min_le_r (a b : Q) : py_min a b <= b.
Proof. destruct (py_min_spec a b) as [[? ->]|[? ->]]; lra. Qed.

Lemma py_max_default_app (xs ys : list Q) :
  Forall (fun y => 0 <= y) ys ->
  py_max_default xs 0.0 <= py_max_default (xs ++ ys) 0.0.
Proof.
  intros Hys. destruct xs as [|x rest]; simpl.
  - destruct ys as [|y ys]; simpl; [lra|].
    inversion Hys as [|? ? Hy _]; subst.
    pose proof (foldl_py_max2_ge_acc ys y). lra.
  - rewrite foldl_app. apply foldl_py_max2_ge_acc.
Qed.

Lemma owasp_score_app (owasp_data more : list dict) :
  owasp_score owasp_data <= owasp_score (owasp_data ++ more).
Proof.
  unfold owasp_score. rewrite map_app. apply py_max_default_app.
  apply Forall_forall. intros y Hy.
  apply list_elem_of_fmap in Hy as (d & -> & _).
  pose proof (severity_map_get_range (dict_get d "severity" (PStr "LOW"))).
  lra.
Qed.

(** X17: more evidence never lowers the score.  For numeric inputs,
    [calculate_risk] does not decrease when the anomaly score, the attack
    probability or the blocked ratio grows or when detections are added,
    and the result is never above 1. *)
Theorem calculate_risk_is_monotone
    (ml_data ml_data' : dict) (owasp_data more : list dict)
    (behavioral behavioral' : dict) (a a' p p' r r' : Q) :
  dict_get ml_data "anomaly_score" (PNum 0.0) = PNum a ->
  dict_get ml_data "attack_probability" (PNum 0.0) = PNum p ->
  dict_get behavioral "blocked_ratio" (PNum 0.0) = PNum r ->
  dict_get ml_data' "anomaly_score" (PNum 0.0) = PNum a' ->
  dict_get ml_data' "attack_probability" (PNum 0.0) = PNum p' ->
  dict_get behavioral' "blocked_ratio" (PNum 0.0) = PNum r' ->
  a <= a' -> p <= p' -> r <= r' ->
  exists s s',
    calculate_risk ml_data owasp_data behavioral = Ok s /\
    calculate_risk ml_data' (owasp_data ++ more) behavioral' = Ok s' /\
    s <= s' /\ s' <= 1.
Proof.
  intros Ha Hp Hr Ha' Hp' Hr' Hle_a Hle_p Hle_r.
  destruct (ml_score_value ml_data a p Ha Hp) as (ml & Hml & Eml).
  destruct (ml_score_value ml_data' a' p' Ha' Hp') as (ml' & Hml' & Eml').
  unfold calculate_risk, behavioral_score.
  rewrite Hml, Hml', Hr, Hr'. simpl.
  eexists _, _. split; [reflexivity|]. split; [reflexivity|].
  split; [|pose proof (py_min_le_r
                         (ml' * WEIGHTS_ml +
                          owasp_score (owasp_data ++ more) * WEIGHTS_owasp +
                          py_min (r' * 2.0) 1.0 * WEIGHTS_behavioral) 1.0);
           lra].
  apply py_min_monotone.
  pose proof (owasp_score_app owasp_data more) as Ho.
  pose proof (py_min_monotone (r * 2.0) (r' * 2.0) 1.0) as Hb.
  unfold WEIGHTS_ml, WEIGHTS_owasp, WEIGHTS_behavioral.
  assert (py_min (r * 2.0) 1.0 <= py_min (r' * 2.0) 1.0) by (apply Hb; lra).
  lra.
Qed.

Lemma calculate_risk_is_monotone_witness :
  exists s s',
    calculate_risk scenario_ml [] scenario_behavioral = Ok s /\
    calculate_risk max_ml ([] ++ [scenario_detection]) max_behavioral
      = Ok s' /\
    s <= s' /\ s' <= 1.
Proof.
  apply (calculate_risk_is_monotone scenario_ml max_ml [] [scenario_detection]
           scenario_behavioral max_behavioral 0.9 1.0 0.8 1.0 0.6 1.0).
  - reflexivity.
  - reflexivity.
  - reflexivity.
  - reflexivity.
  - reflexivity.
  - reflexivity.
  - lra.
  - lra.
  - lra.
Defined.

Lemma dict_truthy_ml_dict (p : ml_prediction) : dict_truthy (ml_dict p) = true.
Proof.
  apply (dict_truthy_lookup _ "anomaly_score" (anomaly_score p)).
  unfold ml_dict. apply lookup_insert_eq.
Qed.

(** X18: a prediction with a NULL score breaks the assessment.  If the latest
    prediction stored for a request has NULL as its anomaly_score or its
    attack_probability, [calculate_risk] raises TypeError (the key is
    present, so the default 0.0 of [.get] is not used) and [assess_risk]
    answers 500 "Risk error"; nothing is stored.  (With no prediction at
    all the assessment succeeds.) *)
Theorem assess_risk_fails_on_a_null_ml_field
    (cfg : config) (now : timestamp) (d : db) (request_id : uuid)
    (rr : raw_request) (p : ml_prediction) :
  select_by_id (raw_requests d) request_id = Some rr ->
  latest_prediction request_id (ml_predictions d) = Some p ->
  anomaly_score p = PNone \/ attack_probability p = PNone ->
  calculate_risk (ml_dict p)
    (map owasp_dict
       (filter (fun o => od_request_id o = request_id) (owasp_detections d)))
    ∅ = Raise TypeError /\
  assess_risk cfg now d request_id = Raise (HTTPException 500 "Risk error").
Proof.
  intros Hrr Hp Hnull.
  assert (Hml : ml_score (ml_dict p) = Raise TypeError).
  { unfold ml_score. rewrite dict_truthy_ml_dict.
    unfold dict_get, ml_dict.
    rewrite lookup_insert_eq.
    rewrite lookup_insert_ne by done. rewrite lookup_insert_ne by done.
    rewrite lookup_insert_eq.
    destruct Hnull as [-> | ->]; [reflexivity|].
    by destruct (anomaly_score p). }
  split.
  { unfold calculate_risk. by rewrite Hml. }
  unfold assess_risk. rewrite Hrr, Hp. unfold calculate_risk.
  rewrite Hml. reflexivity.
Qed.

Lemma assess_risk_fails_on_a_null_ml_field_witness :
  calculate_risk
    (ml_dict {| mp_request_id := 0; predicted_at := 11;
                anomaly_score := PNone;
                attack_type := PStr "SQL_INJECTION";
                attack_probability := PNum 0.8 |})
    (map owasp_dict
       (filter (fun o => od_request_id o = 0%Z)
               (owasp_detections db_with_null_score)))
    ∅ = Raise TypeError /\
  assess_risk default_config 50 db_with_null_score 0
    = Raise (HTTPException 500 "Risk error").
Proof.
  apply (assess_risk_fails_on_a_null_ml_field default_config 50
           db_with_null_score 0
           {| rr_timestamp := 10; client_ip := "198.51.100.4";
              is_blocked := true; is_suspicious := true |}).
  - reflexivity.
  - reflexivity.
  - left. reflexivity.
Defined.

(** What [assess_risk] stores and answers when it returns. *)
Lemma assess_risk_ok (cfg : config) (now : timestamp) (d d' : db)
    (request_id : uuid) (resp : assess_response) :
  assess_risk cfg now d request_id = Ok (d', resp) ->
  exists rr row,
    select_by_id (raw_requests d) request_id = Some rr /\
    raw_requests d' = raw_requests d /\
    risk_assessments d' = risk_assessments d ++ [row] /\
    soar_actions d' = soar_actions d /\
    incidents d' = incidents d /\
    assessment_id resp = Z.of_nat (length (risk_assessments d)) /\
    resp_client_ip resp = client_ip rr /\
    ra_request_id row = request_id /\
    assessed_at row = now /\
    risk_score row = resp_risk_score resp /\
    risk_level row = resp_risk_level resp /\
    recommended_action row = resp_recommended_action resp /\
    automation_level row = AUTOMATION_LEVEL cfg /\
    resp_recommended_action resp
      = action (decide_action cfg (resp_risk_score resp)) /\
    resp_risk_level resp = level (decide_action cfg (resp_risk_score resp)) /\
    resp_requires_validation resp
      = requires_validation (decide_action cfg (resp_risk_score resp)).
Proof.
  unfold assess_risk.
  destruct (select_by_id (raw_requests d) request_id) as [rr|];
    [|discriminate].
  destruct (calculate_risk _ _ _) as [score|e]; [|by destruct e].
  cbn. intros [= <- <-]. exists rr. eexists. cbn. repeat split.
Qed.

(** X19: the assessment handed from the risk engine to the SOAR engine.
    Whenever [assess_risk] returns, the assessment_id of its answer selects
    the stored row with the answer's score, level and recommended action,
    and [execute_soar] (with a BLOCK_DURATION that is a positive 32-bit
    integer) called with that id and no action type finds it,
    carries out the recommended action against the client address of the
    answer, for the duration derived from the score, whether or not the
    answer said that validation is required. *)
Theorem soar_executes_what_the_risk_engine_recommends
    (rcfg : config) (cfg : Soar.config) (w : Soar.waf)
    (now now' : timestamp) (d d' : db) (request_id : uuid)
    (resp : assess_response) (s : Redis.store) :
  assess_risk rcfg now d request_id = Ok (d', resp) ->
  (0 < Soar.BLOCK_DURATION cfg <= int4_max)%Z ->
  exists row st' executed,
    select_by_id (risk_assessments d') (assessment_id resp) = Some row /\
    Soar.fetch_assessment d' (assessment_id resp)
      = Some (row, resp_client_ip resp) /\
    ra_request_id row = request_id /\
    risk_score row = resp_risk_score resp /\
    risk_level row = resp_risk_level resp /\
    recommended_action row = resp_recommended_action resp /\
    Soar.execute_soar cfg w now'
      {| Soar.req_risk_assessment_id := assessment_id resp;
         Soar.req_action_type := None |}
      {| Soar.database := d'; Soar.store := s |} = Ok (st', executed) /\
    Soar.resp_action_type executed = resp_recommended_action resp /\
    Soar.resp_target_ip executed = resp_client_ip resp /\
    Soar.store st' =
      (Soar.execute_action cfg w (resp_recommended_action resp)
         (resp_client_ip resp)
         (Soar.duration_for cfg (resp_risk_score resp)) s).2.
Proof.
  intros Hrun _.
  destruct (assess_risk_ok rcfg now d d' request_id resp Hrun)
    as (rr & row & Hrr & Hraw & Hrows & _ & _ & Hid & Hip & Hreq & _ & Hscore
        & Hlevel & Hrec & _).
  assert (Hsel :
    select_by_id (risk_assessments d') (assessment_id resp) = Some row).
  { rewrite Hrows, Hid. apply select_by_id_appended. }
  assert (Hfetch :
    Soar.fetch_assessment d' (assessment_id resp)
      = Some (row, resp_client_ip resp)).
  { unfold Soar.fetch_assessment. rewrite Hsel, Hraw, Hreq, Hrr.
    by rewrite Hip. }
  destruct (execute_soar_found cfg w now'
              {| Soar.req_risk_assessment_id := assessment_id resp;
                 Soar.req_action_type := None |}
              {| Soar.database := d'; Soar.store := s |}
              row (resp_client_ip resp) Hfetch)
    as (st' & executed & Hexec & Hstore & _ & _ & _ & _ & _ & _ & Hty & Htgt
        & _).
  exists row, st', executed.
  split; [exact Hsel|]. split; [exact Hfetch|]. split; [exact Hreq|].
  split; [exact Hscore|]. split; [exact Hlevel|]. split; [exact Hrec|].
  split; [exact Hexec|].
  cbn [Soar.chosen_action Soar.req_action_type Soar.store] in *.
  rewrite Hty, Htgt, Hstore, Hrec, Hscore. done.
Qed.

Lemma soar_executes_what_the_risk_engine_recommends_witness :
  let d' := assessed default_config 50 db_without_prediction 0 in
  exists row st' executed,
    select_by_id (risk_assessments d') (assessment_id first_answer)
      = Some row /\
    Soar.fetch_assessment d' (assessment_id first_answer)
      = Some (row, resp_client_ip first_answer) /\
    ra_request_id row = 0%Z /\
    risk_score row = resp_risk_score first_answer /\
    risk_level row = resp_risk_level first_answer /\
    recommended_action row = resp_recommended_action first_answer /\
    Soar.execute_soar Soar.default_config waf_up 60
      {| Soar.req_risk_assessment_id := assessment_id first_answer;
         Soar.req_action_type := None |}
      {| Soar.database := d'; Soar.store := ∅ |} = Ok (st', executed) /\
    Soar.resp_action_type executed = resp_recommended_action first_answer /\
    Soar.resp_target_ip executed = resp_client_ip first_answer /\
    Soar.store st' =
      (Soar.execute_action Soar.default_config waf_up
         (resp_recommended_action first_answer)
         (resp_client_ip first_answer)
         (Soar.duration_for Soar.default_config
            (resp_risk_score first_answer)) ∅).2.
Proof.
  apply (soar_executes_what_the_risk_engine_recommends default_config
           Soar.default_config waf_up 50 60 db_without_prediction
           (assessed default_config 50 db_without_prediction 0) 0
           first_answer ∅).
  - vm_compute. reflexivity.
  - vm_compute. split; [reflexivity|discriminate].
Defined.

(** X20: when [decide_action] asks for validation.  Under the default
    configuration (semi-auto) validation is required exactly for scores of
    at least 0.8: always for BLOCK_IP, never for RATE_LIMIT and ALERT_ONLY.
    In "auto" it is required exactly from 0.95 on, hence for no score up to
    0.9; in "strict" never; and for any value of AUTOMATION_LEVEL other
    than semi-auto, auto and strict (manual, or an unknown text) always. *)
Theorem validation_follows_the_automation_level (cfg : config) (s : Q) :
  (requires_validation (decide_action default_config s) = true
     <-> 0.8 <= s) /\
  (action (decide_action default_config s) = "BLOCK_IP"%string ->
   requires_validation (decide_action default_config s) = true) /\
  (action (decide_action default_config s) = "RATE_LIMIT"%string \/
   action (decide_action default_config s) = "ALERT_ONLY"%string ->
   requires_validation (decide_action default_config s) = false) /\
  (AUTOMATION_LEVEL cfg = "auto"%string ->
   (requires_validation (decide_action cfg s) = true <-> 0.95 <= s)) /\
  (AUTOMATION_LEVEL cfg = "auto"%string -> s <= 0.9 ->
   requires_validation (decide_action cfg s) = false) /\
  (AUTOMATION_LEVEL cfg = "strict"%string ->
   requires_validation (decide_action cfg s) = false) /\
  (AUTOMATION_LEVEL cfg <> "semi-auto"%string ->
   AUTOMATION_LEVEL cfg <> "auto"%string ->
   AUTOMATION_LEVEL cfg <> "strict"%string ->
   requires_validation (decide_action cfg s) = true).
Proof.
  assert (Hgeb : forall c, Qgeb s c = true <-> c <= s).
  { intros c. unfold Qgeb. apply Qle_bool_iff. }
  assert (Hdefault :
    requires_validation (decide_action default_config s) = Qgeb s 0.8).
  { unfold decide_action. cbn.
    by destruct (Qgeb s 0.9), (Qgeb s 0.7), (Qgeb s 0.5). }
  assert (Hreq : forall c,
    requires_validation (decide_action c s) =
      if String.eqb (AUTOMATION_LEVEL c) "manual" then true
      else if String.eqb (AUTOMATION_LEVEL c) "semi-auto" then Qgeb s 0.8
      else if String.eqb (AUTOMATION_LEVEL c) "auto" then Qgeb s 0.95
      else if String.eqb (AUTOMATION_LEVEL c) "strict" then false
      else true).
  { intros c. unfold decide_action.
    by destruct (Qgeb s (RISK_THRESHOLD_BLOCK c)),
                (Qgeb s (RISK_THRESHOLD_CAPTCHA c)), (Qgeb s 0.5). }
  pose proof (decide_action_cases default_config s) as Hcases.
  cbv zeta in Hcases. cbn [RISK_THRESHOLD_BLOCK RISK_THRESHOLD_CAPTCHA
                           default_config] in Hcases.
  split; [rewrite Hdefault; apply Hgeb|].
  split.
  { intros Hact. rewrite Hdefault. apply Hgeb.
    destruct Hcases as [(? & _)|[(_ & _ & E & _)|[(_ & _ & _ & E & _)
                                                 |(_ & _ & _ & E & _)]]];
      [lra|rewrite E in Hact; discriminate..]. }
  split.
  { intros Hact. rewrite Hdefault.
    destruct (Qgeb s 0.8) eqn:E; [|reflexivity]. apply Hgeb in E.
    destruct Hcases as [(_ & E' & _)|[(_ & _ & E' & _)|[(_ & ? & _)
                                                       |(_ & ? & _)]]];
      [destruct Hact as [Hact|Hact]; rewrite E' in Hact; discriminate..
      |lra|lra]. }
  split.
  { intros Hauto. rewrite Hreq, Hauto. cbn. apply Hgeb. }
  split.
  { intros Hauto Hle. rewrite Hreq, Hauto. cbn.
    destruct (Qgeb s 0.95) eqn:E; [|reflexivity]. apply Hgeb in E. lra. }
  split.
  { intros Hstrict. rewrite Hreq, Hstrict. reflexivity. }
  intros H1 H2 H3. rewrite Hreq.
  apply String.eqb_neq in H1, H2, H3. rewrite H1, H2, H3.
  by destruct (String.eqb (AUTOMATION_LEVEL cfg) "manual").
Qed.

End Assessment.

Section ReputationHistory.
Import Schema RiskEngine Reputation Histories Samples.
Local Open Scope Z_scope.

Lemma hits_app (ip : string) (h1 h2 : list event) :
  hits ip (h1 ++ h2) = hits ip h1 ++ hits ip h2.
Proof.
  induction h1 as [|e h1 IH]; simpl; [reflexivity|].
  destruct e as [now NEW| | |]; try exact IH.
  destruct (String.eqb (client_ip NEW) ip); [|exact IH].
  simpl. by rewrite IH.
Qed.

Lemma hits_length (ip : string) (h : list event) :
  (length (hits ip h) <= length h)%nat.
Proof.
  induction h as [|e h IH]; simpl; [lia|].
  destruct e as [now NEW| | |]; try lia.
  destruct (String.eqb (client_ip NEW) ip); simpl; lia.
Qed.

Lemma filter_length_le {A} (f : A -> bool) (l : list A) :
  (length (List.filter f l) <= length l)%nat.
Proof.
  induction l as [|x l IH]; simpl; [lia|]. destruct (f x); simpl; lia.
Qed.

Lemma count_snoc {A} (f : A -> bool) (l : list A) (x : A) :
  Z.of_nat (length (List.filter f (l ++ [x]))) =
  Z.of_nat (length (List.filter f l)) + case_flag (f x).
Proof.
  rewrite List.filter_app, length_app. simpl.
  destruct (f x); simpl; lia.
Qed.

Lemma hits_snoc_other (ip : string) (h : list event) (e : event) :
  match e with
  | Observe _ NEW => client_ip NEW <> ip
  | _ => True
  end ->
  hits ip (h ++ [e]) = hits ip h.
Proof.
  intros He. rewrite hits_app. destruct e as [now NEW| | |]; simpl;
    rewrite ?app_nil_r; try reflexivity.
  apply String.eqb_neq in He. rewrite He. by rewrite app_nil_r.
Qed.


(** X22: the counters of [ip_reputation] are exact.  After any history of
    observations and admin statements (short enough for the 32-bit counters
    not to overflow), a source has a row if it was observed, and the row's
    total_requests, blocked_requests and suspicious_requests are the number
    of its observed requests, of those that were blocked and of those that
    were suspicious; the admin statements do not change them. *)
Theorem counters_count_the_observations
    (history : list event) (ip : string) :
  Z.of_nat (length history) <= int4_max ->
  match run history !! ip with
  | Some row =>
      total_requests row = Z.of_nat (length (hits ip history)) /\
      blocked_requests row =
        Z.of_nat (length (List.filter is_blocked (hits ip history))) /\
      suspicious_requests row =
        Z.of_nat (length (List.filter is_suspicious (hits ip history)))
  | None => hits ip history = []
  end.
Proof.
  intros Hlen.
  change (match run history !! ip with
          | Some row => counted ip history row
          | None => hits ip history = []
          end).
  revert Hlen ip. unfold run.
  induction history as [|e history IH] using rev_ind; intros Hlen ip.
  { simpl. by rewrite lookup_empty. }
  rewrite length_app in Hlen. simpl in Hlen.
  assert (Hlen' : Z.of_nat (length history) <= int4_max) by lia.
  specialize (IH Hlen'). rewrite foldl_app. simpl foldl.
  set (table := foldl step ∅ history) in *.
  destruct e as [now NEW|now ip0 reason|ip0|now ip0]; simpl step.
  - (* an observation *)
    assert (Hup : exists new,
      update_ip_rep now NEW table = Ok (<[client_ip NEW := new]> table) /\
      counted (client_ip NEW) (history ++ [Observe now NEW]) new).
    { pose proof (IH (client_ip NEW)) as IHc.
      pose proof (hits_length (client_ip NEW) history) as Hh.
      pose proof (filter_length_le is_blocked (hits (client_ip NEW) history)).
      pose proof (filter_length_le is_suspicious
                    (hits (client_ip NEW) history)).
      pose proof (case_flag_range (is_blocked NEW)).
      pose proof (case_flag_range (is_suspicious NEW)).
      unfold counted. rewrite hits_app. simpl hits.
      rewrite String.eqb_refl. rewrite !count_snoc, length_app. simpl length.
      unfold update_ip_rep.
      destruct (table !! client_ip NEW) as [old|] eqn:Hold.
      - destruct IHc as (Ht & Hb & Hs).
        rewrite !int4_add_in_range
          by (unfold int4_min, int4_max in *; lia).
        simpl. eexists. split; [reflexivity|]. simpl.
        rewrite Ht, Hb, Hs. lia.
      - rewrite IHc. simpl. eexists. split; [reflexivity|]. simpl. lia. }
    destruct Hup as (new & -> & Hnew).
    destruct (String.eqb_spec (client_ip NEW) ip) as [<-|Hne].
    + rewrite lookup_insert_eq. exact Hnew.
    + rewrite lookup_insert_ne by done. unfold counted.
      rewrite hits_snoc_other by exact Hne. apply IH.
  - (* block *)
    unfold counted. rewrite hits_snoc_other by exact I.
    unfold AdminConsole.block_ip.
    pose proof (IH ip) as IHi. unfold counted in IHi.
    destruct (table !! ip0) as [old|] eqn:Hold.
    all: destruct (decide (ip0 = ip)) as [->|Hne];
      [rewrite lookup_insert_eq|by rewrite lookup_insert_ne].
    + rewrite Hold in IHi. exact IHi.
    + rewrite Hold in IHi. rewrite IHi. by simpl.
  - (* unblock *)
    unfold counted. rewrite hits_snoc_other by exact I.
    unfold AdminConsole.unblock_ip.
    pose proof (IH ip) as IHi. unfold counted in IHi.
    destruct (table !! ip0) as [old|] eqn:Hold; [|exact IHi].
    destruct (decide (ip0 = ip)) as [->|Hne];
      [rewrite lookup_insert_eq|by rewrite lookup_insert_ne].
    rewrite Hold in IHi. exact IHi.
  - (* whitelist *)
    unfold counted. rewrite hits_snoc_other by exact I.
    unfold AdminConsole.whitelist_ip.
    pose proof (IH ip) as IHi. unfold counted in IHi.
    destruct (table !! ip0) as [old|] eqn:Hold.
    all: destruct (decide (ip0 = ip)) as [->|Hne];
      [rewrite lookup_insert_eq|by rewrite lookup_insert_ne].
    + rewrite Hold in IHi. exact IHi.
    + rewrite Hold in IHi. rewrite IHi. by simpl.
Qed.

Lemma counters_count_the_observations_witness :
  match run sample_history !! probe_ip with
  | Some row =>
      total_requests row
        = Z.of_nat (length (hits probe_ip sample_history)) /\
      blocked_requests row =
        Z.of_nat (length (List.filter is_blocked
                            (hits probe_ip sample_history))) /\
      suspicious_requests row =
        Z.of_nat (length (List.filter is_suspicious
                            (hits probe_ip sample_history)))
  | None => hits probe_ip sample_history = []
  end.
Proof.
  apply (counters_count_the_observations sample_history probe_ip).
  vm_compute. discriminate.
Defined.

Lemma marks_ok_insert (table : gmap string ip_reputation_row)
    (ip : string) (row : ip_reputation_row) :
  (forall ip' row', table !! ip' = Some row' -> marks_ok row') ->
  marks_ok row ->
  forall ip' row', <[ip := row]> table !! ip' = Some row' -> marks_ok row'.
Proof.
  intros Ht Hr ip' row' Hl.
  destruct (decide (ip = ip')) as [->|Hne].
  - rewrite lookup_insert_eq in Hl. by injection Hl as <-.
  - rewrite lookup_insert_ne in Hl by done. by eapply Ht.
Qed.

Lemma reputation_case_values (r : option Q) :
  (reputation_case r = 0.1 \/ reputation_case r = 0.3 \/
   reputation_case r = 0.7)%Q.
Proof.
  unfold reputation_case.
  destruct (sql_gt r 0.5); [by left|].
  destruct (sql_gt r 0.2); [by right; left|by right; right].
Qed.

Lemma step_marks (table : gmap string ip_reputation_row) (e : event) :
  (forall ip row, table !! ip = Some row -> marks_ok row) ->
  forall ip row, step table e !! ip = Some row -> marks_ok row.
Proof.
  intros Ht. destruct e as [now NEW|now ip0 reason|ip0|now ip0]; simpl.
  - unfold update_ip_rep.
    destruct (table !! client_ip NEW) as [old|] eqn:Hold.
    + destruct (int4_add (total_requests old) 1) as [t|]; [|exact Ht].
      destruct (int4_add (blocked_requests old) _) as [b|]; [|exact Ht].
      destruct (int4_add (suspicious_requests old) _) as [s|]; [|exact Ht].
      simpl. apply marks_ok_insert; [exact Ht|].
      destruct (Ht _ _ Hold) as (_ & H2 & H3 & H4 & H5).
      unfold marks_ok. simpl. split; [|done].
      destruct (reputation_case_values (float_div_nullif b t))
        as [-> | [-> | ->]]; auto.
    + apply marks_ok_insert; [exact Ht|].
      unfold marks_ok. simpl. repeat split; auto; discriminate.
  - unfold AdminConsole.block_ip.
    destruct (table !! ip0) as [old|] eqn:Hold;
      (apply marks_ok_insert; [exact Ht|]).
    + destruct (Ht _ _ Hold) as (H1 & _ & _ & _ & H5).
      unfold marks_ok. simpl. repeat split; auto; discriminate.
    + unfold marks_ok. simpl. repeat split; auto; discriminate.
  - unfold AdminConsole.unblock_ip.
    destruct (table !! ip0) as [old|] eqn:Hold; [|exact Ht].
    apply marks_ok_insert; [exact Ht|].
    destruct (Ht _ _ Hold) as (H1 & H2 & H3 & _ & H5).
    unfold marks_ok. simpl. split; [exact H1|]. split; [exact H2|].
    split; [|split; [discriminate|exact H5]].
    intros Hn. destruct (H3 Hn) as (? & _ & ?). done.
  - unfold AdminConsole.whitelist_ip.
    destruct (table !! ip0) as [old|] eqn:Hold;
      (apply marks_ok_insert; [exact Ht|]).
    + destruct (Ht _ _ Hold) as (_ & _ & _ & H4 & H5).
      unfold marks_ok. simpl. repeat split; auto; discriminate.
    + unfold marks_ok. simpl. repeat split; auto; discriminate.
Qed.

(** X23: the marks of a row of [ip_reputation], in every table the trigger and
    the admin statements can produce.  The reputation score is one of 0.1,
    0.3, 0.5, 0.7 and 1.0; the trust level is NEUTRAL, MALICIOUS or TRUSTED
    and is changed by the admin statements only, so a NEUTRAL row is
    neither whitelisted nor blacklisted; a blacklisted row has a reason;
    and blacklist_expires_at is never set. *)
Theorem reachable_rows_carry_only_these_marks
    (table : gmap string ip_reputation_row) (ip : string)
    (row : ip_reputation_row) :
  reachable table ->
  table !! ip = Some row ->
  (reputation_score row = 0.1 \/ reputation_score row = 0.3 \/
   reputation_score row = 0.5 \/ reputation_score row = 0.7 \/
   reputation_score row = 1.0)%Q /\
  (trust_level row = "NEUTRAL" \/ trust_level row = "MALICIOUS" \/
   trust_level row = "TRUSTED")%string /\
  (trust_level row = "NEUTRAL"%string ->
   is_whitelisted row = false /\ is_blacklisted row = false /\
   blacklist_reason row = None) /\
  (is_blacklisted row = true -> blacklist_reason row <> None) /\
  blacklist_expires_at row = None.
Proof.
  intros [history <-]. revert ip row. unfold run.
  induction history as [|e history IH] using rev_ind.
  - intros ip row H. simpl in H. by rewrite lookup_empty in H.
  - rewrite foldl_app. simpl. by apply step_marks.
Qed.

Lemma reachable_rows_carry_only_these_marks_witness :
  let row :=
    {| first_seen := 1; last_seen := 3;
       total_requests := 2; blocked_requests := 1;
       suspicious_requests := 1; reputation_score := 0.3;
       trust_level := "MALICIOUS";
       is_whitelisted := false; is_blacklisted := true;
       blacklist_reason := Some "Manual block"%string;
       blacklist_expires_at := None |} in
  (reputation_score row = 0.1 \/ reputation_score row = 0.3 \/
   reputation_score row = 0.5 \/ reputation_score row = 0.7 \/
   reputation_score row = 1.0)%Q /\
  (trust_level row = "NEUTRAL" \/ trust_level row = "MALICIOUS" \/
   trust_level row = "TRUSTED")%string /\
  (trust_level row = "NEUTRAL"%string ->
   is_whitelisted row = false /\ is_blacklisted row = false /\
   blacklist_reason row = None) /\
  (is_blacklisted row = true -> blacklist_reason row <> None) /\
  blacklist_expires_at row = None.
Proof.
  apply (reachable_rows_carry_only_these_marks (run sample_history)
           probe_ip).
  - exists sample_history. reflexivity.
  - vm_compute. reflexivity.
Defined.

Local Open Scope Q_scope.

Lemma Qgeb_proper (s s' c : Q) : s == s' -> Qgeb s c = Qgeb s' c.
Proof.
  intros H. unfold Qgeb.
  destruct (Qle_bool c s) eqn:E, (Qle_bool c s') eqn:E'; try reflexivity.
  - apply Qle_bool_iff in E. apply Qle_bool_false in E'. lra.
  - apply Qle_bool_iff in E'. apply Qle_bool_false in E. lra.
Qed.

Lemma decide_action_proper (cfg : config) (s s' : Q) :
  s == s' -> decide_action cfg s = decide_action cfg s'.
Proof.
  intros H. unfold decide_action.
  by rewrite !(Qgeb_proper s s' _ H).
Qed.

(** The score depends on the behavioural data through the blocked ratio
    only. *)
Lemma calculate_risk_ratio (ml_data : dict) (owasp_data : list dict)
    (b b' : dict) (r r' : Q) :
  dict_get b "blocked_ratio" (PNum 0.0) = PNum r ->
  dict_get b' "blocked_ratio" (PNum 0.0) = PNum r' ->
  r == r' ->
  match calculate_risk ml_data owasp_data b,
        calculate_risk ml_data owasp_data b' with
  | Ok s, Ok s' => s == s'
  | Raise x, Raise x' => x = x'
  | _, _ => False
  end.
Proof.
  intros Hb Hb' Hr. unfold calculate_risk, behavioral_score.
  rewrite Hb, Hb'. destruct (ml_score ml_data) as [ml|x]; simpl; [|done].
  apply py_min_proper; [|reflexivity].
  assert (py_min (r * 2.0) 1.0 == py_min (r' * 2.0) 1.0) as ->
    by (apply py_min_proper; [by rewrite Hr|reflexivity]).
  reflexivity.
Qed.

(** The behavioural data [assess_risk] builds from the row of a source. *)
Lemma admin_step_ratio (table : gmap string ip_reputation_row)
    (e : event) (ip : string) :
  by_admin e = true ->
  match step table e !! ip, table !! ip with
  | Some rep', Some rep =>
      blocked_requests rep' = blocked_requests rep /\
      total_requests rep' = total_requests rep
  | Some rep', None =>
      blocked_requests rep' = 0%Z /\ total_requests rep' = 0%Z
  | None, None => True
  | None, Some _ => False
  end.
Proof.
  destruct e as [now NEW|now ip0 reason|ip0|now ip0]; [discriminate|..];
    intros _; simpl.
  - unfold AdminConsole.block_ip.
    destruct (table !! ip0) as [old|] eqn:Hold;
      (destruct (decide (ip0 = ip)) as [->|Hne];
       [rewrite lookup_insert_eq, Hold; done|rewrite lookup_insert_ne by done]);
      by destruct (table !! ip).
  - unfold AdminConsole.unblock_ip.
    destruct (table !! ip0) as [old|] eqn:Hold.
    + destruct (decide (ip0 = ip)) as [->|Hne];
        [rewrite lookup_insert_eq, Hold; done|rewrite lookup_insert_ne by done];
        by destruct (table !! ip).
    + by destruct (table !! ip).
  - unfold AdminConsole.whitelist_ip.
    destruct (table !! ip0) as [old|] eqn:Hold;
      (destruct (decide (ip0 = ip)) as [->|Hne];
       [rewrite lookup_insert_eq, Hold; done|rewrite lookup_insert_ne by done]);
      by destruct (table !! ip).
Qed.

(** X24: blocking, unblocking or whitelisting an address in the admin console
    does not change what [assess_risk] answers for its requests: the score
    is equal and the level, the recommended action, the validation flag,
    the id and the client address are the same; a failing assessment fails
    in the same way.  ([calculate_risk] reads the blocked ratio only, and
    the admin statements leave the counters alone.) *)
Theorem admin_marks_do_not_move_the_risk_score
    (cfg : config) (now : timestamp) (d : db) (request_id : uuid)
    (e : event) :
  by_admin e = true ->
  let d' := with_ip_reputation d (step (ip_reputation d) e) in
  match assess_risk cfg now d request_id,
        assess_risk cfg now d' request_id with
  | Ok (_, resp), Ok (_, resp') =>
      resp_risk_score resp' == resp_risk_score resp /\
      resp_risk_level resp' = resp_risk_level resp /\
      resp_recommended_action resp' = resp_recommended_action resp /\
      resp_requires_validation resp' = resp_requires_validation resp /\
      assessment_id resp' = assessment_id resp /\
      resp_client_ip resp' = resp_client_ip resp
  | Raise x, Raise x' => x = x'
  | _, _ => False
  end.
Proof.
  intros He d'. subst d'. unfold assess_risk.
  cbn [with_ip_reputation raw_requests ip_reputation ml_predictions
       owasp_detections risk_assessments soar_actions incidents].
  destruct (select_by_id (raw_requests d) request_id) as [rr|]; [|done].
  set (ml_data := match latest_prediction request_id (ml_predictions d) with
                  | Some p => ml_dict p | None => ∅ end).
  set (owasp_data := map owasp_dict _).
  pose proof (admin_step_ratio (ip_reputation d) e (client_ip rr) He) as Hr.
  set (b := match ip_reputation d !! client_ip rr with
            | Some rep => _ | None => ∅ end).
  set (b' := match step (ip_reputation d) e !! client_ip rr with
             | Some rep => _ | None => ∅ end).
  assert (Hcr : exists r r',
            dict_get b "blocked_ratio" (PNum 0.0) = PNum r /\
            dict_get b' "blocked_ratio" (PNum 0.0) = PNum r' /\ r == r').
  { subst b b'.
    destruct (step (ip_reputation d) e !! client_ip rr) as [rep'|],
             (ip_reputation d !! client_ip rr) as [rep|]; try done.
    - destruct Hr as [-> ->]. eexists _, _.
      split; [apply dict_get_lookup, lookup_insert_eq|].
      split; [apply dict_get_lookup, lookup_insert_eq|]. reflexivity.
    - destruct Hr as [-> ->]. eexists _, _.
      split; [reflexivity|].
      split; [apply dict_get_lookup, lookup_insert_eq|]. reflexivity.
    - eexists _, _. split; [reflexivity|]. split; reflexivity. }
  destruct Hcr as (r & r' & Hb & Hb' & Hrr).
  pose proof (calculate_risk_ratio ml_data owasp_data b b' r r' Hb Hb' Hrr)
    as Hs.
  destruct (calculate_risk ml_data owasp_data b) as [s|x],
           (calculate_risk ml_data owasp_data b') as [s'|x']; try done.
  - cbn. rewrite (decide_action_proper cfg s s' Hs). repeat split.
    by symmetry.
  - subst x'. by destruct x.
Qed.

Lemma admin_marks_do_not_move_the_risk_score_witness :
  let d' :=
    with_ip_reputation db_without_prediction
      (step (ip_reputation db_without_prediction)
            (AdminWhitelist 40 "198.51.100.4")) in
  match assess_risk default_config 50 db_without_prediction 0,
        assess_risk default_config 50 d' 0 with
  | Ok (_, resp), Ok (_, resp') =>
      resp_risk_score resp' == resp_risk_score resp /\
      resp_risk_level resp' = resp_risk_level resp /\
      resp_recommended_action resp' = resp_recommended_action resp /\
      resp_requires_validation resp' = resp_requires_validation resp /\
      assessment_id resp' = assessment_id resp /\
      resp_client_ip resp' = resp_client_ip resp
  | Raise x, Raise x' => x = x'
  | _, _ => False
  end.
Proof.
  apply (admin_marks_do_not_move_the_risk_score default_config 50
           db_without_prediction 0 (AdminWhitelist 40 "198.51.100.4")).
  reflexivity.
Defined.

End ReputationHistory.

Section LiteralPatterns.
Import Waf PyRe Texts Requests.
Local Open Scope Z_scope.

Lemma eat_app (l1 l2 s : list ascii) (prev : option ascii) :
  eat (l1 ++ l2) s prev =
  match eat l1 s prev with
  | Some (p, rest) => eat l2 rest p
  | None => None
  end.
Proof.
  revert s prev. induction l1 as [|c l1 IH]; intros s prev; simpl;
    [reflexivity|].
  destruct s as [|x s]; [reflexivity|].
  destruct (same_letter c x); [apply IH|reflexivity].
Qed.

Lemma eat_prev (l s : list ascii) (prev prev' : option ascii) :
  match eat l s prev with Some _ => true | None => false end =
  match eat l s prev' with Some _ => true | None => false end.
Proof.
  destruct l as [|c l]; simpl; [reflexivity|].
  destruct s as [|x s]; [reflexivity|]. reflexivity.
Qed.

Lemma existsb_ext_all {A} (f g : A -> bool) (l : list A) :
  (forall x, f x = g x) -> existsb f l = existsb g l.
Proof. intros H. induction l as [|x l IH]; simpl; [done|]. by rewrite H, IH. Qed.

Lemma existsb_map' {A B} (f : B -> bool) (h : A -> B) (l : list A) :
  existsb f (map h l) = existsb (fun x => f (h x)) l.
Proof. induction l as [|x l IH]; simpl; [done|]. by rewrite IH. Qed.

Lemma existsb_flat_map' {A B} (f : B -> bool) (g : A -> list B)
    (l : list A) :
  existsb f (flat_map g l) = existsb (fun x => existsb f (g x)) l.
Proof.
  induction l as [|x l IH]; simpl; [done|]. by rewrite existsb_app, IH.
Qed.

Lemma existsb_orb {A} (f g : A -> bool) (l : list A) :
  existsb (fun x => f x || g x) l = existsb f l || existsb g l.
Proof.
  induction l as [|x l IH]; simpl; [done|]. rewrite IH.
  destruct (f x), (g x), (existsb f l), (existsb g l); reflexivity.
Qed.

(** A pattern that stands for finitely many texts matches by reading one
    of them. *)
Lemma matches_texts (r : regex) :
  forall (L : list (list ascii)) (prev : option ascii) (s : list ascii)
         (k : option ascii -> list ascii -> bool),
    texts r = Some L ->
    matches r prev s k =
    existsb (fun l => match eat l s prev with
                      | Some (p, rest) => k p rest
                      | None => false
                      end) L.
Proof.
  induction r as [|c| | | | |r1 IH1 r2 IH2|r1 IH1 r2 IH2|];
    intros L prev s k HL; simpl in HL; try discriminate.
  - injection HL as <-. simpl. by rewrite orb_false_r.
  - injection HL as <-. simpl. rewrite orb_false_r.
    destruct s as [|x s]; [reflexivity|].
    by destruct (same_letter c x).
  - destruct (texts r1) as [L1|]; [|discriminate].
    destruct (texts r2) as [L2|]; [|discriminate].
    injection HL as <-. simpl.
    rewrite (IH1 L1 prev s _ eq_refl).
    rewrite existsb_flat_map'. apply existsb_ext_all. intros l1.
    rewrite existsb_map'.
    destruct (eat l1 s prev) as [[p rest]|] eqn:E.
    + rewrite (IH2 L2 p rest k eq_refl). apply existsb_ext_all.
      intros l2. by rewrite eat_app, E.
    + symmetry. clear -E. induction L2 as [|l2 L2 IH]; simpl; [done|].
      rewrite eat_app, E. exact IH.
  - destruct (texts r1) as [L1|]; [|discriminate].
    destruct (texts r2) as [L2|]; [|discriminate].
    injection HL as <-. simpl.
    by rewrite existsb_app, (IH1 L1 _ _ _ eq_refl), (IH2 L2 _ _ _ eq_refl).
Qed.

Lemma search_from_texts (r : regex) (L : list (list ascii))
    (s : list ascii) (prev : option ascii) :
  texts r = Some L ->
  search_from r prev s = existsb (fun l => occurs l s) L.
Proof.
  intros HL. revert prev. induction s as [|x s IH]; intros prev; simpl.
  - rewrite (matches_texts r L prev [] _ HL). rewrite orb_false_r.
    apply existsb_ext_all. intros l. rewrite orb_false_r.
    rewrite (eat_prev l [] None prev). by destruct (eat l [] prev) as [[]|].
  - rewrite (matches_texts r L prev (x :: s) _ HL), (IH (Some x)).
    rewrite <- existsb_orb. apply existsb_ext_all. intros l. f_equal.
    rewrite (eat_prev l (x :: s) None prev).
    by destruct (eat l (x :: s) prev) as [[]|].
Qed.

Lemma ascii_lower_idem (c : ascii) :
  ascii_lower (ascii_lower c) = ascii_lower c.
Proof.
  destruct c as [[] [] [] [] [] [] [] []]; reflexivity.
Qed.

Lemma string_of_list_ascii_cons (c : ascii) (l : list ascii) :
  string_of_list_ascii (c :: l) = String c (string_of_list_ascii l).
Proof. reflexivity. Qed.

(** On lower-cased text, reading a text off the front is [String.prefix]
    with the lower-cased text. *)
Lemma eat_lower (l t : list ascii) (prev : option ascii) :
  match eat l (map ascii_lower t) prev with Some _ => true | None => false end
  = String.prefix (string_of_list_ascii (map ascii_lower l))
                  (string_of_list_ascii (map ascii_lower t)).
Proof.
  revert t prev. induction l as [|c l IH]; intros t prev.
  - simpl. by destruct (string_of_list_ascii _).
  - destruct t as [|x t]; [reflexivity|].
    cbn [map eat]. rewrite !string_of_list_ascii_cons. cbn [String.prefix].
    unfold same_letter. rewrite ascii_lower_idem.
    destruct (ascii_dec (ascii_lower c) (ascii_lower x)) as [->|Hne].
    + rewrite Ascii.eqb_refl. apply IH.
    + apply Ascii.eqb_neq in Hne. by rewrite Hne.
Qed.

Lemma occurs_lower (l t : list ascii) :
  occurs l (map ascii_lower t) =
  contains (string_of_list_ascii (map ascii_lower l))
           (string_of_list_ascii (map ascii_lower t)).
Proof.
  induction t as [|x t IH].
  - pose proof (eat_lower l [] None) as H. cbn [map] in H.
    cbn [map occurs]. rewrite H.
    cbn [string_of_list_ascii contains]. reflexivity.
  - pose proof (eat_lower l (x :: t) None) as H. cbn [map] in H.
    cbn [map occurs]. rewrite H.
    rewrite string_of_list_ascii_cons. cbn [contains]. by rewrite IH.
Qed.

Lemma lower_of_list (l : list ascii) :
  lower (string_of_list_ascii l) = string_of_list_ascii (map ascii_lower l).
Proof. unfold lower. by rewrite list_ascii_of_string_of_list_ascii. Qed.

(** The search for a pattern that stands for finitely many texts, on
    lower-cased text. *)
Lemma search_texts (pattern : string) (r : regex) (L : list (list ascii))
    (text : string) :
  compile pattern = Some r ->
  texts r = Some L ->
  search pattern (lower text) =
    Ok (existsb (fun l => contains (lower (string_of_list_ascii l))
                                   (lower text)) L).
Proof.
  intros Hc HL. unfold search. rewrite Hc. f_equal.
  rewrite (search_from_texts r L _ None HL).
  apply existsb_ext_all. intros l. rewrite lower_of_list.
  unfold lower at 1 2. rewrite list_ascii_of_string_of_list_ascii.
  apply occurs_lower.
Qed.

(** X11: on a request whose URL, query and body are ASCII text, a pattern
    of [OWASP_PATTERNS] built from literals, groups and [|] only (it stands
    for finitely many texts) matches exactly when the lower-cased URL, query
    and body contain the lower-cased form of one of its texts; and whenever
    they do, [detect_owasp] reports the pattern's category with the
    severity of its table entry.  So an ASCII request that mentions
    /etc/passwd, javascript:, file://, localhost or 169.254. anywhere, in
    any letter case, is reported.  (Beyond ASCII, Python's IGNORECASE also
    equates a few other characters with ASCII letters, which [PyRe] does
    not model.) *)
Theorem a_pattern_of_plain_texts_reports_each_occurrence
    (category : string) (config : pattern_config) (pattern : string)
    (r : regex) (L : list (list ascii)) (request : request) (body : string) :
  (category, config) ∈ OWASP_PATTERNS ->
  pattern ∈ patterns config ->
  compile pattern = Some r ->
  texts r = Some L ->
  ascii_only (url request) = true ->
  ascii_only (query request) = true ->
  ascii_only body = true ->
  let content :=
    lower (url request ++ " " ++ query request ++ " " ++ body)%string in
  let found :=
    existsb (fun l => contains (lower (string_of_list_ascii l)) content) L in
  search pattern content = Ok found /\
  (found = true ->
   exists ds d,
     detect_owasp request body = Ok ds /\ d ∈ ds /\ type d = category /\
     det_severity d = severity config).
Proof.
  intros Hin Hp Hc HL _ _ _ content found. subst content found.
  split; [by apply (search_texts pattern r L)|].
  intros Hfound.
  pose proof (search_texts pattern r L
                (url request ++ " " ++ query request ++ " " ++ body)%string
                Hc HL) as Hs.
  rewrite Hfound in Hs.
  unfold detect_owasp.
  destruct (scan_categories_spec OWASP_PATTERNS
              (lower (url request ++ " " ++ query request ++ " " ++ body))
              OWASP_PATTERNS_compile) as (ds & Hscan & _ & _ & Hall).
  rewrite Hscan. cbn [mbind result_bind].
  pose proof (table_compiles_entry _ _ _ OWASP_PATTERNS_compile Hin) as Hcomp.
  destruct (first_match_spec (patterns config)
              (lower (url request ++ " " ++ query request ++ " " ++ body))
              Hcomp) as (b & Hfm & Hiff).
  assert (b = true) as -> by (apply Hiff; by exists pattern).
  destruct (Hall category config Hin Hfm) as (d & Hd & Hty).
  exists (ds ++ scan_user_agent
                  (lower match user_agent request with
                         | Some h => h | None => "" end)), d.
  split; [reflexivity|]. split; [apply elem_of_app; by left|].
  split; [exact Hty|].
  destruct (scan_categories_fields _ _ _ Hscan d Hd)
    as (config' & Hin' & _ & Hsev & _).
  rewrite Hsev. f_equal. rewrite Hty in Hin'.
  exact (NoDup_fst_lookup _ _ _ _ OWASP_PATTERNS_keys_NoDup Hin' Hin).
Qed.

Lemma a_pattern_of_plain_texts_reports_each_occurrence_witness :
  let content :=
    lower (url metadata_request ++ " " ++ query metadata_request ++ " "
           ++ "")%string in
  let found :=
    existsb (fun l => contains (lower (string_of_list_ascii l)) content)
            ssrf_host_texts in
  search "(localhost|127\.0\.0\.1|0\.0\.0\.0|169\.254\.)" content
    = Ok found /\
  (found = true ->
   exists ds d,
     detect_owasp metadata_request "" = Ok ds /\ d ∈ ds /\
     type d = "SSRF"%string /\
     det_severity d = severity ssrf_config).
Proof.
  apply (a_pattern_of_plain_texts_reports_each_occurrence "SSRF" ssrf_config
           "(localhost|127\.0\.0\.1|0\.0\.0\.0|169\.254\.)" ssrf_hosts
           ssrf_host_texts metadata_request "").
  - unfold OWASP_PATTERNS, ssrf_config.
    do 5 apply list_elem_of_further. apply list_elem_of_here.
  - unfold ssrf_config. cbn [patterns].
    do 3 apply list_elem_of_further. apply list_elem_of_here.
  - vm_compute. reflexivity.
  - vm_compute. reflexivity.
  - reflexivity.
  - reflexivity.
  - reflexivity.
Defined.

End LiteralPatterns.

Section StoredScores.
Import Schema RiskEngine Reputation Samples.
Local Open Scope Q_scope.




End StoredScores.
